(** * Telegram media aggregator: classification, naming and download engine

    A shallow embedding of the TypeScript sources
    ([core/aggregator.ts], [core/downloader.ts], [utils/helpers.ts],
    [utils/config.ts], [types]) and the properties of the specification
    that are stated about them.

    JavaScript strings are sequences of UTF-16 code units ([list N]);
    integral JavaScript numbers are [Z].  Calls into the JavaScript runtime
    whose result is floating point or locale dependent are collected in the
    class [Runtime]; the file system, the flag sets and the transfer
    provider are explicit state. *)

From Stdlib Require Import ZArith NArith QArith Qround List String Ascii Lia Bool.
From stdpp Require Import gmap strings list pretty.

Local Open Scope Z_scope.

(** ** JavaScript strings *)

Module JS.

Definition jsstring := list N.

(** An ASCII literal as a JavaScript string. *)
Definition str (s : string) : jsstring :=
  List.map N_of_ascii (list_ascii_of_string s).

(** [Number.prototype.toString] on an integral number. *)
Definition numToString (z : Z) : jsstring := str (pretty z).

(** [a || b] on an optional string: [undefined] and the empty string are
    falsy. *)
Definition orElse (a : option jsstring) (b : jsstring) : jsstring :=
  match a with
  | Some (c :: s) => c :: s
  | _ => b
  end.

(** Truthiness of an optional string. *)
Definition truthy (a : option jsstring) : bool :=
  match a with
  | Some (_ :: _) => true
  | _ => false
  end.

Definition eqb (a b : jsstring) : bool := bool_decide (a = b).

(** [s.includes(c)] for a one-unit needle. *)
Definition includes (c : N) (s : jsstring) : bool :=
  existsb (N.eqb c) s.

(** [s.slice(0, n)] for a non-negative [n]. *)
Definition slice0 (n : nat) (s : jsstring) : jsstring := take n s.

(** [s.split(c)] for a one-unit separator. *)
Fixpoint split_go (c : N) (cur : jsstring) (s : jsstring) : list jsstring :=
  match s with
  | [] => [rev cur]
  | x :: s' =>
      if N.eqb x c then rev cur :: split_go c [] s'
      else split_go c (x :: cur) s'
  end.

Definition split (c : N) (s : jsstring) : list jsstring := split_go c [] s.

(** [s.startsWith(p)]. *)
Fixpoint startsWith (p s : jsstring) : bool :=
  match p, s with
  | [], _ => true
  | a :: p', b :: s' => N.eqb a b && startsWith p' s'
  | _ :: _, [] => false
  end.

(** What an expression of static type [string] can evaluate to in these
    sources: a string, or an object that a lookup found on
    [Object.prototype].  Of an object only the text it turns into when it
    is put into a string is kept. *)
Inductive Value :=
| VString (s : jsstring)
| VObject (text : jsstring).

(** The conversion to a string in a template literal and under [+=]. *)
Definition toText (v : Value) : jsstring :=
  match v with
  | VString s => s
  | VObject text => text
  end.

(** Truthiness of such a value: every object is truthy. *)
Definition truthyValue (v : Value) : bool :=
  match v with
  | VString [] => false
  | _ => true
  end.

(** What a call that throws has thrown: a [TypeError] of the engine (a
    call of something that is not a function) or an error of a system
    call, with its message. *)
Inductive Exception :=
| TypeError
| SystemError (message : jsstring).

(** How a call ends. *)
Inductive Completion (A : Type) :=
| Returns (a : A)
| Raises (e : Exception).
Arguments Returns {A} a.
Arguments Raises {A} e.

(** [Number(x)] of an integer [x] that is given as a big integer, as the
    64-bit fields of the provider's records are: the nearest double, a tie
    going to the even mantissa.  Below 2^53 that is [x] itself. *)
Definition toNumber (z : Z) : Z :=
  let a := Z.abs z in
  if a <? 2 ^ 53 then z
  else
    let e := Z.log2 a - 52 in
    let q := a / 2 ^ e in
    let r := a mod 2 ^ e in
    let up := (2 ^ (e - 1) <? r) || ((r =? 2 ^ (e - 1)) && Z.odd q) in
    Z.sgn z * ((if up then q + 1 else q) * 2 ^ e).

End JS.

Import JS.

(** ** The runtime *)

(** What the sources take from the JavaScript runtime and cannot be
    written over [Z]: floating-point formatting, [Date] formatting (the
    second one depends on the time zone of the process) and Unicode case
    mapping. *)
Class Runtime := {
  (** [helpers.formatFileSize]: [Math.log], [Math.pow], [toFixed]. *)
  formatFileSize : Q -> jsstring;
  (** [Date.prototype.toISOString] of a time stamp in milliseconds. *)
  toISOString : Z -> jsstring;
  (** [Date.prototype.toTimeString]. *)
  toTimeString : Z -> jsstring;
  (** [String.prototype.toLowerCase]. *)
  toLowerCase : jsstring -> jsstring;
  (** [Math.round((downloaded / total) * 100)] for a total that is not
      0. *)
  roundPercent : Z -> Z -> Z;
}.

(** ** types *)

Inductive MediaType :=
| PHOTO | VIDEO | DOCUMENT | AUDIO | VOICE | VIDEO_NOTE | ANIMATION
| STICKER | UNKNOWN.

Inductive DownloadStatus :=
| PENDING | DOWNLOADING | COMPLETED | FAILED | PAUSED | CANCELLED.

Inductive DownloadableType :=
| DOWNLOADABLE | RESTRICTED | EXPIRED | TOO_LARGE | UNSUPPORTED.

#[global] Instance MediaType_eq_dec : EqDecision MediaType.
Proof. solve_decision. Defined.
#[global] Instance DownloadStatus_eq_dec : EqDecision DownloadStatus.
Proof. solve_decision. Defined.
#[global] Instance DownloadableType_eq_dec : EqDecision DownloadableType.
Proof. solve_decision. Defined.

(** The string value of a [MediaType] member. *)
Definition mediaTypeName (t : MediaType) : jsstring :=
  match t with
  | PHOTO => str "photo"
  | VIDEO => str "video"
  | DOCUMENT => str "document"
  | AUDIO => str "audio"
  | VOICE => str "voice"
  | VIDEO_NOTE => str "video_note"
  | ANIMATION => str "animation"
  | STICKER => str "sticker"
  | UNKNOWN => str "unknown"
  end.

Record MediaInfo := {
  id : jsstring;
  messageId : Z;
  chatId : jsstring;
  chatTitle : jsstring;
  type : MediaType;
  mimeType : option jsstring;
  fileName : option jsstring;
  fileSize : Z;
  fileSizeFormatted : jsstring;
  downloadable : DownloadableType;
  downloadableReason : option jsstring;
  date : Z;
  caption : option jsstring;
  duration : option Z;
  width : option Z;
  height : option Z;
}.

Record DownloadConfig := {
  outputDir : jsstring;
  concurrentDownloads : Z;
  chunkSize : Z;
  maxRetries : Z;
  retryDelay : Z;
  resumeEnabled : bool;
  speedLimit : option Z;
  fileNameTemplate : jsstring;
  createSubfolders : bool;
  skipExisting : bool;
}.

Record FileNameVariables := {
  v_id : jsstring;
  v_chatTitle : jsstring;
  v_chatId : jsstring;
  v_date : jsstring;
  v_time : jsstring;
  v_type : jsstring;
  v_originalName : jsstring;
  v_extension : jsstring;
  v_caption : jsstring;
  v_messageId : jsstring;
}.

(** ** path (POSIX flavour of Node's [path] module) *)

Module Path.

Definition SLASH : N := 47%N.
Definition DOT : N := 46%N.

(** [s.slice(a, b)] for [0 <= a <= b]. *)
Definition sliceZ (a b : Z) (s : jsstring) : jsstring :=
  take (Z.to_nat (b - a)) (drop (Z.to_nat a) s).

(** The characters of [s] paired with their index, last one first: the
    order in which [extname] and [dirname] scan a path. *)
Definition backwards (s : jsstring) : list (Z * N) :=
  rev (zip (seqZ 0 (Z.of_nat (length s))) s).

Record ExtScan := {
  startDot : Z;
  startPart : Z;
  endPos : Z;
  matchedSlash : bool;
  preDotState : Z;
  stopped : bool;
}.

Definition extStep (st : ExtScan) (ic : Z * N) : ExtScan :=
  let '(i, code) := ic in
  if stopped st then st
  else if N.eqb code SLASH then
    if negb (matchedSlash st) then
      {| startDot := startDot st; startPart := i + 1; endPos := endPos st;
         matchedSlash := matchedSlash st; preDotState := preDotState st;
         stopped := true |}
    else st
  else
    let st1 :=
      if endPos st =? -1 then
        {| startDot := startDot st; startPart := startPart st;
           endPos := i + 1; matchedSlash := false;
           preDotState := preDotState st; stopped := false |}
      else st in
    if N.eqb code DOT then
      if startDot st1 =? -1 then
        {| startDot := i; startPart := startPart st1; endPos := endPos st1;
           matchedSlash := matchedSlash st1; preDotState := preDotState st1;
           stopped := false |}
      else if negb (preDotState st1 =? 1) then
        {| startDot := startDot st1; startPart := startPart st1;
           endPos := endPos st1; matchedSlash := matchedSlash st1;
           preDotState := 1; stopped := false |}
      else st1
    else if negb (startDot st1 =? -1) then
      {| startDot := startDot st1; startPart := startPart st1;
         endPos := endPos st1; matchedSlash := matchedSlash st1;
         preDotState := -1; stopped := false |}
    else st1.

(** [path.extname]. *)
Definition extname (p : jsstring) : jsstring :=
  let st := fold_left extStep (backwards p)
              {| startDot := -1; startPart := 0; endPos := -1;
                 matchedSlash := true; preDotState := 0; stopped := false |} in
  if (startDot st =? -1) || (endPos st =? -1) || (preDotState st =? 0)
     || ((preDotState st =? 1) && (startDot st =? endPos st - 1)
         && (startDot st =? startPart st + 1))
  then []
  else sliceZ (startDot st) (endPos st) p.

(** [normalizeString]: the segments of a path with empty and [.] segments
    dropped and [..] resolved against the segment before it. *)
Definition dotdot : jsstring := [DOT; DOT].

Definition pushSegment (allowAboveRoot : bool) (stack : list jsstring)
    (seg : jsstring) : list jsstring :=
  if JS.eqb seg [] || JS.eqb seg [DOT] then stack
  else if JS.eqb seg dotdot then
    match stack with
    | top :: rest =>
        if JS.eqb top dotdot then
          (if allowAboveRoot then dotdot :: stack else stack)
        else rest
    | [] => if allowAboveRoot then [dotdot] else []
    end
  else seg :: stack.

Fixpoint joinWith (sep : N) (l : list jsstring) : jsstring :=
  match l with
  | [] => []
  | [x] => x
  | x :: l' => x ++ sep :: joinWith sep l'
  end.

Definition normalizeString (p : jsstring) (allowAboveRoot : bool) : jsstring :=
  joinWith SLASH
    (rev (fold_left (pushSegment allowAboveRoot) (split SLASH p) [])).

(** [path.normalize]. *)
Definition normalize (p : jsstring) : jsstring :=
  match p with
  | [] => [DOT]
  | c :: _ =>
      let isAbsolute := N.eqb c SLASH in
      let trailingSeparator :=
        match last p with Some l => N.eqb l SLASH | None => false end in
      let q := normalizeString p (negb isAbsolute) in
      match q with
      | [] =>
          if isAbsolute then [SLASH]
          else if trailingSeparator then [DOT; SLASH] else [DOT]
      | _ =>
          let q1 := if trailingSeparator then q ++ [SLASH] else q in
          if isAbsolute then SLASH :: q1 else q1
      end
  end.

(** [path.join(a, b)]. *)
Definition join (a b : jsstring) : jsstring :=
  match a, b with
  | [], [] => [DOT]
  | [], _ => normalize b
  | _, [] => normalize a
  | _, _ => normalize (a ++ SLASH :: b)
  end.

Record DirScan := { dEnd : Z; dMatchedSlash : bool; dStopped : bool }.

Definition dirStep (st : DirScan) (ic : Z * N) : DirScan :=
  let '(i, code) := ic in
  if dStopped st || (i <? 1) then st
  else if N.eqb code SLASH then
    if negb (dMatchedSlash st) then
      {| dEnd := i; dMatchedSlash := dMatchedSlash st; dStopped := true |}
    else st
  else {| dEnd := dEnd st; dMatchedSlash := false; dStopped := false |}.

(** [path.dirname]. *)
Definition dirname (p : jsstring) : jsstring :=
  match p with
  | [] => [DOT]
  | c :: _ =>
      let hasRoot := N.eqb c SLASH in
      let st := fold_left dirStep (backwards p)
                  {| dEnd := -1; dMatchedSlash := true; dStopped := false |} in
      if dEnd st =? -1 then (if hasRoot then [SLASH] else [DOT])
      else if hasRoot && (dEnd st =? 1) then [SLASH; SLASH]
      else sliceZ 0 (dEnd st) p
  end.

End Path.


(** ** utils/helpers.ts *)

Module Helpers.

Definition UNDERSCORE : N := 95%N.

(** The first character class of [sanitizeFileName]: the control
    characters 0x00 to 0x1f, and < > : double quote / backslash | ? * *)
Definition illegalChar (c : N) : bool :=
  (c <=? 31)%N
  || existsb (N.eqb c) [60; 62; 58; 34; 47; 92; 124; 63; 42]%N.

(** The class [\s] of ECMAScript regular expressions. *)
Definition whiteSpace (c : N) : bool :=
  existsb (N.eqb c)
    [9; 10; 11; 12; 13; 32; 160; 5760; 8232; 8233; 8239; 8287; 12288;
     65279]%N
  || ((8192 <=? c)%N && (c <=? 8202)%N).

(** [s.replace(/[class]/g, '_')]. *)
Definition replaceClass (P : N -> bool) (s : jsstring) : jsstring :=
  List.map (fun c => if P c then UNDERSCORE else c) s.

(** [s.replace(/[class]+/g, '_')]: every maximal run becomes one ['_'];
    [inRun] tells that the character before belongs to the run. *)
Fixpoint replaceRuns (P : N -> bool) (inRun : bool) (s : jsstring)
  : jsstring :=
  match s with
  | [] => []
  | c :: s' =>
      if P c then
        (if inRun then replaceRuns P true s'
         else UNDERSCORE :: replaceRuns P true s')
      else c :: replaceRuns P false s'
  end.

Definition isUnderscore (c : N) : bool := N.eqb c UNDERSCORE.

(** The last character removed when it is ['_']. *)
Fixpoint dropTrailingUnderscore (s : jsstring) : jsstring :=
  match s with
  | [] => []
  | [c] => if isUnderscore c then [] else [c]
  | c :: s' => c :: dropTrailingUnderscore s'
  end.

(** [s.replace(/^_|_$/g, '')]: one match at index 0 and one at the last
    index. *)
Definition trimUnderscores (s : jsstring) : jsstring :=
  dropTrailingUnderscore
    (match s with
     | c :: s' => if isUnderscore c then s' else s
     | [] => []
     end).

Definition sanitizeFileName (name : jsstring) : jsstring :=
  slice0 200
    (trimUnderscores
       (replaceRuns isUnderscore false
          (replaceRuns whiteSpace false
             (replaceClass illegalChar name)))).

(** [GetSubstitution] for a pattern without capture groups: [$$], [$&],
    [$`] and [$'] are expanded, every other character is copied. *)
Fixpoint expandReplacement (repl matched before after : jsstring)
  : jsstring :=
  match repl with
  | [] => []
  | c :: r =>
      match r with
      | d :: r' =>
          if N.eqb c 36 then
            if N.eqb d 36 then 36%N :: expandReplacement r' matched before after
            else if N.eqb d 38 then
              matched ++ expandReplacement r' matched before after
            else if N.eqb d 96 then
              before ++ expandReplacement r' matched before after
            else if N.eqb d 39 then
              after ++ expandReplacement r' matched before after
            else c :: expandReplacement r matched before after
          else c :: expandReplacement r matched before after
      | [] => [c]
      end
  end.

(** [s.replace(/pat/g, repl)] for a literal, non-empty [pat]: [seen] is
    the text before the current position, last character first, and
    [skip] counts the characters of a match still to be passed. *)
Fixpoint replaceAll_go (pat repl : jsstring) (seen : jsstring) (skip : nat)
    (s : jsstring) : jsstring :=
  match s with
  | [] => []
  | c :: s' =>
      match skip with
      | S k => replaceAll_go pat repl (c :: seen) k s'
      | O =>
          if startsWith pat s then
            expandReplacement repl pat (rev seen) (drop (length pat) s)
              ++ replaceAll_go pat repl (c :: seen) (length pat - 1) s'
          else c :: replaceAll_go pat repl (c :: seen) 0 s'
      end
  end.

Definition replaceAll (pat repl s : jsstring) : jsstring :=
  replaceAll_go pat repl [] 0 s.

(** [s.replace(c, '')] with a string pattern: the first occurrence only. *)
Fixpoint removeFirst (c : N) (s : jsstring) : jsstring :=
  match s with
  | [] => []
  | x :: s' => if N.eqb x c then s' else x :: removeFirst c s'
  end.

Definition generateFileName (template : jsstring) (vars : FileNameVariables)
  : jsstring :=
  let result := template in
  let result := replaceAll (str "{id}") (v_id vars) result in
  let result := replaceAll (str "{chatTitle}")
                  (sanitizeFileName (v_chatTitle vars)) result in
  let result := replaceAll (str "{chatId}") (v_chatId vars) result in
  let result := replaceAll (str "{date}") (v_date vars) result in
  let result := replaceAll (str "{time}") (v_time vars) result in
  let result := replaceAll (str "{type}") (v_type vars) result in
  let result := replaceAll (str "{originalName}")
                  (sanitizeFileName (v_originalName vars)) result in
  let result := replaceAll (str "{extension}") (v_extension vars) result in
  let result := replaceAll (str "{caption}")
                  (sanitizeFileName (slice0 30 (v_caption vars))) result in
  let result := replaceAll (str "{messageId}") (v_messageId vars) result in
  sanitizeFileName result.

(** The table [mimeToExt] of [getExtension], on its own keys. *)
Definition mimeToExt : list (jsstring * jsstring) :=
  [ (str "image/jpeg", str ".jpg");
    (str "image/png", str ".png");
    (str "image/gif", str ".gif");
    (str "image/webp", str ".webp");
    (str "video/mp4", str ".mp4");
    (str "video/quicktime", str ".mov");
    (str "video/x-matroska", str ".mkv");
    (str "video/webm", str ".webm");
    (str "audio/mpeg", str ".mp3");
    (str "audio/ogg", str ".ogg");
    (str "audio/wav", str ".wav");
    (str "audio/flac", str ".flac");
    (str "application/pdf", str ".pdf");
    (str "application/zip", str ".zip");
    (str "application/x-rar-compressed", str ".rar");
    (str "application/x-7z-compressed", str ".7z");
    (str "text/plain", str ".txt") ].

Fixpoint assoc (k : jsstring) (l : list (jsstring * jsstring))
  : option jsstring :=
  match l with
  | [] => None
  | (k', v) :: l' => if JS.eqb k k' then Some v else assoc k l'
  end.

(** The text of a built-in function as V8 prints it. *)
Definition nativeFunction (name : string) : jsstring :=
  str "function " ++ str name ++ str "() { [native code] }".

(** [mimeToExt] is an object literal, so a key it does not have is
    looked up on [Object.prototype]: these are the members found there,
    each with its text.  All but one are functions; [__proto__] gives the
    prototype object itself. *)
Definition objectPrototype : list (jsstring * jsstring) :=
  [ (str "constructor", nativeFunction "Object");
    (str "__defineGetter__", nativeFunction "__defineGetter__");
    (str "__defineSetter__", nativeFunction "__defineSetter__");
    (str "hasOwnProperty", nativeFunction "hasOwnProperty");
    (str "__lookupGetter__", nativeFunction "__lookupGetter__");
    (str "__lookupSetter__", nativeFunction "__lookupSetter__");
    (str "isPrototypeOf", nativeFunction "isPrototypeOf");
    (str "propertyIsEnumerable", nativeFunction "propertyIsEnumerable");
    (str "toString", nativeFunction "toString");
    (str "valueOf", nativeFunction "valueOf");
    (str "__proto__", str "[object Object]");
    (str "toLocaleString", nativeFunction "toLocaleString") ].

(** [mimeToExt[mimeType]]; [None] is [undefined]. *)
Definition mimeLookup (mimeType : jsstring) : option Value :=
  match assoc mimeType mimeToExt with
  | Some e => Some (VString e)
  | None =>
      match assoc mimeType objectPrototype with
      | Some text => Some (VObject text)
      | None => None
      end
  end.

Section WithRuntime.
Context `{Runtime}.

Definition formatSpeed (bytesPerSecond : Q) : jsstring :=
  formatFileSize bytesPerSecond ++ str "/s".

Definition formatDate (d : Z) : jsstring :=
  match split 84 (toISOString d) with
  | x :: _ => x
  | [] => []
  end.

Definition formatTime (d : Z) : jsstring :=
  match split 32 (toTimeString d) with
  | x :: _ => List.map (fun c => if N.eqb c 58 then 45%N else c) x
  | [] => []
  end.

(** [getExtension]: its result is declared a string, but what the
    lookup finds is returned as it is. *)
Definition getExtension (fileName : jsstring) (mimeType : option jsstring)
  : Value :=
  let extFromName := toLowerCase (Path.extname fileName) in
  match extFromName with
  | _ :: _ => VString extFromName
  | [] =>
      match mimeType with
      | Some (c :: m) =>
          match mimeLookup (c :: m) with
          | Some v => if truthyValue v then v else VString []
          | None => VString []
          end
      | _ => VString []
      end
  end.

End WithRuntime.

Definition getMediaTypeFolder (t : MediaType) : jsstring :=
  match t with
  | PHOTO => str "photos"
  | VIDEO => str "videos"
  | DOCUMENT => str "documents"
  | AUDIO => str "audio"
  | VOICE => str "voice"
  | VIDEO_NOTE => str "video_notes"
  | ANIMATION => str "animations"
  | STICKER => str "stickers"
  | UNKNOWN => str "other"
  end.

End Helpers.


(** ** core/aggregator.ts *)

Module Aggregator.

(** The size ceiling, 2 GiB. *)
Definition MAX_FILE_SIZE : Z := 2 * 1024 * 1024 * 1024.

(** The shapes of the provider's records that [extractMediaInfo]
    distinguishes with [instanceof]. *)
Inductive TypePhotoSize :=
| PhotoSize (size w h : Z)
| PhotoSizeOther.

Inductive TypePhoto :=
| Photo (sizes : list TypePhotoSize)
| PhotoOther.

Inductive DocumentAttribute :=
| DocumentAttributeFilename (fileName : jsstring)
| DocumentAttributeVideo (roundMessage : bool) (duration w h : Z)
| DocumentAttributeAudio (voice : bool) (duration : Z)
| DocumentAttributeAnimated
| DocumentAttributeSticker
| DocumentAttributeOther.

(** The size of a document is a 64-bit integer, held as a big
    integer. *)
Inductive TypeDocument :=
| Document (size : Z) (mimeType : jsstring)
    (attributes : list DocumentAttribute)
| DocumentOther.

Inductive MessageMedia :=
| MessageMediaPhoto (photo : TypePhoto)
| MessageMediaDocument (document : TypeDocument)
| MessageMediaOther.

Record Message := {
  m_id : Z;
  m_date : Z;
  m_message : jsstring;
  m_media : option MessageMedia;
}.

(** The local variables of [extractMediaInfo]. *)
Record Locals := {
  l_type : MediaType;
  l_mimeType : option jsstring;
  l_fileName : option jsstring;
  l_fileSize : Z;
  l_duration : option Z;
  l_width : option Z;
  l_height : option Z;
}.

Definition initial : Locals :=
  {| l_type := UNKNOWN; l_mimeType := None; l_fileName := None;
     l_fileSize := 0; l_duration := None; l_width := None;
     l_height := None |}.

(** One turn of the loop over [doc.attributes]. *)
Definition attributeStep (l : Locals) (attr : DocumentAttribute) : Locals :=
  match attr with
  | DocumentAttributeFilename f =>
      {| l_type := l_type l; l_mimeType := l_mimeType l;
         l_fileName := Some f; l_fileSize := l_fileSize l;
         l_duration := l_duration l; l_width := l_width l;
         l_height := l_height l |}
  | DocumentAttributeVideo round d w h =>
      {| l_type := if round then VIDEO_NOTE else VIDEO;
         l_mimeType := l_mimeType l; l_fileName := l_fileName l;
         l_fileSize := l_fileSize l; l_duration := Some d;
         l_width := Some w; l_height := Some h |}
  | DocumentAttributeAudio voice d =>
      {| l_type := if voice then VOICE else AUDIO;
         l_mimeType := l_mimeType l; l_fileName := l_fileName l;
         l_fileSize := l_fileSize l; l_duration := Some d;
         l_width := l_width l; l_height := l_height l |}
  | DocumentAttributeAnimated =>
      {| l_type := ANIMATION; l_mimeType := l_mimeType l;
         l_fileName := l_fileName l; l_fileSize := l_fileSize l;
         l_duration := l_duration l; l_width := l_width l;
         l_height := l_height l |}
  | DocumentAttributeSticker =>
      {| l_type := STICKER; l_mimeType := l_mimeType l;
         l_fileName := l_fileName l; l_fileSize := l_fileSize l;
         l_duration := l_duration l; l_width := l_width l;
         l_height := l_height l |}
  | DocumentAttributeOther => l
  end.

(** "文件大小超过2GB限制 (" *)
Definition tooLargePrefix : jsstring :=
  [25991; 20214; 22823; 23567; 36229; 36807]%N ++ str "2GB"
    ++ [38480; 21046]%N ++ str " (".

Section WithRuntime.
Context `{Runtime}.

(** The branch on the media kind; [None] is the early [return null]. *)
Definition inspectMedia (message : Message) (media : MessageMedia)
  : option Locals :=
  match media with
  | MessageMediaPhoto photo =>
      let l :=
        match photo with
        | Photo sizes =>
            match last sizes with
            | Some (PhotoSize size w h) =>
                {| l_type := PHOTO; l_mimeType := None;
                   l_fileName := None; l_fileSize := size;
                   l_duration := None; l_width := Some w;
                   l_height := Some h |}
            | _ =>
                {| l_type := PHOTO; l_mimeType := None;
                   l_fileName := None; l_fileSize := 0;
                   l_duration := None; l_width := None;
                   l_height := None |}
            end
        | PhotoOther =>
            {| l_type := PHOTO; l_mimeType := None; l_fileName := None;
               l_fileSize := 0; l_duration := None; l_width := None;
               l_height := None |}
        end in
      Some {| l_type := l_type l;
              l_mimeType := Some (str "image/jpeg");
              l_fileName :=
                Some (str "photo_" ++ numToString (m_id message)
                      ++ str ".jpg");
              l_fileSize := l_fileSize l; l_duration := l_duration l;
              l_width := l_width l; l_height := l_height l |}
  | MessageMediaDocument doc =>
      match doc with
      | Document size mime attributes =>
          let l0 :=
            {| l_type := UNKNOWN; l_mimeType := Some mime;
               l_fileName := None; l_fileSize := toNumber size;
               l_duration := None; l_width := None;
               l_height := None |} in
          let l1 := fold_left attributeStep attributes l0 in
          let ty :=
            if decide (l_type l1 = UNKNOWN) then DOCUMENT
            else l_type l1 in
          let name :=
            if truthy (l_fileName l1) then l_fileName l1
            else Some (str "file_" ++ numToString (m_id message)
                       ++ toText (Helpers.getExtension [] (Some mime))) in
          Some {| l_type := ty; l_mimeType := l_mimeType l1;
                  l_fileName := name; l_fileSize := l_fileSize l1;
                  l_duration := l_duration l1; l_width := l_width l1;
                  l_height := l_height l1 |}
      | DocumentOther => Some initial
      end
  | MessageMediaOther => None
  end.

(** [extractMediaInfo]; [newId] is what [generateId()] returns. *)
Definition extractMediaInfo (newId : jsstring) (message : Message)
    (chatId chatTitle : jsstring) : option MediaInfo :=
  match m_media message with
  | None => None
  | Some media =>
      match inspectMedia message media with
      | None => None
      | Some l =>
          let tooLarge := MAX_FILE_SIZE <? l_fileSize l in
          Some {| id := newId;
                  messageId := m_id message;
                  chatId := chatId;
                  chatTitle := chatTitle;
                  type := l_type l;
                  mimeType := l_mimeType l;
                  fileName := l_fileName l;
                  fileSize := l_fileSize l;
                  fileSizeFormatted := formatFileSize (inject_Z (l_fileSize l));
                  downloadable :=
                    if tooLarge then TOO_LARGE else DOWNLOADABLE;
                  downloadableReason :=
                    if tooLarge then
                      Some (tooLargePrefix
                            ++ formatFileSize (inject_Z (l_fileSize l))
                            ++ str ")")
                    else None;
                  date := m_date message * 1000;
                  caption :=
                    match m_message message with
                    | [] => None
                    | c => Some c
                    end;
                  duration := l_duration l;
                  width := l_width l;
                  height := l_height l |}
      end
  end.

End WithRuntime.

End Aggregator.

(** ** utils/config.ts *)

Module Config.

Record TelegramConfig := {
  apiId : Z;
  apiHash : jsstring;
}.

Record AppConfig := {
  telegram : TelegramConfig;
  download : DownloadConfig;
}.

(** [Partial<DownloadConfig>]: every field may be left out. *)
Record PartialDownloadConfig := {
  p_outputDir : option jsstring;
  p_concurrentDownloads : option Z;
  p_chunkSize : option Z;
  p_maxRetries : option Z;
  p_retryDelay : option Z;
  p_resumeEnabled : option bool;
  p_speedLimit : option (option Z);
  p_fileNameTemplate : option jsstring;
  p_createSubfolders : option bool;
  p_skipExisting : option bool;
}.

Definition noUpdates : PartialDownloadConfig :=
  {| p_outputDir := None; p_concurrentDownloads := None;
     p_chunkSize := None; p_maxRetries := None; p_retryDelay := None;
     p_resumeEnabled := None; p_speedLimit := None;
     p_fileNameTemplate := None; p_createSubfolders := None;
     p_skipExisting := None |}.

(** The object spread [{ ...current, ...updates }]. *)
Definition spread (current : DownloadConfig)
    (updates : PartialDownloadConfig) : DownloadConfig :=
  {| outputDir := default (outputDir current) (p_outputDir updates);
     concurrentDownloads :=
       default (concurrentDownloads current) (p_concurrentDownloads updates);
     chunkSize := default (chunkSize current) (p_chunkSize updates);
     maxRetries := default (maxRetries current) (p_maxRetries updates);
     retryDelay := default (retryDelay current) (p_retryDelay updates);
     resumeEnabled :=
       default (resumeEnabled current) (p_resumeEnabled updates);
     speedLimit := default (speedLimit current) (p_speedLimit updates);
     fileNameTemplate :=
       default (fileNameTemplate current) (p_fileNameTemplate updates);
     createSubfolders :=
       default (createSubfolders current) (p_createSubfolders updates);
     skipExisting := default (skipExisting current) (p_skipExisting updates)
  |}.

(** The configuration file: [None] when it is missing or does not
    parse. *)
Definition Store := option AppConfig.

Section WithHome.
(** [os.homedir()]. *)
Variable homedir : jsstring.

Definition DEFAULT_DOWNLOAD_CONFIG : DownloadConfig :=
  {| outputDir := Path.join homedir (str "TG-Downloads");
     concurrentDownloads := 3;
     chunkSize := 512 * 1024;
     maxRetries := 3;
     retryDelay := 2000;
     resumeEnabled := true;
     speedLimit := None;
     fileNameTemplate := str "{chatTitle}_{date}_{id}.{extension}";
     createSubfolders := true;
     skipExisting := true |}.

Definition loadConfig (store : Store) : option AppConfig := store.

Definition getDownloadConfig (store : Store) : DownloadConfig :=
  match loadConfig store with
  | Some config => download config
  | None => DEFAULT_DOWNLOAD_CONFIG
  end.

Definition saveDownloadConfig (downloadConfig : DownloadConfig)
    (store : Store) : Store :=
  match loadConfig store with
  | Some config =>
      Some {| telegram := telegram config; download := downloadConfig |}
  | None =>
      Some {| telegram := {| apiId := 0; apiHash := [] |};
              download := downloadConfig |}
  end.

Definition updateDownloadConfig (updates : PartialDownloadConfig)
    (store : Store) : Store :=
  let current := getDownloadConfig store in
  saveDownloadConfig (spread current updates) store.

End WithHome.

(** The [validate] function of the prompt for [concurrentDownloads] in
    [configureDownload]: [true] accepts the answer. *)
Definition validateConcurrentDownloads (input : Z) : bool :=
  (1 <=? input) && (input <=? 10).

End Config.

(** ** core/downloader.ts *)

Module Downloader.

(** [DownloadTask]; its field [id] is [taskId] here, the name [id] being
    the one of [MediaInfo].  The engine below passes the task it mutates
    along as a value; the registry [downloadTasks] holds the tasks as
    they are when they are put in it. *)
Record DownloadTask := {
  taskId : jsstring;
  media : MediaInfo;
  status : DownloadStatus;
  progress : Z;
  downloadedBytes : Z;
  speed : Q;
  speedFormatted : jsstring;
  eta : option Q;
  outputPath : jsstring;
  customFileName : option jsstring;
  error : option jsstring;
  retryCount : Z;
  startTime : option Z;
  endTime : option Z;
}.

(** Assignments to the fields of a task. *)
Definition setStatus (s : DownloadStatus) (t : DownloadTask) :=
  {| taskId := taskId t; media := media t; status := s;
     progress := progress t; downloadedBytes := downloadedBytes t;
     speed := speed t; speedFormatted := speedFormatted t; eta := eta t;
     outputPath := outputPath t; customFileName := customFileName t;
     error := error t; retryCount := retryCount t;
     startTime := startTime t; endTime := endTime t |}.

Definition setProgress (p d : Z) (t : DownloadTask) :=
  {| taskId := taskId t; media := media t; status := status t;
     progress := p; downloadedBytes := d;
     speed := speed t; speedFormatted := speedFormatted t; eta := eta t;
     outputPath := outputPath t; customFileName := customFileName t;
     error := error t; retryCount := retryCount t;
     startTime := startTime t; endTime := endTime t |}.

Definition setSpeed (v : Q) (f : jsstring) (e : option Q)
    (t : DownloadTask) :=
  {| taskId := taskId t; media := media t; status := status t;
     progress := progress t; downloadedBytes := downloadedBytes t;
     speed := v; speedFormatted := f; eta := e;
     outputPath := outputPath t; customFileName := customFileName t;
     error := error t; retryCount := retryCount t;
     startTime := startTime t; endTime := endTime t |}.

Definition setError (e : jsstring) (t : DownloadTask) :=
  {| taskId := taskId t; media := media t; status := status t;
     progress := progress t; downloadedBytes := downloadedBytes t;
     speed := speed t; speedFormatted := speedFormatted t; eta := eta t;
     outputPath := outputPath t; customFileName := customFileName t;
     error := Some e; retryCount := retryCount t;
     startTime := startTime t; endTime := endTime t |}.

Definition setRetryCount (n : Z) (t : DownloadTask) :=
  {| taskId := taskId t; media := media t; status := status t;
     progress := progress t; downloadedBytes := downloadedBytes t;
     speed := speed t; speedFormatted := speedFormatted t; eta := eta t;
     outputPath := outputPath t; customFileName := customFileName t;
     error := error t; retryCount := n;
     startTime := startTime t; endTime := endTime t |}.

Definition setStartTime (now : Z) (t : DownloadTask) :=
  {| taskId := taskId t; media := media t; status := status t;
     progress := progress t; downloadedBytes := downloadedBytes t;
     speed := speed t; speedFormatted := speedFormatted t; eta := eta t;
     outputPath := outputPath t; customFileName := customFileName t;
     error := error t; retryCount := retryCount t;
     startTime := Some now; endTime := endTime t |}.

Definition setEndTime (now : Z) (t : DownloadTask) :=
  {| taskId := taskId t; media := media t; status := status t;
     progress := progress t; downloadedBytes := downloadedBytes t;
     speed := speed t; speedFormatted := speedFormatted t; eta := eta t;
     outputPath := outputPath t; customFileName := customFileName t;
     error := error t; retryCount := retryCount t;
     startTime := startTime t; endTime := Some now |}.

(** The resume marker. *)
Record DownloadState := {
  s_mediaId : jsstring;
  s_messageId : Z;
  s_chatId : jsstring;
  s_outputPath : jsstring;
  s_totalSize : Z;
  s_downloadedBytes : Z;
  s_chunks : list (Z * Z * bool);
}.

(** What a path of the file system holds.  A path is a key: it is not
    resolved any further, so the states meant are those whose keys are
    normalized paths, as [path.join] returns them.  The root and the
    working directory are always there and are not keys of [files]. *)
Inductive Content :=
| FileBytes (bytes : list N)
| FileState (state : DownloadState)
| Directory.

(** The module state of the downloader together with the file system. *)
Record World := {
  files : gmap jsstring Content;
  downloadTasks : gmap jsstring DownloadTask;
  pausedTasks : gset jsstring;
  cancelledTasks : gset jsstring;
}.

Definition setFiles (f : gmap jsstring Content) (w : World) : World :=
  {| files := f; downloadTasks := downloadTasks w;
     pausedTasks := pausedTasks w; cancelledTasks := cancelledTasks w |}.

Definition setDownloadTasks (r : gmap jsstring DownloadTask) (w : World)
  : World :=
  {| files := files w; downloadTasks := r;
     pausedTasks := pausedTasks w; cancelledTasks := cancelledTasks w |}.

Definition DOWNLOAD_STATE_SUFFIX : jsstring := str ".dlstate".

(** *** The calls of [fs]

    A call of [fs] fails when the state of the file system makes it
    fail: a directory where a file is written or unlinked, something
    that is not a directory on the way to a path.  The file system
    refuses nothing for a reason that is not in its state (permissions,
    a full disk).  A call that fails changes nothing. *)

(** How a call of [fs] ends; [Throw] carries the message of the error. *)
Inductive Result (A : Type) :=
| Ok (a : A)
| Throw (message : jsstring).
Arguments Ok {A} a.
Arguments Throw {A} message.

Inductive Code := EISDIR | ENOENT | ENOTDIR | EEXIST.

Definition describe (c : Code) : jsstring :=
  match c with
  | EISDIR => str "EISDIR: illegal operation on a directory"
  | ENOENT => str "ENOENT: no such file or directory"
  | ENOTDIR => str "ENOTDIR: not a directory"
  | EEXIST => str "EEXIST: file already exists"
  end.

(** The message of a system error: the code, what it means, the system
    call and the path. *)
Definition errorMessage (c : Code) (syscall : string) (p : jsstring)
  : jsstring :=
  describe c ++ str ", " ++ str syscall ++ str " '" ++ p ++ str "'".

(** The two directories that are always there. *)
Definition isRoot (p : jsstring) : bool :=
  JS.eqb p [Path.SLASH] || JS.eqb p [Path.DOT].

Definition holds (p : jsstring) (w : World) : option Content :=
  if isRoot p then Some Directory else files w !! p.

Definition existsSync (p : jsstring) (w : World) : bool :=
  match holds p w with
  | Some _ => true
  | None => false
  end.

Definition fileExists := existsSync.

(** [fs.writeFileSync]: the path is opened for writing, which needs the
    directory it lies in and refuses a directory. *)
Definition writeFileSync (p : jsstring) (c : Content) (w : World)
  : Result World :=
  match holds (Path.dirname p) w with
  | Some Directory =>
      match holds p w with
      | Some Directory => Throw (errorMessage EISDIR "open" p)
      | _ => Ok (setFiles (<[p := c]> (files w)) w)
      end
  | Some _ => Throw (errorMessage ENOTDIR "open" p)
  | None => Throw (errorMessage ENOENT "open" p)
  end.

(** [fs.unlinkSync]: it removes a file, not a directory. *)
Definition unlinkSync (p : jsstring) (w : World) : Result World :=
  match holds p w with
  | Some Directory => Throw (errorMessage EISDIR "unlink" p)
  | Some _ => Ok (setFiles (delete p (files w)) w)
  | None => Throw (errorMessage ENOENT "unlink" p)
  end.

(** A path and the directories above it, the nearest first, up to the
    root, which is left out. *)
Fixpoint lineage_go (fuel : nat) (p : jsstring) : list jsstring :=
  match fuel with
  | O => []
  | S fuel' =>
      if isRoot p then [] else p :: lineage_go fuel' (Path.dirname p)
  end.

(** Every step up but the last one shortens the path, so its length and
    one more are steps enough. *)
Definition lineage (p : jsstring) : list jsstring :=
  lineage_go (S (length p)) p.

(** The path holds something that is not a directory. *)
Definition blocked (w : World) (q : jsstring) : bool :=
  match holds q w with
  | Some Directory | None => false
  | Some _ => true
  end.

(** [fs.mkdirSync(p, { recursive: true })]: it makes the directory and
    every directory above it that is missing, and fails when one of them
    is there and is not a directory. *)
Definition mkdirSync (p : jsstring) (w : World) : Result World :=
  match p with
  | [] => Throw (errorMessage ENOENT "mkdir" p)
  | _ =>
      if blocked w p then Throw (errorMessage EEXIST "mkdir" p)
      else if existsb (blocked w) (lineage p) then
        Throw (errorMessage ENOTDIR "mkdir" p)
      else
        Ok (setFiles
              (foldr (fun q m => <[q := Directory]> m) (files w) (lineage p))
              w)
  end.

(** [helpers.ensureDir]. *)
Definition ensureDir (dirPath : jsstring) (w : World) : Result World :=
  if existsSync dirPath w then Ok w else mkdirSync dirPath w.

Definition saveDownloadState (state : DownloadState) (w : World)
  : Result World :=
  let statePath := s_outputPath state ++ DOWNLOAD_STATE_SUFFIX in
  writeFileSync statePath (FileState state) w.

(** [loadDownloadState]: an error of the read or of the parse is caught
    and gives [null]. *)
Definition loadDownloadState (outputPath : jsstring) (w : World)
  : option DownloadState :=
  let statePath := outputPath ++ DOWNLOAD_STATE_SUFFIX in
  match holds statePath w with
  | Some (FileState state) => Some state
  | _ => None
  end.

(** [removeDownloadState]: an error of the unlink is caught and
    ignored. *)
Definition removeDownloadState (outputPath : jsstring) (w : World) : World :=
  let statePath := outputPath ++ DOWNLOAD_STATE_SUFFIX in
  if existsSync statePath w then
    match unlinkSync statePath w with
    | Ok w1 => w1
    | Throw _ => w
    end
  else w.

Definition pauseDownload (taskId : jsstring) (w : World) : World :=
  {| files := files w; downloadTasks := downloadTasks w;
     pausedTasks := {[ taskId ]} ∪ pausedTasks w;
     cancelledTasks := cancelledTasks w |}.

Definition cancelDownload (taskId : jsstring) (w : World) : World :=
  {| files := files w; downloadTasks := downloadTasks w;
     pausedTasks := pausedTasks w;
     cancelledTasks := {[ taskId ]} ∪ cancelledTasks w |}.

Definition getTask (taskId : jsstring) (w : World) : option DownloadTask :=
  downloadTasks w !! taskId.

(** One turn of the loop of [clearCompletedTasks]. *)
Definition clearStep (id : jsstring) (task : DownloadTask)
    (tasks : gmap jsstring DownloadTask) : gmap jsstring DownloadTask :=
  if bool_decide (status task = COMPLETED)
     || bool_decide (status task = CANCELLED)
  then delete id tasks
  else tasks.

(** [clearCompletedTasks]: the loop visits the entries of the registry
    and deletes from the registry itself. *)
Definition clearCompletedTasks (w : World) : World :=
  setDownloadTasks
    (map_fold clearStep (downloadTasks w) (downloadTasks w)) w.

Section WithRuntime.
Context `{Runtime}.

(** The variable [extension] of the template: [.replace] is called on
    what [getExtension] returned, and is a function of a string only. *)
Definition extensionVariable (ext : Value) : Completion jsstring :=
  match ext with
  | VString e => Returns (Helpers.removeFirst Path.DOT e)
  | VObject _ => Raises TypeError
  end.

(** The file name chosen by [generateOutputPath], before the
    directory is joined to it. *)
Definition outputFileName (media : MediaInfo) (config : DownloadConfig)
    (customFileName : option jsstring) : Completion jsstring :=
  match customFileName with
  | Some (c :: n) =>
      let customFileName := c :: n in
      let ext :=
        Helpers.getExtension (orElse (fileName media) []) (mimeType media)
      in
      Returns (if includes Path.DOT customFileName then customFileName
               else customFileName ++ toText ext)
  | _ =>
      match
        extensionVariable
          (Helpers.getExtension (orElse (fileName media) [])
             (mimeType media))
      with
      | Raises e => Raises e
      | Returns extension =>
          let vars :=
            {| v_id := id media;
               v_chatTitle := chatTitle media;
               v_chatId := chatId media;
               v_date := Helpers.formatDate (date media);
               v_time := Helpers.formatTime (date media);
               v_type := mediaTypeName (type media);
               v_originalName :=
                 orElse (fileName media)
                   (str "file_" ++ numToString (messageId media));
               v_extension := extension;
               v_caption := orElse (caption media) [];
               v_messageId := numToString (messageId media) |} in
          let fileName0 :=
            Helpers.generateFileName (fileNameTemplate config) vars in
          Returns
            match Path.extname fileName0 with
            | [] =>
                fileName0
                  ++ toText
                       (Helpers.getExtension (orElse (fileName media) [])
                          (mimeType media))
            | _ => fileName0
            end
      end
  end.

(** The directory chosen by [generateOutputPath]. *)
Definition outputDirectory (media : MediaInfo) (config : DownloadConfig)
  : jsstring :=
  if createSubfolders config then
    Path.join (outputDir config) (Helpers.getMediaTypeFolder (type media))
  else outputDir config.

(** [generateOutputPath]: the path it returns or what it throws, and the
    world it leaves. *)
Definition generateOutputPath (media : MediaInfo)
    (config : DownloadConfig) (customFileName : option jsstring)
    (w : World) : Completion jsstring * World :=
  match outputFileName media config customFileName with
  | Raises e => (Raises e, w)
  | Returns fileName =>
      let outputDir := outputDirectory media config in
      match ensureDir outputDir w with
      | Throw message => (Raises (SystemError message), w)
      | Ok w1 => (Returns (Path.join outputDir fileName), w1)
      end
  end.

(** [createDownloadTask] on the already merged configuration;
    [newId] is what [generateId()] returns. *)
Definition createDownloadTask (newId : jsstring) (media : MediaInfo)
    (downloadConfig : DownloadConfig) (customFileName : option jsstring)
    (w : World) : Completion DownloadTask * World :=
  match generateOutputPath media downloadConfig customFileName w with
  | (Raises e, w1) => (Raises e, w1)
  | (Returns outputPath, w1) =>
      let task :=
        {| taskId := newId; media := media; status := PENDING;
           progress := 0; downloadedBytes := 0; speed := 0%Q;
           speedFormatted := str "0 B/s"; eta := None;
           outputPath := outputPath; customFileName := customFileName;
           error := None; retryCount := 0; startTime := None;
           endTime := None |} in
      (Returns task, setDownloadTasks (<[newId := task]> (downloadTasks w1)) w1)
  end.

End WithRuntime.

(** *** The execution engine *)

(** [Partial<DownloadEvents>]: which handlers the caller registered. *)
Record DownloadEvents := {
  onStart : bool;
  onProgress : bool;
  onComplete : bool;
  onError : bool;
  onPause : bool;
  onResume : bool;
}.

(** What an execution does that is visible from outside: the handler
    calls with the task as it is at the call, the waits between retries
    and the calls to the client. *)
Inductive Event :=
| CallOnStart (t : DownloadTask)
| CallOnProgress (t : DownloadTask)
| CallOnComplete (t : DownloadTask)
| CallOnError (t : DownloadTask) (message : jsstring)
| CallOnPause (t : DownloadTask)
| CallOnResume (t : DownloadTask)
| Delay (ms : Z)
| GetEntity (chat : jsstring)
| GetMessages (msgId : Z)
| DownloadMedia (msgId : Z).

(** What happens while [client.downloadMedia] is awaited: the provider
    reports progress (with the value [Date.now()] has inside the
    callback), or some other code calls [pauseDownload] or
    [cancelDownload].  An error thrown by the callback ends the transfer
    and is the error [downloadMedia] rejects with, as the [catch] block of
    [executeDownload] expects. *)
Inductive ProviderStep :=
| Progress (downloaded total now : Z)
| PauseRequest (target : jsstring)
| CancelRequest (target : jsstring).

(** How [client.downloadMedia] ends when the callback did not throw. *)
Inductive TransferEnd :=
| Buffer (bytes : list N)
| NoBuffer
| TransferError (message : jsstring).

(** What the client does in one pass through the [try] block. *)
Inductive Fetch :=
| GetEntityFails (message : jsstring)
| GetMessagesFails (message : jsstring)
| NoMessages
| NoMediaMessage
| Transfer (now : Z) (steps : list ProviderStep) (fin : TransferEnd).

(** One attempt: the clock at [task.startTime = new Date()], the client's
    behaviour and the clock at [task.endTime = new Date()]. *)
Record Attempt := {
  clockStart : Z;
  fetch : Fetch;
  clockEnd : Z;
}.

(** The state after a piece of code, and the message of the error it
    threw, if it threw. *)
Record Outcome := {
  thrown : option jsstring;
  task : DownloadTask;
  world : World;
  trace : list Event;
}.

Definition MSG_PAUSED : jsstring := str "PAUSED".
Definition MSG_CANCELLED : jsstring := str "CANCELLED".
(** "Telegram客户端未连接" *)
Definition MSG_NO_CLIENT : jsstring :=
  str "Telegram" ++ [23458; 25143; 31471; 26410; 36830; 25509]%N.
(** "文件不可下载" *)
Definition MSG_NOT_DOWNLOADABLE : jsstring :=
  [25991; 20214; 19981; 21487; 19979; 36733]%N.
(** "消息不存在或已被删除" *)
Definition MSG_NO_MESSAGE : jsstring :=
  [28040; 24687; 19981; 23384; 22312; 25110; 24050; 34987; 21024; 38500]%N.
(** "消息不包含媒体内容" *)
Definition MSG_NO_MEDIA : jsstring :=
  [28040; 24687; 19981; 21253; 21547; 23186; 20307; 20869; 23481]%N.
(** "下载返回空数据" *)
Definition MSG_EMPTY : jsstring :=
  [19979; 36733; 36820; 22238; 31354; 25968; 25454]%N.

Definition emit (registered : bool) (e : Event) : list Event :=
  if registered then [e] else [].

Section Engine.
Context `{Runtime}.

(** The client of [getClient()]: [false] when none is connected. *)
Variable connected : bool.
Variable config : DownloadConfig.
Variable events : DownloadEvents.

(** The closure variables [lastProgressTime] and
    [lastDownloadedBytes]. *)
Record Closure := {
  lastProgressTime : Z;
  lastDownloadedBytes : Z;
}.

(** The body of [progressCallback] once neither flag is set. *)
Definition updateProgress (t : DownloadTask) (c : Closure)
    (downloaded total now : Z) : DownloadTask * Closure :=
  let t1 := setProgress (roundPercent downloaded total) downloaded t in
  if 500 <? now - lastProgressTime c then
    let bytesDiff := downloadedBytes t1 - lastDownloadedBytes c in
    let v := Qmake (bytesDiff * 1000) (Z.to_pos (now - lastProgressTime c)) in
    let remainingBytes := total - downloadedBytes t1 in
    let e :=
      if 0 <? Qnum v then Some (Qdiv (inject_Z remainingBytes) v)
      else eta t1 in
    (setSpeed v (Helpers.formatSpeed v) e t1,
     {| lastProgressTime := now;
        lastDownloadedBytes := downloadedBytes t1 |})
  else (t1, c).

(** [progressCallback]. *)
Definition progressCallback (t : DownloadTask) (w : World) (c : Closure)
    (downloaded total now : Z) : Outcome * Closure :=
  if bool_decide (taskId t ∈ pausedTasks w) then
    let t1 := setStatus PAUSED t in
    ({| thrown := Some MSG_PAUSED; task := t1; world := w;
        trace := emit (onPause events) (CallOnPause t1) |}, c)
  else if bool_decide (taskId t ∈ cancelledTasks w) then
    ({| thrown := Some MSG_CANCELLED; task := setStatus CANCELLED t;
        world := w; trace := [] |}, c)
  else
    let '(t1, c1) := updateProgress t c downloaded total now in
    ({| thrown := None; task := t1; world := w;
        trace := emit (onProgress events) (CallOnProgress t1) |}, c1).

(** The transfer up to its end or to the first throw of the
    callback. *)
Fixpoint runTransfer (steps : list ProviderStep) (t : DownloadTask)
    (w : World) (c : Closure) : Outcome :=
  match steps with
  | [] => {| thrown := None; task := t; world := w; trace := [] |}
  | PauseRequest i :: rest => runTransfer rest t (pauseDownload i w) c
  | CancelRequest i :: rest => runTransfer rest t (cancelDownload i w) c
  | Progress downloaded total now :: rest =>
      let '(o, c1) := progressCallback t w c downloaded total now in
      match thrown o with
      | Some _ => o
      | None =>
          let o' := runTransfer rest (task o) (world o) c1 in
          {| thrown := thrown o'; task := task o'; world := world o';
             trace := trace o ++ trace o' |}
      end
  end.

(** The [try] block of [executeDownload]. *)
Definition tryBlock (a : Attempt) (existingState : option DownloadState)
    (t : DownloadTask) (w : World) : Outcome :=
  let entity := GetEntity (chatId (media t)) in
  let messages := GetMessages (messageId (media t)) in
  match fetch a with
  | GetEntityFails m =>
      {| thrown := Some m; task := t; world := w; trace := [entity] |}
  | GetMessagesFails m =>
      {| thrown := Some m; task := t; world := w;
         trace := [entity; messages] |}
  | NoMessages =>
      {| thrown := Some MSG_NO_MESSAGE; task := t; world := w;
         trace := [entity; messages] |}
  | NoMediaMessage =>
      {| thrown := Some MSG_NO_MEDIA; task := t; world := w;
         trace := [entity; messages] |}
  | Transfer now steps fin =>
      match ensureDir (Path.dirname (outputPath t)) w with
      | Throw m =>
          {| thrown := Some m; task := t; world := w;
             trace := [entity; messages] |}
      | Ok w1 =>
          let c :=
            {| lastProgressTime := now;
               lastDownloadedBytes :=
                 match existingState with
                 | Some s => s_downloadedBytes s
                 | None => 0
                 end |} in
          let call := DownloadMedia (messageId (media t)) in
          let o := runTransfer steps t w1 c in
          let before := [entity; messages; call] ++ trace o in
          match thrown o with
          | Some m =>
              {| thrown := Some m; task := task o; world := world o;
                 trace := before |}
          | None =>
              match fin with
              | TransferError m =>
                  {| thrown := Some m; task := task o; world := world o;
                     trace := before |}
              | NoBuffer =>
                  {| thrown := Some MSG_EMPTY; task := task o;
                     world := world o; trace := before |}
              | Buffer bytes =>
                  match
                    writeFileSync (outputPath t) (FileBytes bytes) (world o)
                  with
                  | Throw m =>
                      {| thrown := Some m; task := task o;
                         world := world o; trace := before |}
                  | Ok w2 =>
                      let w3 := removeDownloadState (outputPath t) w2 in
                      let t1 :=
                        setEndTime (clockEnd a)
                          (setProgress 100 (fileSize (media t))
                             (setStatus COMPLETED (task o))) in
                      {| thrown := None; task := t1; world := w3;
                         trace :=
                           before
                             ++ emit (onComplete events) (CallOnComplete t1)
                      |}
                  end
              end
          end
      end
  end.

(** The cleanup of the [catch] block after a cancel: the unlink of the
    output path and the removal of the marker are in one [try] whose
    [catch] ignores the error, so the marker stays when the unlink
    throws. *)
Definition cleanup (outputPath : jsstring) (w : World) : World :=
  if existsSync outputPath w then
    match unlinkSync outputPath w with
    | Ok w1 => removeDownloadState outputPath w1
    | Throw _ => w
    end
  else removeDownloadState outputPath w.

(** The [catch] block of [executeDownload]: [started] is what happened
    before the [try] block, [o] the state in which the [try] block threw
    [message], and [retry] the recursive call.  An error of
    [saveDownloadState] is thrown out of the [catch] block. *)
Definition catchBlock (a : Attempt) (started : list Event) (o : Outcome)
    (message : jsstring) (retry : DownloadTask -> World -> option Outcome)
  : option Outcome :=
  let t2 := task o in
  if JS.eqb message MSG_PAUSED then
    match
      saveDownloadState
        {| s_mediaId := id (media t2);
           s_messageId := messageId (media t2);
           s_chatId := chatId (media t2);
           s_outputPath := outputPath t2;
           s_totalSize := fileSize (media t2);
           s_downloadedBytes := downloadedBytes t2;
           s_chunks := [] |} (world o)
    with
    | Ok w1 =>
        Some {| thrown := None; task := t2; world := w1;
                trace := started ++ trace o |}
    | Throw m =>
        Some {| thrown := Some m; task := t2; world := world o;
                trace := started ++ trace o |}
    end
  else if JS.eqb message MSG_CANCELLED then
    Some {| thrown := None; task := t2;
            world := cleanup (outputPath t2) (world o);
            trace := started ++ trace o |}
  else if retryCount t2 <? maxRetries config then
    let t3 := setRetryCount (retryCount t2 + 1) t2 in
    let wait := Delay (retryDelay config * retryCount t3) in
    match retry t3 (world o) with
    | Some o' =>
        Some {| thrown := thrown o'; task := task o'; world := world o';
                trace := started ++ trace o ++ wait :: trace o' |}
    | None => None
    end
  else
    let t3 :=
      setEndTime (clockEnd a) (setError message (setStatus FAILED t2)) in
    Some {| thrown := None; task := t3; world := world o;
            trace :=
              started ++ trace o
                ++ emit (onError events) (CallOnError t3 message) |}.

(** [executeDownload]: [attempts k] is what the client does in the
    pass through the [try] block that follows [k] earlier ones; every
    retry takes one unit of [fuel]. *)
Fixpoint executeDownload_go (fuel : nat) (attempts : nat -> Attempt)
    (k : nat) (t : DownloadTask) (w : World) : option Outcome :=
  match fuel with
  | O => None
  | S fuel' =>
      if negb connected then
        Some {| thrown := Some MSG_NO_CLIENT; task := t; world := w;
                trace := [] |}
      else if negb (bool_decide (downloadable (media t) = DOWNLOADABLE))
      then
        let message :=
          orElse (downloadableReason (media t)) MSG_NOT_DOWNLOADABLE in
        let t1 := setError message (setStatus FAILED t) in
        Some {| thrown := None; task := t1; world := w;
                trace := emit (onError events) (CallOnError t1 message) |}
      else if skipExisting config && fileExists (outputPath t) w then
        let t1 :=
          setProgress 100 (fileSize (media t)) (setStatus COMPLETED t) in
        Some {| thrown := None; task := t1; world := w;
                trace := emit (onComplete events) (CallOnComplete t1) |}
      else
        let a := attempts k in
        let existingState :=
          if resumeEnabled config then loadDownloadState (outputPath t) w
          else None in
        let t1 := setStartTime (clockStart a) (setStatus DOWNLOADING t) in
        let started := emit (onStart events) (CallOnStart t1) in
        let o := tryBlock a existingState t1 w in
        match thrown o with
        | None =>
            Some {| thrown := None; task := task o; world := world o;
                    trace := started ++ trace o |}
        | Some message =>
            catchBlock a started o message
              (executeDownload_go fuel' attempts (S k))
        end
  end.

(** The retries left to a task bound the depth of the recursion. *)
Definition retriesLeft (t : DownloadTask) : nat :=
  Z.to_nat (maxRetries config - retryCount t).

Definition executeDownload (attempts : nat -> Attempt) (t : DownloadTask)
    (w : World) : option Outcome :=
  executeDownload_go (S (retriesLeft t)) attempts 0 t w.

End Engine.

(** *** The scheduler *)

(** The contract of [pLimit(concurrency)] of the package p-limit: it
    throws a [TypeError] unless [concurrency] is an integer from 1 up
    (or Infinity), and otherwise returns a limiter that runs at most
    [concurrency] of the functions given to it at a time. *)
Record Limiter := {
  concurrency : Z;
  activeCount : nat;
  pending : list jsstring;
}.

Definition pLimit (concurrency : Z) : option Limiter :=
  if 1 <=? concurrency then
    Some {| concurrency := concurrency; activeCount := 0; pending := [] |}
  else None.

(** A queued function is started when fewer than [concurrency] run. *)
Definition admits (l : Limiter) : bool :=
  Z.of_nat (activeCount l) <? concurrency l.

Section Batch.
Context `{Runtime}.

(** The loop of [downloadAll] that creates the tasks; [ids] are the
    values [generateId()] returns, one for each task.  The loop ends
    where a task cannot be made: the tasks made before stay in the
    registry. *)
Fixpoint createAll (ids : list jsstring) (mediaList : list MediaInfo)
    (downloadConfig : DownloadConfig) (w : World)
  : Completion (list DownloadTask) * World :=
  match mediaList with
  | [] => (Returns [], w)
  | m :: rest =>
      if bool_decide (downloadable m = DOWNLOADABLE) then
        match ids with
        | [] => (Returns [], w)
        | i :: ids' =>
            match createDownloadTask i m downloadConfig None w with
            | (Raises e, w1) => (Raises e, w1)
            | (Returns t, w1) =>
                match createAll ids' rest downloadConfig w1 with
                | (Returns ts, w2) => (Returns (t :: ts), w2)
                | (Raises e, w2) => (Raises e, w2)
                end
            end
        end
      else createAll ids rest downloadConfig w
  end.

(** [downloadAll] up to the call of [pLimit]: the merged configuration,
    the tasks and the limiter the tasks are run under, or what was
    thrown on the way ([pLimit] throws a [TypeError]). *)
Definition downloadAll_setup (homedir : jsstring) (store : Config.Store)
    (ids : list jsstring) (mediaList : list MediaInfo)
    (config : Config.PartialDownloadConfig) (w : World)
  : Completion (DownloadConfig * list DownloadTask * Limiter) * World :=
  let downloadConfig :=
    Config.spread (Config.getDownloadConfig homedir store) config in
  match createAll ids mediaList downloadConfig w with
  | (Raises e, w1) => (Raises e, w1)
  | (Returns tasks, w1) =>
      match pLimit (concurrentDownloads downloadConfig) with
      | Some limit => (Returns (downloadConfig, tasks, limit), w1)
      | None => (Raises TypeError, w1)
      end
  end.

End Batch.

End Downloader.

(** ** A runtime for the examples *)

(** ** Doubles

    The arithmetic of IEEE 754 binary64 on the rationals it can hold,
    within the range of the normal numbers: every operation gives the
    double nearest to the exact result, a tie going to the even
    mantissa. *)
Module Double.

(** The integer nearest to [num / den], for [0 <= num] and [0 < den]. *)
Definition nearestEven (num den : Z) : Z :=
  let q := num / den in
  let r := num mod den in
  if (den <? 2 * r) || ((2 * r =? den) && Z.odd q) then q + 1 else q.

(** The integer part of the binary logarithm of [n / d], for positive
    [n] and [d]. *)
Definition floorLog2 (n d : Z) : Z :=
  let g := Z.log2 n - Z.log2 d in
  if n * 2 ^ Z.max 0 (- g) <? d * 2 ^ Z.max 0 g then g - 1 else g.

Definition roundPositive (n d : Z) : Q :=
  let e := floorLog2 n d - 52 in
  if 0 <=? e then inject_Z (nearestEven n (d * 2 ^ e) * 2 ^ e)
  else Qmake (nearestEven (n * 2 ^ (- e)) d) (Z.to_pos (2 ^ (- e))).

(** The double nearest to a rational. *)
Definition round (x : Q) : Q :=
  let n := Qnum x in
  let d := Z.pos (Qden x) in
  if n =? 0 then 0%Q
  else if 0 <? n then roundPositive n d
  else Qopp (roundPositive (- n) d).

Definition div (x y : Q) : Q := round (Qdiv x y).
Definition mul (x y : Q) : Q := round (Qmult x y).

(** [Math.round]: the nearest integer, a tie going up. *)
Definition mathRound (x : Q) : Z := Qfloor (Qplus x (Qmake 1 2)).

End Double.

(** A process in a time zone at a fixed offset from UTC: dates are
    printed from the civil calendar, letters A to Z are lowered,
    percentages are computed in doubles and sizes are printed with two
    decimals from the exact quotient. *)
Module UtcRuntime.

Definition pad (n : nat) (z : Z) : jsstring :=
  let s := numToString z in
  replicate (n - length s) 48%N ++ s.

(** Year, month and day of a day number counted from 1970-01-01. *)
Definition civil (days : Z) : Z * Z * Z :=
  let z := days + 719468 in
  let era := z / 146097 in
  let doe := z - era * 146097 in
  let yoe := (doe - doe / 1460 + doe / 36524 - doe / 146096) / 365 in
  let doy := doe - (365 * yoe + yoe / 4 - yoe / 100) in
  let mp := (5 * doy + 2) / 153 in
  let d := doy - (153 * mp + 2) / 5 + 1 in
  let m := if mp <? 10 then mp + 3 else mp - 9 in
  let y := yoe + era * 400 + (if m <=? 2 then 1 else 0) in
  (y, m, d).

Definition clock (ms : Z) : jsstring :=
  let r := ms mod 86400000 in
  pad 2 (r / 3600000) ++ str ":" ++ pad 2 (r / 60000 mod 60) ++ str ":"
    ++ pad 2 (r / 1000 mod 60).

Definition isoString (ms : Z) : jsstring :=
  let '(y, m, d) := civil (ms / 86400000) in
  pad 4 y ++ str "-" ++ pad 2 m ++ str "-" ++ pad 2 d ++ str "T"
    ++ clock ms ++ str "." ++ pad 3 (ms mod 1000) ++ str "Z".

(** [toTimeString] in the zone [minutes] east of UTC that is called
    [zone]: the local time of day, the offset and the name. *)
Definition timeStringAt (minutes : Z) (zone : jsstring) (ms : Z)
  : jsstring :=
  clock (ms + minutes * 60000) ++ str " GMT"
    ++ (if minutes <? 0 then str "-" else str "+")
    ++ pad 2 (Z.abs minutes / 60) ++ pad 2 (Z.abs minutes mod 60)
    ++ str " (" ++ zone ++ str ")".

Definition lower (s : jsstring) : jsstring :=
  List.map (fun c => if ((65 <=? c) && (c <=? 90))%N then (c + 32)%N else c)
    s.

(** [Math.round((Number(downloaded) / Number(total)) * 100)] in doubles.
    For a total of 0 the code has NaN or an infinity, which [Z] does not
    hold: 0 stands for them here. *)
Definition percent (downloaded total : Z) : Z :=
  if toNumber total =? 0 then 0
  else
    Double.mathRound
      (Double.mul
         (Double.div (inject_Z (toNumber downloaded))
            (inject_Z (toNumber total)))
         (inject_Z 100)).

Definition units : list jsstring :=
  [str "B"; str "KB"; str "MB"; str "GB"; str "TB"].

(** [Math.floor(Math.log(q) / Math.log(1024))] for a positive [q], the
    logarithm taken as exact. *)
Definition magnitude (q : Q) : Z :=
  Double.floorLog2 (Qnum q) (Z.pos (Qden q)) / 10.

(** [x.toFixed(2)] for [0 <= x]. *)
Definition toFixed2 (x : Q) : jsstring :=
  let hundredths := Qfloor (Qplus (Qmult x (inject_Z 100)) (Qmake 1 2)) in
  numToString (hundredths / 100) ++ str "." ++ pad 2 (hundredths mod 100).

(** [formatFileSize]: the index of the unit is not bounded, so the unit
    is [undefined] from 1024^5 bytes on and below one byte, and the
    logarithm of a negative number is NaN. *)
Definition sizeString (q : Q) : jsstring :=
  if Qeq_bool q 0 then str "0 B"
  else if Qnum q <? 0 then str "NaN undefined"
  else
    let i := magnitude q in
    let scaled :=
      if 0 <=? i then Qdiv q (inject_Z (1024 ^ i))
      else Qmult q (inject_Z (1024 ^ (- i))) in
    toFixed2 scaled ++ str " "
      ++ (if (0 <=? i) && (i <? 5) then nth (Z.to_nat i) units []
          else str "undefined").

Definition runtimeAt (minutes : Z) (zone : jsstring) : Runtime :=
  {| formatFileSize := sizeString;
     toISOString := isoString;
     toTimeString := timeStringAt minutes zone;
     toLowerCase := lower;
     roundPercent := percent |}.

(** A process whose time zone is UTC. *)
Definition runtime : Runtime :=
  runtimeAt 0 (str "Coordinated Universal Time").

End UtcRuntime.


(** * Properties *)

(** ** Classification *)

Module AggregatorFacts.
Import Aggregator.

(** The size the classifier reads off a media: the size of a document
    as a number, the size of the last entry of the sizes of a photo when
    that entry is a [PhotoSize], and 0 where there is neither. *)
Definition sizeOf (media : MessageMedia) : Z :=
  match media with
  | MessageMediaDocument (Document size _ _) => toNumber size
  | MessageMediaPhoto (Photo sizes) =>
      match last sizes with
      | Some (PhotoSize size _ _) => size
      | _ => 0
      end
  | _ => 0
  end.

Example MAX_FILE_SIZE_bytes : MAX_FILE_SIZE = 2147483648.
Proof. reflexivity. Qed.

(** The conversion of a size to a number does not move it across the
    ceiling: the doubles are exact far beyond 2 GiB. *)
Lemma toNumber_ceiling size :
  MAX_FILE_SIZE < toNumber size <-> MAX_FILE_SIZE < size.
Proof.
  unfold toNumber, MAX_FILE_SIZE.
  destruct (Z.ltb_spec (Z.abs size) (2 ^ 53)) as [Hsmall|Hbig];
    [reflexivity|].
  cbv zeta.
  set (e := Z.log2 (Z.abs size) - 52).
  set (q := Z.abs size / 2 ^ e).
  set (up := (_ || _)).
  set (q' := if up then q + 1 else q).
  assert (Hlog : 53 <= Z.log2 (Z.abs size)).
  { apply Z.log2_le_pow2; lia. }
  assert (He : 0 < 2 ^ e) by (apply Z.pow_pos_nonneg; lia).
  assert (Hq : 2 ^ 52 <= q).
  { unfold q. apply Z.div_le_lower_bound; [exact He|].
    rewrite Z.mul_comm, <- Z.pow_add_r by lia.
    replace (52 + e) with (Z.log2 (Z.abs size)) by lia.
    apply Z.log2_spec. lia. }
  assert (Hq' : 2 ^ 52 <= q').
  { unfold q'. destruct up; lia. }
  assert (Hprod : 2 ^ 52 <= q' * 2 ^ e) by nia.
  destruct (Z.lt_trichotomy size 0) as [Hneg|[Hz|Hpos]].
  - rewrite (Z.sgn_neg size Hneg). split; intros; lia.
  - subst size. simpl in Hbig. lia.
  - rewrite (Z.sgn_pos size Hpos). lia.
Qed.

Section WithRuntime.
Context `{Runtime}.

(** The record [extractMediaInfo] returns carries the size of the
    locals and the verdict computed from that size alone. *)
Lemma extractMediaInfo_verdict newId message chat title mi :
  extractMediaInfo newId message chat title = Some mi ->
  downloadable mi =
    if MAX_FILE_SIZE <? fileSize mi then TOO_LARGE else DOWNLOADABLE.
Proof.
  unfold extractMediaInfo.
  destruct (m_media message) as [md|]; [|discriminate].
  destruct (inspectMedia message md) as [l|]; [|discriminate].
  intros [= <-]. reflexivity.
Qed.

(** The size of the record is the size of the media of the message. *)
Lemma extractMediaInfo_size newId message chat title media :
  m_media message = Some media ->
  media <> MessageMediaOther ->
  exists mi,
    extractMediaInfo newId message chat title = Some mi
    /\ fileSize mi = sizeOf media.
Proof.
  intros Hm Hother. unfold extractMediaInfo. rewrite Hm.
  destruct media as [[sizes|]|[size mime attrs|]|]; [| | | |congruence];
    cbn [inspectMedia].
  - eexists. split; [reflexivity|]. cbn [fileSize l_fileSize sizeOf].
    destruct (last sizes) as [[size w h|]|]; reflexivity.
  - eexists. split; [reflexivity|]. reflexivity.
  - eexists. split; [reflexivity|]. cbn [fileSize l_fileSize sizeOf].
    set (l0 := {| l_type := UNKNOWN; l_mimeType := Some mime;
                  l_fileName := None; l_fileSize := toNumber size;
                  l_duration := None; l_width := None; l_height := None |}).
    change (toNumber size) with (l_fileSize l0). generalize l0. clear.
    induction attrs as [|a attrs IH]; intros l0; [reflexivity|].
    cbn [fold_left]. rewrite IH. destruct a; reflexivity.
  - eexists. split; [reflexivity|]. reflexivity.
Qed.

(** A message without media, or with a media that is neither a photo nor
    a document, gives no record. *)
Lemma extractMediaInfo_only newId message chat title mi :
  extractMediaInfo newId message chat title = Some mi ->
  exists media, m_media message = Some media /\ media <> MessageMediaOther.
Proof.
  unfold extractMediaInfo.
  destruct (m_media message) as [[p|d|]|]; try discriminate; intros _;
    eexists; (split; [reflexivity|discriminate]).
Qed.

(** C1. Every message whose media is a photo or a document is
    classified, whatever the type the record gets: the record's fileSize
    is the size of that media, and its verdict is TOO_LARGE when the
    fileSize is above 2 GiB and DOWNLOADABLE when it is at most 2 GiB,
    the classifier applying no other restriction.  For a document the
    fileSize is above 2 GiB exactly when the size of the document is. *)
Theorem classification_by_size newId message chat title media :
  m_media message = Some media ->
  media <> MessageMediaOther ->
  exists mi,
    extractMediaInfo newId message chat title = Some mi
    /\ fileSize mi = sizeOf media
    /\ (2 * 1024 * 1024 * 1024 < fileSize mi -> downloadable mi = TOO_LARGE)
    /\ (fileSize mi <= 2 * 1024 * 1024 * 1024 ->
        downloadable mi = DOWNLOADABLE)
    /\ (forall size mime attrs,
          media = MessageMediaDocument (Document size mime attrs) ->
          (2 * 1024 * 1024 * 1024 < fileSize mi
           <-> 2 * 1024 * 1024 * 1024 < size)).
Proof.
  intros Hm Hother.
  destruct (extractMediaInfo_size newId message chat title media Hm Hother)
    as (mi & Hx & Hsize).
  exists mi. split; [exact Hx|]. split; [exact Hsize|].
  rewrite (extractMediaInfo_verdict _ _ _ _ _ Hx).
  change (2 * 1024 * 1024 * 1024) with MAX_FILE_SIZE.
  refine (conj _ (conj _ _)).
  - intros Hlt. rewrite (proj2 (Z.ltb_lt _ _) Hlt). reflexivity.
  - intros Hle. rewrite (proj2 (Z.ltb_ge _ _) Hle). reflexivity.
  - intros size mime attrs ->. rewrite Hsize. apply toNumber_ceiling.
Qed.

(** The verdict does not look at the type: two records of the same
    size get the same verdict. *)
Lemma verdict_regardless_of_type i1 i2 m1 m2 c1 c2 t1 t2 a b :
  extractMediaInfo i1 m1 c1 t1 = Some a ->
  extractMediaInfo i2 m2 c2 t2 = Some b ->
  fileSize a = fileSize b -> downloadable a = downloadable b.
Proof.
  intros Ha Hb Hs.
  rewrite (extractMediaInfo_verdict _ _ _ _ _ Ha),
    (extractMediaInfo_verdict _ _ _ _ _ Hb), Hs.
  reflexivity.
Qed.

(** A verdict other than DOWNLOADABLE comes with a reason that is not
    empty. *)
Lemma extractMediaInfo_reason newId message chat title mi :
  extractMediaInfo newId message chat title = Some mi ->
  downloadable mi <> DOWNLOADABLE ->
  downloadable mi = TOO_LARGE /\ truthy (downloadableReason mi) = true.
Proof.
  unfold extractMediaInfo.
  destruct (m_media message) as [md|]; [|discriminate].
  destruct (inspectMedia message md) as [l|]; [|discriminate].
  intros [= <-]; simpl.
  destruct (MAX_FILE_SIZE <? l_fileSize l); [|congruence].
  intros _. split; reflexivity.
Qed.

End WithRuntime.

(** A video of 3 000 000 000 bytes and a photo of 4 096 bytes. *)
Definition largeVideo : Message :=
  {| m_id := 42; m_date := 1700000000; m_message := str "holiday";
     m_media :=
       Some (MessageMediaDocument
               (Document 3000000000 (str "video/mp4")
                  [DocumentAttributeVideo false 90 1920 1080])) |}.

Definition smallPhoto : Message :=
  {| m_id := 43; m_date := 1700000000; m_message := [];
     m_media :=
       Some (MessageMediaPhoto (Photo [PhotoSizeOther; PhotoSize 4096 90 60]))
  |}.

Definition classified (m : Message) : option MediaInfo :=
  @extractMediaInfo UtcRuntime.runtime (str "1700000000000-abc") m
    (str "1001") (str "My Channel").

Example largeVideo_classified :
  option_map (fun mi => (type mi, downloadable mi, fileName mi))
    (classified largeVideo)
  = Some (VIDEO, TOO_LARGE, Some (str "file_42.mp4")).
Proof. vm_compute. reflexivity. Qed.

Example smallPhoto_classified :
  option_map (fun mi => (type mi, fileSize mi, downloadable mi))
    (classified smallPhoto)
  = Some (PHOTO, 4096, DOWNLOADABLE).
Proof. vm_compute. reflexivity. Qed.

(** The video is found too large and the photo downloadable, each with
    the size of its own media. *)
Lemma classification_by_size_witness :
  (exists mi, classified largeVideo = Some mi
     /\ fileSize mi = 3000000000
     /\ downloadable mi = TOO_LARGE)
  /\ (exists mi, classified smallPhoto = Some mi
        /\ fileSize mi = 4096
        /\ downloadable mi = DOWNLOADABLE).
Proof.
  split.
  - destruct (@classification_by_size UtcRuntime.runtime
                (str "1700000000000-abc") largeVideo (str "1001")
                (str "My Channel") _ eq_refl)
      as (mi & E & Hsize & Hlarge & _); [discriminate|].
    exists mi. split; [exact E|]. split; [exact Hsize|].
    apply Hlarge. rewrite Hsize. reflexivity.
  - destruct (@classification_by_size UtcRuntime.runtime
                (str "1700000000000-abc") smallPhoto (str "1001")
                (str "My Channel") _ eq_refl)
      as (mi & E & Hsize & _ & Hsmall & _); [discriminate|].
    exists mi. split; [exact E|]. split; [exact Hsize|].
    apply Hsmall. rewrite Hsize. discriminate.
Defined.

End AggregatorFacts.

(** ** The task registry *)

Module RegistryFacts.
Import Downloader.

(** The test of the loop of [clearCompletedTasks]. *)
Definition finished (t : DownloadTask) : bool :=
  bool_decide (status t = COMPLETED) || bool_decide (status t = CANCELLED).

(** The loop deletes, from whatever registry it started with, the
    identifiers of the finished entries it visits. *)
Lemma clear_fold_lookup (start visited : gmap jsstring DownloadTask) k :
  map_fold clearStep start visited !! k =
    match visited !! k with
    | Some t => if finished t then None else start !! k
    | None => start !! k
    end.
Proof.
  revert k.
  apply (map_fold_weak_ind
           (fun r m => forall k,
              r !! k = match m !! k with
                       | Some t => if finished t then None else start !! k
                       | None => start !! k
                       end)).
  - intros k. rewrite lookup_empty. reflexivity.
  - intros i x m r Hfresh IH k. unfold clearStep. fold (finished x).
    destruct (decide (i = k)) as [->|Hne].
    + rewrite lookup_insert_eq.
      destruct (finished x).
      * apply lookup_delete_eq.
      * rewrite IH, Hfresh. reflexivity.
    + rewrite lookup_insert_ne by assumption.
      destruct (finished x).
      * rewrite lookup_delete_ne by assumption. apply IH.
      * apply IH.
Qed.

(** C10. The cleanup removes from the registry exactly the tasks whose
    status is COMPLETED or CANCELLED: looking a task up afterwards finds
    nothing for those and the same task, unchanged, for every other
    status (PENDING, DOWNLOADING, FAILED, PAUSED); nothing else of the
    state changes. *)
Theorem clearCompletedTasks_exact (w : World) (k : jsstring) :
  downloadTasks (clearCompletedTasks w) !! k =
    match downloadTasks w !! k with
    | Some t =>
        match status t with
        | COMPLETED | CANCELLED => None
        | PENDING | DOWNLOADING | FAILED | PAUSED => Some t
        end
    | None => None
    end
  /\ files (clearCompletedTasks w) = files w
  /\ pausedTasks (clearCompletedTasks w) = pausedTasks w
  /\ cancelledTasks (clearCompletedTasks w) = cancelledTasks w.
Proof.
  split; [|repeat split].
  unfold clearCompletedTasks; simpl. rewrite clear_fold_lookup.
  destruct (downloadTasks w !! k) as [t|]; [|reflexivity].
  unfold finished. destruct (status t); reflexivity.
Qed.

(** A FAILED task stays, although it will not run again. *)
Corollary clearCompletedTasks_keeps_failed (w : World) k t :
  downloadTasks w !! k = Some t -> status t = FAILED ->
  downloadTasks (clearCompletedTasks w) !! k = Some t.
Proof.
  intros Hk Hs. unfold clearCompletedTasks; simpl.
  rewrite clear_fold_lookup, Hk. unfold finished. rewrite Hs. reflexivity.
Qed.

(** The registry after the cleanup is the registry filtered. *)
Corollary clearCompletedTasks_filter (w : World) :
  downloadTasks (clearCompletedTasks w) =
    filter (fun kt => finished kt.2 = false) (downloadTasks w).
Proof.
  apply map_eq. intros k.
  unfold clearCompletedTasks; simpl. rewrite clear_fold_lookup.
  destruct (downloadTasks w !! k) as [t|] eqn:Hk.
  - destruct (finished t) eqn:Hf.
    + symmetry. apply map_lookup_filter_None. right. intros x Hx.
      simpl. rewrite Hk in Hx. injection Hx as <-. rewrite Hf. discriminate.
    + symmetry. apply map_lookup_filter_Some. split; [exact Hk|exact Hf].
  - symmetry. apply map_lookup_filter_None. left. exact Hk.
Qed.

(** A registry of three tasks, of which the FAILED one stays. *)
Definition sampleTask (i : jsstring) (s : DownloadStatus) : DownloadTask :=
  {| taskId := i;
     media :=
       {| id := str "m"; messageId := 1; chatId := str "1001";
          chatTitle := str "My Channel"; type := PHOTO; mimeType := None;
          fileName := None; fileSize := 10; fileSizeFormatted := str "10 B";
          downloadable := DOWNLOADABLE; downloadableReason := None;
          date := 0; caption := None; duration := None; width := None;
          height := None |};
     status := s; progress := 0; downloadedBytes := 0; speed := 0%Q;
     speedFormatted := str "0 B/s"; eta := None; outputPath := str "out";
     customFileName := None; error := None; retryCount := 0;
     startTime := None; endTime := None |}.

Definition sampleWorld : World :=
  {| files := ∅;
     downloadTasks :=
       <[str "a" := sampleTask (str "a") COMPLETED]>
         (<[str "b" := sampleTask (str "b") FAILED]>
            (<[str "c" := sampleTask (str "c") CANCELLED]> ∅));
     pausedTasks := ∅; cancelledTasks := ∅ |}.

Example clearCompletedTasks_sample :
  List.map (fun k => option_map status
                       (getTask (str k) (clearCompletedTasks sampleWorld)))
    ["a"; "b"; "c"]%string
  = [None; Some FAILED; None].
Proof. vm_compute. reflexivity. Qed.

End RegistryFacts.

(** ** Configuration and the concurrency bound *)

Module SchedulerFacts.
Import Downloader Config.

Definition emptyWorld : World :=
  {| files := ∅; downloadTasks := ∅; pausedTasks := ∅;
     cancelledTasks := ∅ |}.

(** [updateDownloadConfig] stores the value it is given. *)
Lemma updateDownloadConfig_stores home updates store c :
  p_concurrentDownloads updates = Some c ->
  concurrentDownloads
    (getDownloadConfig home (updateDownloadConfig home updates store)) = c.
Proof.
  intros Hc. unfold updateDownloadConfig, saveDownloadConfig,
    getDownloadConfig, loadConfig.
  destruct store as [cfg|]; simpl; rewrite Hc; reflexivity.
Qed.

Section WithRuntime.
Context `{Runtime}.

(** [downloadAll] hands the configured value to [pLimit] as it is:
    once the tasks are made, the limiter it runs them under has that
    value as its bound whenever [pLimit] accepts it, and no limiter is
    made otherwise. *)
Lemma downloadAll_bound home store ids mediaList override w tasks w1 :
  let downloadConfig := spread (getDownloadConfig home store) override in
  let c := concurrentDownloads downloadConfig in
  createAll ids mediaList downloadConfig w = (Returns tasks, w1) ->
  match downloadAll_setup home store ids mediaList override w with
  | (Returns (_, _, limit), _) => 1 <= c /\ concurrency limit = c
  | (Raises _, _) => c < 1
  end.
Proof.
  cbn zeta. intros Hc. unfold downloadAll_setup. rewrite Hc.
  unfold pLimit.
  destruct (Z.leb_spec 1
              (concurrentDownloads
                 (spread (getDownloadConfig home store) override)));
    simpl; [split; [assumption|reflexivity] | assumption].
Qed.

End WithRuntime.

Definition fifty : PartialDownloadConfig :=
  {| p_outputDir := None; p_concurrentDownloads := Some 50;
     p_chunkSize := None; p_maxRetries := None; p_retryDelay := None;
     p_resumeEnabled := None; p_speedLimit := None;
     p_fileNameTemplate := None; p_createSubfolders := None;
     p_skipExisting := None |}.

(** C6. The bound 50 is not in 1..10, and the prompt of
    [configureDownload] refuses it; [updateDownloadConfig] stores it all
    the same, and [downloadAll] then runs its tasks under a limiter whose
    bound is 50, which starts an eleventh task while ten are running. *)
Theorem concurrency_bound_not_clamped :
  validateConcurrentDownloads 50 = false
  /\ exists cfg limit w,
       @downloadAll_setup UtcRuntime.runtime (str "/home/u")
         (updateDownloadConfig (str "/home/u") fifty None) [] []
         noUpdates emptyWorld
       = (Returns (cfg, [], limit), w)
       /\ concurrentDownloads cfg = 50
       /\ concurrency limit = 50
       /\ admits {| concurrency := concurrency limit; activeCount := 10;
                    pending := pending limit |} = true.
Proof.
  split; [reflexivity|].
  eexists _, _, _. split; [vm_compute; reflexivity|].
  repeat split.
Qed.

End SchedulerFacts.

(** ** File names *)

Module SanitizeFacts.
Import Helpers.

(** A character the two replacements of [sanitizeFileName] leave alone. *)
Definition clean (c : N) : Prop :=
  illegalChar c = false /\ whiteSpace c = false.

(** No ['_'] is followed by another one. *)
Fixpoint noDoubleUnderscore (s : jsstring) : Prop :=
  match s with
  | [] => True
  | c :: s' =>
      (c = UNDERSCORE -> head s' <> Some UNDERSCORE)
      /\ noDoubleUnderscore s'
  end.

Lemma clean_underscore : clean UNDERSCORE.
Proof. split; reflexivity. Qed.

Lemma isUnderscore_true c : isUnderscore c = true <-> c = UNDERSCORE.
Proof. unfold isUnderscore. apply N.eqb_eq. Qed.

Lemma isUnderscore_false c : isUnderscore c = false <-> c <> UNDERSCORE.
Proof. unfold isUnderscore. apply N.eqb_neq. Qed.

Lemma replaceClass_gone P s :
  P UNDERSCORE = false ->
  Forall (fun c => P c = false) (replaceClass P s).
Proof.
  intros HU. unfold replaceClass. induction s as [|c s IH]; simpl.
  - constructor.
  - constructor; [|exact IH]. destruct (P c) eqn:E; assumption.
Qed.

Lemma replaceRuns_keeps (Q : N -> Prop) P b s :
  Q UNDERSCORE -> Forall Q s -> Forall Q (replaceRuns P b s).
Proof.
  intros HU Hs. revert b. induction Hs as [|c s Hc Hs IH]; intros b; simpl.
  - constructor.
  - destruct (P c); [destruct b|]; try constructor; auto.
Qed.

Lemma replaceRuns_gone P b s :
  P UNDERSCORE = false ->
  Forall (fun c => P c = false) (replaceRuns P b s).
Proof.
  intros HU. revert b. induction s as [|c s IH]; intros b; simpl.
  - constructor.
  - destruct (P c) eqn:E; [destruct b|]; try constructor; auto.
Qed.

(** After the runs of ['_'] are collapsed no two of them are adjacent,
    and the text that continues a run does not start with one. *)
Lemma collapse_noDouble b s :
  noDoubleUnderscore (replaceRuns isUnderscore b s)
  /\ (b = true -> head (replaceRuns isUnderscore b s) <> Some UNDERSCORE).
Proof.
  revert b. induction s as [|c s IH]; intros b; simpl.
  - split; [exact I|discriminate].
  - destruct (isUnderscore c) eqn:E.
    + destruct b.
      * apply IH.
      * split; [|discriminate]. simpl. split.
        -- intros _. apply (IH true). reflexivity.
        -- apply (IH true).
    + apply isUnderscore_false in E. split.
      * simpl. split; [congruence|apply (IH false)].
      * intros _. simpl. congruence.
Qed.

Lemma dropTrailing_cons c d s :
  dropTrailingUnderscore (c :: d :: s) = c :: dropTrailingUnderscore (d :: s).
Proof. reflexivity. Qed.

Lemma dropTrailing_head s :
  head s <> Some UNDERSCORE ->
  head (dropTrailingUnderscore s) <> Some UNDERSCORE.
Proof.
  destruct s as [|c [|d s]]; simpl; try congruence.
  destruct (isUnderscore c); simpl; congruence.
Qed.

Lemma dropTrailing_keeps (Q : N -> Prop) s :
  Forall Q s -> Forall Q (dropTrailingUnderscore s).
Proof.
  induction 1 as [|c s Hc Hs IH]; [constructor|].
  destruct s as [|d s].
  - simpl. destruct (isUnderscore c); constructor; auto.
  - rewrite dropTrailing_cons. constructor; assumption.
Qed.

Lemma dropTrailing_noDouble s :
  noDoubleUnderscore s -> noDoubleUnderscore (dropTrailingUnderscore s).
Proof.
  induction s as [|c s IH]; [trivial|].
  destruct s as [|d s].
  - simpl. destruct (isUnderscore c); simpl; intuition discriminate.
  - rewrite dropTrailing_cons. intros [Hc Hs].
    split; [|apply IH; exact Hs].
    intros HcU. apply dropTrailing_head. apply Hc. exact HcU.
Qed.

(** With no two adjacent underscores, dropping one at the end leaves
    none there. *)
Lemma dropTrailing_last s :
  noDoubleUnderscore s ->
  last (dropTrailingUnderscore s) <> Some UNDERSCORE.
Proof.
  induction s as [|c s IH]; [discriminate|].
  destruct s as [|d s].
  - simpl. intros _. destruct (isUnderscore c) eqn:E; simpl.
    + discriminate.
    + apply isUnderscore_false in E. congruence.
  - rewrite dropTrailing_cons. intros [Hc Hs].
    specialize (IH Hs).
    destruct (dropTrailingUnderscore (d :: s)) as [|e r] eqn:Ed.
    + (* the rest was a single underscore *)
      simpl. destruct s as [|d' s]; [|discriminate Ed].
      simpl in Ed. destruct (isUnderscore d) eqn:E; [|discriminate Ed].
      apply isUnderscore_true in E. subst d.
      intros [= ->]. apply Hc; reflexivity.
    + exact IH.
Qed.

Lemma trimUnderscores_spec (Q : N -> Prop) s :
  Forall Q s -> noDoubleUnderscore s ->
  Forall Q (trimUnderscores s)
  /\ noDoubleUnderscore (trimUnderscores s)
  /\ head (trimUnderscores s) <> Some UNDERSCORE
  /\ last (trimUnderscores s) <> Some UNDERSCORE.
Proof.
  intros HQ Hn. unfold trimUnderscores.
  assert (Hin : let s1 := match s with
                          | c :: s' => if isUnderscore c then s' else s
                          | [] => []
                          end in
                Forall Q s1 /\ noDoubleUnderscore s1
                /\ head s1 <> Some UNDERSCORE).
  { destruct s as [|c s']; simpl.
    - repeat split; [constructor|discriminate].
    - destruct (isUnderscore c) eqn:E.
      + apply isUnderscore_true in E. inversion HQ; subst.
        destruct Hn as [Hc Hs]. repeat split; auto.
      + apply isUnderscore_false in E.
        repeat split; auto; try apply Hn. simpl. congruence. }
  destruct Hin as (H1 & H2 & H3).
  repeat split.
  - apply dropTrailing_keeps, H1.
  - apply dropTrailing_noDouble, H2.
  - apply dropTrailing_head, H3.
  - apply dropTrailing_last, H2.
Qed.

Lemma noDouble_take n s :
  noDoubleUnderscore s -> noDoubleUnderscore (take n s).
Proof.
  revert n. induction s as [|c s IH]; intros [|n]; simpl; auto.
  intros [Hc Hs]. split; [|apply IH, Hs].
  intros HcU. specialize (Hc HcU).
  destruct s, n; simpl in *; congruence.
Qed.

Lemma last_take_short n (s : jsstring) :
  last (take n s) <> last s -> length (take n s) = n.
Proof.
  intros Hne. destruct (Nat.le_gt_cases (length s) n) as [Hle|Hgt].
  - rewrite take_ge in Hne by exact Hle. congruence.
  - rewrite length_take. lia.
Qed.

(** What [sanitizeFileName] guarantees of its result. *)
Lemma sanitizeFileName_spec name :
  let r := sanitizeFileName name in
  Forall clean r
  /\ noDoubleUnderscore r
  /\ head r <> Some UNDERSCORE
  /\ (length r <= 200)%nat
  /\ (last r = Some UNDERSCORE -> length r = 200%nat).
Proof.
  unfold sanitizeFileName, slice0.
  set (s1 := replaceClass illegalChar name).
  set (s2 := replaceRuns whiteSpace false s1).
  set (s3 := replaceRuns isUnderscore false s2).
  assert (H3 : Forall clean s3).
  { apply replaceRuns_keeps; [exact clean_underscore|].
    apply Forall_and. split.
    - apply replaceRuns_keeps; [reflexivity|].
      apply replaceClass_gone. reflexivity.
    - apply replaceRuns_gone. reflexivity. }
  destruct (trimUnderscores_spec clean s3 H3
              (proj1 (collapse_noDouble false s2))) as (T1 & T2 & T3 & T4).
  simpl. repeat split.
  - apply Forall_take, T1.
  - apply noDouble_take, T2.
  - destruct (trimUnderscores s3); simpl in *; congruence.
  - rewrite length_take. lia.
  - intros Hl. apply last_take_short. congruence.
Qed.

(** What holds of every name rendered from a template: it contains no
    filesystem-illegal character and no white space, has no two
    consecutive underscores, does not start with an underscore, has at
    most 200 characters, and ends with an underscore only when it has
    exactly 200 characters, that is when it was cut at the limit. *)
Lemma generateFileName_sanitized template vars :
  let r := generateFileName template vars in
  Forall clean r
  /\ noDoubleUnderscore r
  /\ head r <> Some UNDERSCORE
  /\ (length r <= 200)%nat
  /\ (last r = Some UNDERSCORE -> length r = 200%nat).
Proof. unfold generateFileName. apply sanitizeFileName_spec. Qed.

(** The illegal characters and the white space of the two classes. *)
Example clean_characters :
  Forall (fun c => illegalChar c = true)
    (str "<>:/|?*" ++ [0; 9; 10; 31; 34; 92]%N)
  /\ Forall (fun c => whiteSpace c = true) (str " " ++ [160; 8192; 12288]%N)
  /\ Forall clean (str "aZ09._-$(){}" ++ [127; 20214]%N).
Proof. repeat split; repeat constructor. Qed.

Definition someVars : FileNameVariables :=
  {| v_id := str "1700000000000-abc"; v_chatTitle := str "My Channel";
     v_chatId := str "1001"; v_date := str "2023-11-14";
     v_time := str "22-13-20"; v_type := str "video";
     v_originalName := str "clip.mp4"; v_extension := str "mp4";
     v_caption := str "a day out"; v_messageId := str "42" |}.

Example generateFileName_default :
  generateFileName (str "{chatTitle}_{date}_{id}.{extension}") someVars
  = str "My_Channel_2023-11-14_1700000000000-abc.mp4".
Proof. vm_compute. reflexivity. Qed.

(** A chat whose title has 199 letters. *)
Definition longTitleVars : FileNameVariables :=
  {| v_id := str "1700000000000-abc"; v_chatTitle := replicate 199 97%N;
     v_chatId := str "1001"; v_date := str "2023-11-14";
     v_time := str "22-13-20"; v_type := str "video";
     v_originalName := str "clip.mp4"; v_extension := str "mp4";
     v_caption := str "a day out"; v_messageId := str "42" |}.

(** C9. With the default template and a chat title of 199 letters the
    rendered name is the title followed by an underscore: the underscores
    are trimmed before the name is cut to 200 characters, and the cut
    falls right after the underscore that follows the title.  The name
    returned has a trailing underscore. *)
Theorem generateFileName_trailing_underscore :
  generateFileName (str "{chatTitle}_{date}_{id}.{extension}") longTitleVars
  = replicate 199 97%N ++ [UNDERSCORE]
  /\ last (generateFileName (str "{chatTitle}_{date}_{id}.{extension}")
            longTitleVars) = Some UNDERSCORE.
Proof. vm_compute. split; reflexivity. Qed.

End SanitizeFacts.

(** ** The file system *)

Module FsFacts.
Import Downloader.

(** *** [path.dirname] shortens a path *)

Lemma backwards_snoc (l : jsstring) (c : N) :
  Path.backwards (l ++ [c]) = (Z.of_nat (length l), c) :: Path.backwards l.
Proof.
  unfold Path.backwards. rewrite length_app. cbn [length].
  rewrite Nat2Z.inj_add, seqZ_app by lia.
  rewrite zip_with_app by (rewrite length_seqZ; lia).
  rewrite rev_app_distr. reflexivity.
Qed.

Lemma dirScan_stopped l st :
  Path.dStopped st = true -> fold_left Path.dirStep l st = st.
Proof.
  intros Hs. induction l as [|[i c] l IH]; [reflexivity|].
  cbn [fold_left]. unfold Path.dirStep at 2. rewrite Hs. exact IH.
Qed.

Lemma dirStep_cases st i c :
  Path.dStopped st = false ->
  Path.dirStep st (i, c) = st
  \/ (1 <= i /\ Path.dMatchedSlash st = false
      /\ Path.dirStep st (i, c)
         = {| Path.dEnd := i; Path.dMatchedSlash := false;
              Path.dStopped := true |})
  \/ Path.dirStep st (i, c)
     = {| Path.dEnd := Path.dEnd st; Path.dMatchedSlash := false;
          Path.dStopped := false |}.
Proof.
  intros Hs. unfold Path.dirStep. rewrite Hs. cbn [orb].
  destruct (Z.ltb_spec i 1) as [Hzero|Hpos]; [left; reflexivity|].
  destruct (N.eqb c Path.SLASH); [|right; right; reflexivity].
  destruct (Path.dMatchedSlash st) eqn:Hm; cbn [negb];
    [left; reflexivity|].
  right. left. repeat split. exact Hpos.
Qed.

(** The end that the scan of [dirname] finds is the index of a slash
    that has a character other than a slash after it. *)
Lemma dirScan_bound (l : jsstring) : forall st,
  Path.dStopped st = false ->
  let st' := fold_left Path.dirStep (Path.backwards l) st in
  Path.dEnd st' = Path.dEnd st
  \/ (1 <= Path.dEnd st' <= Z.of_nat (length l) - 1
      /\ (Path.dMatchedSlash st = true ->
          Path.dEnd st' <= Z.of_nat (length l) - 2)).
Proof.
  induction l as [|c l IH] using rev_ind; intros st Hs; cbn zeta.
  - left. reflexivity.
  - rewrite backwards_snoc. cbn [fold_left].
    rewrite length_app. cbn [length].
    destruct (dirStep_cases st (Z.of_nat (length l)) c Hs)
      as [E|[(Hpos & Hm & E)|E]]; rewrite E.
    + destruct (IH st Hs) as [E'|[[E1 E2] E3]]; [left; exact E'|].
      right. split; [lia|]. intros Hm. specialize (E3 Hm). lia.
    + rewrite dirScan_stopped by reflexivity. right.
      cbn [Path.dEnd]. split; [lia|]. rewrite Hm. discriminate.
    + destruct (IH _ (eq_refl : Path.dStopped
                {| Path.dEnd := Path.dEnd st; Path.dMatchedSlash := false;
                   Path.dStopped := false |} = false))
        as [E'|[[E1 E2] E3]].
      * left. exact E'.
      * right. split; [lia|intros _; lia].
Qed.

Lemma isRoot_cases p :
  isRoot p = true <-> p = [Path.SLASH] \/ p = [Path.DOT].
Proof.
  unfold isRoot, JS.eqb. rewrite orb_true_iff, !bool_decide_eq_true.
  reflexivity.
Qed.

(** A step up shortens the path, unless it ends at a root. *)
Lemma dirname_shorter p :
  isRoot (Path.dirname p) = false ->
  (length (Path.dirname p) < length p)%nat.
Proof.
  unfold Path.dirname. destruct p as [|c p']; [discriminate|].
  set (p := c :: p').
  pose proof (dirScan_bound p
                {| Path.dEnd := -1; Path.dMatchedSlash := true;
                   Path.dStopped := false |} eq_refl) as Hb.
  cbn zeta in Hb. cbn [Path.dEnd Path.dMatchedSlash] in Hb.
  set (st := fold_left Path.dirStep (Path.backwards p) _) in *.
  destruct (Z.eqb_spec (Path.dEnd st) (-1)) as [Hnone|Hsome].
  { destruct (N.eqb c Path.SLASH); discriminate. }
  destruct Hb as [Hb|[[B1 B2] B3]]; [contradiction|].
  specialize (B3 eq_refl).
  destruct (N.eqb c Path.SLASH && (Path.dEnd st =? 1)).
  - intros _. cbn [length] in *. lia.
  - intros _. unfold Path.sliceZ. rewrite length_take, length_drop. lia.
Qed.

(** *** The directories above a path *)

Lemma lineage_go_root fuel p : isRoot p = true -> lineage_go fuel p = [].
Proof. intros Hr. destruct fuel; [reflexivity|]. simpl. rewrite Hr.
  reflexivity. Qed.

Lemma lineage_go_shorter fuel : forall p q,
  q ∈ lineage_go fuel p -> (length q <= length p)%nat /\ isRoot q = false.
Proof.
  induction fuel as [|fuel IH]; intros p q Hq; [inversion Hq|].
  cbn [lineage_go] in Hq. destruct (isRoot p) eqn:Hr; [inversion Hq|].
  apply elem_of_cons in Hq as [->|Hq]; [split; [lia|exact Hr]|].
  destruct (isRoot (Path.dirname p)) eqn:Hd.
  - rewrite lineage_go_root in Hq by exact Hd. inversion Hq.
  - destruct (IH _ _ Hq) as [Hlen Hnr]. split; [|exact Hnr].
    pose proof (dirname_shorter p Hd). lia.
Qed.

(** The fuel of [lineage] is enough: more of it gives the same list. *)
Lemma lineage_go_enough n : forall p fuel,
  (length p <= n)%nat -> (length p < fuel)%nat ->
  lineage_go fuel p = lineage p.
Proof.
  unfold lineage. induction n as [|n IH]; intros p fuel Hn Hfuel.
  - destruct p; [|simpl in Hn; lia].
    destruct fuel as [|fuel]; [lia|]. cbn [lineage_go length].
    change (isRoot []) with false. cbv iota.
    change (Path.dirname []) with [Path.DOT].
    rewrite !lineage_go_root by reflexivity. reflexivity.
  - destruct fuel as [|fuel]; [lia|]. cbn [lineage_go].
    destruct (isRoot p) eqn:Hr; [reflexivity|]. f_equal.
    destruct (isRoot (Path.dirname p)) eqn:Hd.
    + rewrite !lineage_go_root by exact Hd. reflexivity.
    + pose proof (dirname_shorter p Hd) as Hlt.
      rewrite (IH (Path.dirname p) fuel) by lia.
      rewrite (IH (Path.dirname p) (length p)) by lia.
      reflexivity.
Qed.

Lemma lineage_unfold p :
  lineage p = if isRoot p then [] else p :: lineage (Path.dirname p).
Proof.
  unfold lineage at 1. cbn [lineage_go].
  destruct (isRoot p) eqn:Hr; [reflexivity|]. f_equal.
  destruct (isRoot (Path.dirname p)) eqn:Hd.
  - unfold lineage. rewrite !lineage_go_root by exact Hd. reflexivity.
  - pose proof (dirname_shorter p Hd) as Hlt.
    apply (lineage_go_enough (length p)); lia.
Qed.

Lemma lineage_shorter p q :
  q ∈ lineage p -> (length q <= length p)%nat /\ isRoot q = false.
Proof. apply lineage_go_shorter. Qed.



Lemma lineage_self p : isRoot p = false -> p ∈ lineage p.
Proof.
  intros Hr. rewrite lineage_unfold, Hr. apply elem_of_cons. left.
  reflexivity.
Qed.

(** *** What the calls of [fs] do *)

(** The two states have the same files. *)
Definition sameFiles (w w' : World) : Prop := files w' = files w.

Lemma holds_ext w w' p : sameFiles w w' -> holds p w' = holds p w.
Proof. unfold holds. intros ->. reflexivity. Qed.


Lemma holds_setFiles p f w :
  holds p (setFiles f w) = if isRoot p then Some Directory else f !! p.
Proof. reflexivity. Qed.

Lemma holds_not_root p w : isRoot p = false -> holds p w = files w !! p.
Proof. unfold holds. intros ->. reflexivity. Qed.

Lemma existsSync_None p w : existsSync p w = false <-> holds p w = None.
Proof. unfold existsSync. destruct (holds p w); split; congruence. Qed.

(** The file, the directory or nothing that a path holds after a key is
    written. *)
Lemma holds_insert p q c w :
  isRoot q = false ->
  holds p (setFiles (<[q := c]> (files w)) w)
  = if decide (p = q) then Some c else holds p w.
Proof.
  intros Hq. unfold holds; cbn [files setFiles].
  destruct (decide (p = q)) as [->|Hne].
  - rewrite Hq. apply lookup_insert_eq.
  - destruct (isRoot p); [reflexivity|]. apply lookup_insert_ne. congruence.
Qed.

Lemma holds_delete p q w :
  isRoot q = false ->
  holds p (setFiles (delete q (files w)) w)
  = if decide (p = q) then None else holds p w.
Proof.
  intros Hq. unfold holds; cbn [files setFiles].
  destruct (decide (p = q)) as [->|Hne].
  - rewrite Hq. apply lookup_delete_eq.
  - destruct (isRoot p); [reflexivity|]. apply lookup_delete_ne. congruence.
Qed.

Lemma holds_root_Directory p w : isRoot p = true -> holds p w = Some Directory.
Proof. unfold holds. intros ->. reflexivity. Qed.

Lemma not_Directory_not_root p w :
  holds p w <> Some Directory -> isRoot p = false.
Proof.
  intros Hh. destruct (isRoot p) eqn:Hr; [|reflexivity].
  rewrite holds_root_Directory in Hh by exact Hr. congruence.
Qed.

(** [writeFileSync] returns when the path lies in a directory and is
    not one, and then the path holds what was written and nothing else
    has changed. *)
Lemma writeFileSync_Ok p c w w1 :
  writeFileSync p c w = Ok w1 ->
  holds (Path.dirname p) w = Some Directory
  /\ holds p w <> Some Directory
  /\ w1 = setFiles (<[p := c]> (files w)) w
  /\ (forall q, holds q w1 = if decide (q = p) then Some c else holds q w).
Proof.
  unfold writeFileSync.
  destruct (holds (Path.dirname p) w) as [[| |]|] eqn:Hd; try discriminate.
  destruct (holds p w) as [[| |]|] eqn:Hp; try discriminate;
    intros [= <-];
    (split; [reflexivity|]; split; [congruence|]; split; [reflexivity|];
     intros q; apply holds_insert; apply (not_Directory_not_root p w);
     congruence).
Qed.


Lemma writeFileSync_ext p c c' w w' :
  sameFiles w w' ->
  match writeFileSync p c w, writeFileSync p c' w' with
  | Ok _, Ok _ => True
  | Throw m, Throw m' => m = m'
  | _, _ => False
  end.
Proof.
  intros Hs. unfold writeFileSync.
  rewrite !(holds_ext _ _ _ Hs).
  destruct (holds (Path.dirname p) w) as [[| |]|]; try reflexivity.
  destruct (holds p w) as [[| |]|]; try reflexivity; exact I.
Qed.

Lemma unlinkSync_Ok p w w1 :
  unlinkSync p w = Ok w1 ->
  w1 = setFiles (delete p (files w)) w
  /\ (forall q, holds q w1 = if decide (q = p) then None else holds q w).
Proof.
  unfold unlinkSync.
  destruct (holds p w) as [[| |]|] eqn:Hp; try discriminate;
    intros [= <-];
    (split; [reflexivity|]; intros q; apply holds_delete;
     apply (not_Directory_not_root p w); congruence).
Qed.

Lemma unlinkSync_returns p w :
  holds p w <> Some Directory -> holds p w <> None ->
  unlinkSync p w = Ok (setFiles (delete p (files w)) w).
Proof.
  intros Hd Hn. unfold unlinkSync.
  destruct (holds p w) as [[| |]|]; congruence.
Qed.

Lemma unlinkSync_Directory p w :
  holds p w = Some Directory ->
  unlinkSync p w = Throw (errorMessage EISDIR "unlink" p).
Proof. intros Hd. unfold unlinkSync. rewrite Hd. reflexivity. Qed.

Lemma foldr_insert_lookup (l : list jsstring) (d : gmap jsstring Content) q :
  foldr (fun q m => <[q := Directory]> m) d l !! q
  = if decide (q ∈ l) then Some Directory else d !! q.
Proof.
  induction l as [|x l IH]; cbn [foldr].
  - destruct (decide (q ∈ [])) as [Hin|_]; [inversion Hin|reflexivity].
  - destruct (decide (q = x)) as [->|Hne].
    + rewrite lookup_insert_eq.
      destruct (decide (x ∈ x :: l)) as [_|Hn]; [reflexivity|].
      exfalso. apply Hn. apply elem_of_cons. left. reflexivity.
    + rewrite lookup_insert_ne by congruence. rewrite IH.
      destruct (decide (q ∈ l)) as [Hin|Hn];
        destruct (decide (q ∈ x :: l)) as [Hin'|Hn']; try reflexivity.
      * exfalso. apply Hn'. apply elem_of_cons. right. exact Hin.
      * exfalso. apply elem_of_cons in Hin' as [?|?]; contradiction.
Qed.

(** [mkdirSync] returns when nothing that is not a directory is in the
    way, and then the path and the directories above it are there, and
    nothing else has changed. *)
Lemma mkdirSync_Ok p w w1 :
  mkdirSync p w = Ok w1 ->
  downloadTasks w1 = downloadTasks w
  /\ pausedTasks w1 = pausedTasks w
  /\ cancelledTasks w1 = cancelledTasks w
  /\ (forall q, q ∈ lineage p -> blocked w q = false)
  /\ (forall q, holds q w1
                = if decide (q ∈ lineage p) then Some Directory
                  else holds q w).
Proof.
  unfold mkdirSync. destruct p as [|c p']; [discriminate|].
  set (p := c :: p').
  destruct (blocked w p); [discriminate|].
  destruct (existsb (blocked w) (lineage p)) eqn:Hb; [discriminate|].
  intros [= <-]. repeat split.
  - intros q Hq. apply not_true_is_false. intros Hbq.
    assert (Hex : existsb (blocked w) (lineage p) = true).
    { apply existsb_exists. exists q. split; [|exact Hbq].
      apply list_elem_of_In. exact Hq. }
    congruence.
  - intros q. unfold holds; cbn [files setFiles].
    rewrite foldr_insert_lookup.
    destruct (decide (q ∈ lineage p)) as [Hq|Hq].
    + destruct (lineage_shorter _ _ Hq) as [_ ->]. reflexivity.
    + reflexivity.
Qed.


(** What [ensureDir] may change between a state and the next: the
    directories above and at the path that were missing are there;
    everything else, the registry and the flags are as before. *)
Definition grown (d : jsstring) (w w1 : World) : Prop :=
  downloadTasks w1 = downloadTasks w
  /\ pausedTasks w1 = pausedTasks w
  /\ cancelledTasks w1 = cancelledTasks w
  /\ forall q,
       holds q w1 = holds q w
       \/ (q ∈ lineage d /\ holds q w = None
           /\ holds q w1 = Some Directory).

Lemma grown_refl d w : grown d w w.
Proof. repeat split. intros q. left. reflexivity. Qed.

Lemma ensureDir_Ok d w w1 :
  ensureDir d w = Ok w1 ->
  grown d w w1
  /\ existsSync d w1 = true
  /\ (holds d w = None -> holds d w1 = Some Directory)
  /\ (holds d w <> None -> w1 = w).
Proof.
  unfold ensureDir. destruct (existsSync d w) eqn:He.
  - intros [= <-]. split; [apply grown_refl|]. split; [exact He|].
    split; [|reflexivity].
    intros Hn. apply existsSync_None in Hn. congruence.
  - intros Hm. apply existsSync_None in He.
    destruct (mkdirSync_Ok _ _ _ Hm) as (M1 & M2 & M3 & M4 & M5).
    assert (Hr : isRoot d = false).
    { destruct (isRoot d) eqn:Hr; [|reflexivity].
      rewrite holds_root_Directory in He by exact Hr. discriminate. }
    assert (Hd : holds d w1 = Some Directory).
    { rewrite M5. destruct (decide (d ∈ lineage d)) as [_|Hn];
        [reflexivity|].
      exfalso. apply Hn, lineage_self, Hr. }
    split.
    + refine (conj M1 (conj M2 (conj M3 _))). intros q. rewrite M5.
      destruct (decide (q ∈ lineage d)) as [Hq|Hq]; [|left; reflexivity].
      specialize (M4 q Hq). unfold blocked in M4.
      destruct (holds q w) as [[| |]|] eqn:Hh; try discriminate.
      * left. reflexivity.
      * right. repeat split. exact Hq.
    + split; [unfold existsSync; rewrite Hd; reflexivity|].
      split; [intros _; exact Hd|congruence].
Qed.




(** The messages of the system errors start with the code of the error:
    none of them is one of the two signals of the progress callback. *)
Lemma errorMessage_first c syscall p :
  exists rest, errorMessage c syscall p = 69%N :: rest.
Proof. destruct c; eexists; reflexivity. Qed.

Lemma errorMessage_not_signal c syscall p :
  JS.eqb (errorMessage c syscall p) MSG_PAUSED = false
  /\ JS.eqb (errorMessage c syscall p) MSG_CANCELLED = false.
Proof.
  destruct (errorMessage_first c syscall p) as [rest ->].
  split; apply bool_decide_eq_false_2; discriminate.
Qed.

(** What a call of [fs] throws is such a message. *)
Definition systemMessage (m : jsstring) : Prop :=
  exists c syscall p, m = errorMessage c syscall p.

Lemma systemMessage_not_signal m :
  systemMessage m ->
  JS.eqb m MSG_PAUSED = false /\ JS.eqb m MSG_CANCELLED = false.
Proof. intros (c & s & p & ->). apply errorMessage_not_signal. Qed.

Lemma writeFileSync_Throw p c w m :
  writeFileSync p c w = Throw m -> systemMessage m.
Proof.
  unfold writeFileSync.
  destruct (holds (Path.dirname p) w) as [[| |]|];
    try (intros [= <-]; eexists _, _, _; reflexivity).
  destruct (holds p w) as [[| |]|]; try discriminate.
  intros [= <-]. eexists _, _, _. reflexivity.
Qed.

Lemma mkdirSync_Throw p w m : mkdirSync p w = Throw m -> systemMessage m.
Proof.
  unfold mkdirSync. destruct p as [|c p'].
  { intros [= <-]. eexists _, _, _. reflexivity. }
  destruct (blocked w (c :: p')).
  { intros [= <-]. eexists _, _, _. reflexivity. }
  destruct (existsb _ _); [|discriminate].
  intros [= <-]. eexists _, _, _. reflexivity.
Qed.

Lemma ensureDir_Throw d w m : ensureDir d w = Throw m -> systemMessage m.
Proof.
  unfold ensureDir. destruct (existsSync d w); [discriminate|].
  apply mkdirSync_Throw.
Qed.

(** [removeDownloadState] changes the marker at most, and removes it
    unless it is a directory. *)
Lemma removeDownloadState_spec p w :
  let w1 := removeDownloadState p w in
  downloadTasks w1 = downloadTasks w
  /\ pausedTasks w1 = pausedTasks w
  /\ cancelledTasks w1 = cancelledTasks w
  /\ (forall q, q <> p ++ DOWNLOAD_STATE_SUFFIX -> holds q w1 = holds q w)
  /\ (holds (p ++ DOWNLOAD_STATE_SUFFIX) w <> Some Directory ->
      holds (p ++ DOWNLOAD_STATE_SUFFIX) w1 = None)
  /\ (holds (p ++ DOWNLOAD_STATE_SUFFIX) w = Some Directory -> w1 = w).
Proof.
  cbn zeta. unfold removeDownloadState.
  set (sp := p ++ DOWNLOAD_STATE_SUFFIX).
  destruct (existsSync sp w) eqn:He.
  - destruct (unlinkSync sp w) as [w1|m] eqn:Hu.
    + destruct (unlinkSync_Ok _ _ _ Hu) as [-> Hh].
      repeat split; try reflexivity.
      * intros q Hq. rewrite Hh. case_decide; congruence.
      * intros _. rewrite Hh. case_decide; congruence.
      * intros Hd. rewrite unlinkSync_Directory in Hu by exact Hd.
        discriminate.
    + repeat split; try reflexivity.
      intros Hnd. exfalso. unfold existsSync in He.
      rewrite unlinkSync_returns in Hu; [discriminate|exact Hnd|].
      destruct (holds sp w); congruence.
  - apply existsSync_None in He. repeat split; try reflexivity.
    intros _. exact He.
Qed.

(** The cleanup after a cancel changes the output path and the marker
    at most; it removes both unless one of them is a directory, and
    leaves both when the output path is one. *)
Lemma cleanup_spec p w :
  let w1 := cleanup p w in
  downloadTasks w1 = downloadTasks w
  /\ pausedTasks w1 = pausedTasks w
  /\ cancelledTasks w1 = cancelledTasks w
  /\ (forall q, q <> p -> q <> p ++ DOWNLOAD_STATE_SUFFIX ->
        holds q w1 = holds q w)
  /\ (holds p w <> Some Directory ->
      holds p w1 = None
      /\ (holds (p ++ DOWNLOAD_STATE_SUFFIX) w <> Some Directory ->
          holds (p ++ DOWNLOAD_STATE_SUFFIX) w1 = None))
  /\ (holds p w = Some Directory -> w1 = w).
Proof.
  cbn zeta. unfold cleanup.
  set (sp := p ++ DOWNLOAD_STATE_SUFFIX).
  assert (Hne : sp <> p).
  { unfold sp. intros E. apply (f_equal length) in E.
    rewrite length_app in E. simpl in E. lia. }
  destruct (removeDownloadState_spec p w) as (R1 & R2 & R3 & R4 & R5 & R6).
  fold sp in R4, R5, R6.
  destruct (existsSync p w) eqn:He.
  - destruct (unlinkSync p w) as [w1|m] eqn:Hu.
    + destruct (unlinkSync_Ok _ _ _ Hu) as [Ew1 Hh].
      destruct (removeDownloadState_spec p w1)
        as (S1 & S2 & S3 & S4 & S5 & S6).
      fold sp in S4, S5, S6.
      assert (Hsp : holds sp w1 = holds sp w).
      { rewrite Hh. case_decide; congruence. }
      refine (conj _ (conj _ (conj _ (conj _ (conj _ _))))).
      * rewrite S1, Ew1. reflexivity.
      * rewrite S2, Ew1. reflexivity.
      * rewrite S3, Ew1. reflexivity.
      * intros q Hq Hqs. rewrite S4 by exact Hqs. rewrite Hh.
        case_decide; congruence.
      * intros _. split.
        -- rewrite S4 by congruence. rewrite Hh.
           case_decide; congruence.
        -- intros Hnd. apply S5. rewrite Hsp. exact Hnd.
      * intros Hd. rewrite unlinkSync_Directory in Hu by exact Hd.
        discriminate.
    + refine (conj eq_refl (conj eq_refl (conj eq_refl
                (conj (fun _ _ _ => eq_refl) (conj _ (fun _ => eq_refl)))))).
      intros Hnd. exfalso. unfold existsSync in He.
      rewrite unlinkSync_returns in Hu; [discriminate|exact Hnd|].
      destruct (holds p w); congruence.
  - apply existsSync_None in He.
    refine (conj R1 (conj R2 (conj R3 (conj _ (conj _ _))))).
    + intros q _ Hqs. apply R4, Hqs.
    + intros _. split; [|exact R5]. rewrite R4 by congruence. exact He.
    + intros Hd. congruence.
Qed.

End FsFacts.

(** ** Output paths *)

Module NamingFacts.
Import Downloader.

(** [extStep] records the position of a dot only at a dot. *)
Lemma extStep_startDot st i c :
  Path.startDot (Path.extStep st (i, c)) = Path.startDot st \/ c = Path.DOT.
Proof.
  unfold Path.extStep.
  destruct (Path.stopped st); [left; reflexivity|].
  destruct (N.eqb c Path.SLASH).
  - destruct (negb (Path.matchedSlash st)); left; reflexivity.
  - destruct (N.eqb_spec c Path.DOT) as [->|Hc]; [right; reflexivity|].
    left. destruct (Path.endPos st =? -1); simpl;
      destruct (negb (Path.startDot st =? -1)); reflexivity.
Qed.

Lemma extScan_startDot l st :
  Path.startDot (fold_left Path.extStep l st) = Path.startDot st
  \/ exists i, In (i, Path.DOT) l.
Proof.
  revert st. induction l as [|[i c] l IH]; intros st; cbn [fold_left].
  - left. reflexivity.
  - destruct (IH (Path.extStep st (i, c))) as [E|[j Hj]].
    + rewrite E. destruct (extStep_startDot st i c) as [E'| ->].
      * left. exact E'.
      * right. exists i. left. reflexivity.
    + right. exists j. right. exact Hj.
Qed.

(** A path that has an extension contains a dot. *)
Lemma extname_includes_dot p :
  Path.extname p <> [] -> includes Path.DOT p = true.
Proof.
  unfold Path.extname. intros Hext.
  destruct (extScan_startDot (Path.backwards p)
              {| Path.startDot := -1; Path.startPart := 0;
                 Path.endPos := -1; Path.matchedSlash := true;
                 Path.preDotState := 0; Path.stopped := false |})
    as [E|[i Hi]].
  - rewrite E in Hext. simpl in Hext. congruence.
  - unfold includes. apply existsb_exists. exists Path.DOT.
    split; [|apply N.eqb_refl].
    unfold Path.backwards in Hi. apply in_rev in Hi.
    apply list_elem_of_In. apply list_elem_of_In in Hi.
    eapply elem_of_zip_r. exact Hi.
Qed.

Section WithRuntime.
Context `{Runtime}.

(** What [getExtension] gives for a record: the extension of its file
    name or, failing that, what the table of MIME types has for its MIME
    type; the empty string when neither gives anything. *)
Definition inferredExtension (media : MediaInfo) : Value :=
  Helpers.getExtension (orElse (fileName media) []) (mimeType media).

(** A non-empty override is the file name as it is when it contains a
    dot, and is followed by what [getExtension] gives, put into the
    string, when it contains none. *)
Lemma outputFileName_override media config custom :
  custom <> [] ->
  outputFileName media config (Some custom)
  = Returns (if includes Path.DOT custom then custom
             else custom ++ toText (inferredExtension media)).
Proof. intros Hne. destruct custom as [|c n]; [congruence|reflexivity]. Qed.

(** An override that has an extension is used unchanged. *)
Lemma outputFileName_extension media config custom :
  Path.extname custom <> [] ->
  outputFileName media config (Some custom) = Returns custom.
Proof.
  intros Hext. rewrite outputFileName_override.
  - rewrite (extname_includes_dot _ Hext). reflexivity.
  - intros ->. apply Hext. reflexivity.
Qed.



End WithRuntime.





(** A video without a file name of its own. *)
Definition clip : MediaInfo :=
  {| id := str "1700000000000-abc"; messageId := 42; chatId := str "1001";
     chatTitle := str "My Channel"; type := VIDEO;
     mimeType := Some (str "video/mp4"); fileName := None;
     fileSize := 1048576; fileSizeFormatted := str "1.00 MB";
     downloadable := DOWNLOADABLE; downloadableReason := None;
     date := 1700000000000; caption := Some (str "a day out");
     duration := Some 90; width := Some 1920; height := Some 1080 |}.

Definition defaults : DownloadConfig :=
  Config.DEFAULT_DOWNLOAD_CONFIG (str "/home/u").

(** The defaults with another template. *)
Definition withTemplate (template : jsstring) : DownloadConfig :=
  {| outputDir := outputDir defaults;
     concurrentDownloads := concurrentDownloads defaults;
     chunkSize := chunkSize defaults;
     maxRetries := maxRetries defaults;
     retryDelay := retryDelay defaults;
     resumeEnabled := resumeEnabled defaults;
     speedLimit := speedLimit defaults;
     fileNameTemplate := template;
     createSubfolders := createSubfolders defaults;
     skipExisting := skipExisting defaults |}.

Definition pathOf (custom : option jsstring) : Completion jsstring :=
  (@generateOutputPath UtcRuntime.runtime clip defaults custom
     SchedulerFacts.emptyWorld).1.

Example path_from_template :
  pathOf None
  = Returns (str "/home/u/TG-Downloads/videos/My_Channel_2023-11-14_1700000000000-abc.mp4").
Proof. vm_compute. reflexivity. Qed.

Example path_from_plain_override :
  pathOf (Some (str "holiday"))
  = Returns (str "/home/u/TG-Downloads/videos/holiday.mp4").
Proof. vm_compute. reflexivity. Qed.

Example path_from_override_with_extension :
  pathOf (Some (str "holiday.mkv"))
  = Returns (str "/home/u/TG-Downloads/videos/holiday.mkv").
Proof. vm_compute. reflexivity. Qed.

(** The directories [generateOutputPath] makes on an empty disk. *)
Example directories_made :
  List.map (fun p => holds (str p)
              (@generateOutputPath UtcRuntime.runtime clip defaults None
                 SchedulerFacts.emptyWorld).2)
    ["/home/u/TG-Downloads/videos"; "/home/u/TG-Downloads"; "/home/u";
     "/home"; "/home/u/TG-Downloads/photos"]%string
  = [Some Directory; Some Directory; Some Directory; Some Directory; None].
Proof. vm_compute. reflexivity. Qed.

(** A record whose MIME type is the name of a member of
    [Object.prototype]: a document, since the provider sends the MIME
    type the uploader gave. *)
Definition oddMime : MediaInfo :=
  {| id := str "1700000000000-odd"; messageId := 44; chatId := str "1001";
     chatTitle := str "My Channel"; type := DOCUMENT;
     mimeType := Some (str "constructor"); fileName := None;
     fileSize := 2048; fileSizeFormatted := str "2.00 KB";
     downloadable := DOWNLOADABLE; downloadableReason := None;
     date := 1700000000000; caption := None;
     duration := None; width := None; height := None |}.

(** For such a record the template branch throws, and the override
    branch puts the text of the function after the override. *)
Example path_of_odd_mime :
  (@generateOutputPath UtcRuntime.runtime oddMime defaults None
     SchedulerFacts.emptyWorld)
  = (Raises TypeError, SchedulerFacts.emptyWorld)
  /\ @outputFileName UtcRuntime.runtime oddMime defaults
       (Some (str "holiday"))
     = Returns (str "holidayfunction Object() { [native code] }").
Proof. vm_compute. split; reflexivity. Qed.






(** C8. The override [.clip] has no extension and the record's
    inferred extension is [.mp4], yet the file name is the override
    without it: the override branch looks for a dot, not for an
    extension.  The template branch, which asks [path.extname], appends
    the extension to the same name. *)
Theorem override_with_dot_not_extended :
  Path.extname (str ".clip") = []
  /\ @inferredExtension UtcRuntime.runtime clip = VString (str ".mp4")
  /\ @outputFileName UtcRuntime.runtime clip defaults (Some (str ".clip"))
     = Returns (str ".clip")
  /\ @outputFileName UtcRuntime.runtime clip (withTemplate (str ".clip")) None
     = Returns (str ".clip.mp4")
  /\ (@generateOutputPath UtcRuntime.runtime clip defaults
        (Some (str ".clip")) SchedulerFacts.emptyWorld).1
     = Returns (str "/home/u/TG-Downloads/videos/.clip").
Proof. vm_compute. repeat split. Qed.

End NamingFacts.

(** ** The execution engine *)

Module EngineFacts.
Import Downloader FsFacts.

(** *** What is read off a trace *)

(** The waits, in order. *)
Definition delays (tr : list Event) : list Z :=
  omap (fun e => match e with Delay ms => Some ms | _ => None end) tr.

(** The failures handed to [onError], in order. *)
Definition errorCalls (tr : list Event) : list jsstring :=
  omap (fun e => match e with CallOnError _ m => Some m | _ => None end) tr.

(** The calls to the client, in order. *)
Definition isClientCall (e : Event) : bool :=
  match e with
  | GetEntity _ | GetMessages _ | DownloadMedia _ => true
  | _ => false
  end.

Definition clientCalls (tr : list Event) : list Event :=
  List.filter isClientCall tr.

(** The fields of a task that only the retry logic and the terminal
    branches of [executeDownload] assign. *)
Definition sameJob (t t' : DownloadTask) : Prop :=
  taskId t' = taskId t /\ media t' = media t
  /\ outputPath t' = outputPath t /\ retryCount t' = retryCount t.

Lemma sameJob_refl t : sameJob t t.
Proof. repeat split. Qed.

Lemma sameJob_trans t1 t2 t3 : sameJob t1 t2 -> sameJob t2 t3 -> sameJob t1 t3.
Proof.
  intros (A1 & A2 & A3 & A4) (B1 & B2 & B3 & B4).
  repeat split; congruence.
Qed.


(** The flags of the task in a state, as booleans. *)
Definition isPaused (t : DownloadTask) (w : World) : bool :=
  bool_decide (taskId t ∈ pausedTasks w).

Definition isCancelled (t : DownloadTask) (w : World) : bool :=
  bool_decide (taskId t ∈ cancelledTasks w).





Inductive Signal := SigPause | SigCancel.

(** What the callback finds the first time it finds a flag of the task
    set; [p] and [c] tell whether the task is in [pausedTasks] and in
    [cancelledTasks] before the steps. *)
Fixpoint firstSignal (i : jsstring) (steps : list ProviderStep) (p c : bool)
  : option Signal :=
  match steps with
  | [] => None
  | PauseRequest j :: rest => firstSignal i rest (p || JS.eqb j i) c
  | CancelRequest j :: rest => firstSignal i rest p (c || JS.eqb j i)
  | Progress _ _ _ :: rest =>
      if p then Some SigPause
      else if c then Some SigCancel
      else firstSignal i rest p c
  end.


(** The directory of the path is there or can be made: [ensureDir]
    returns. *)
Definition reachable (p : jsstring) (w : World) : Prop :=
  exists w1, ensureDir (Path.dirname p) w = Ok w1.

(** A file can be written at the path once [ensureDir] has run for its
    directory: what is there under the name of the directory is a
    directory, and the path does not hold one. *)
Definition writable (p : jsstring) (w : World) : Prop :=
  holds p w <> Some Directory
  /\ exists w1, ensureDir (Path.dirname p) w = Ok w1
                /\ holds (Path.dirname p) w1 = Some Directory.

(** The files of [w'] are those of [w], or those [ensureDir] leaves when
    it makes the directory of [p] in [w]: what passes that fail leave of
    the files. *)
Definition settled (p : jsstring) (w w' : World) : Prop :=
  sameFiles w w'
  \/ exists w1, ensureDir (Path.dirname p) w = Ok w1 /\ sameFiles w1 w'.

Lemma delays_app a b : delays (a ++ b) = delays a ++ delays b.
Proof. apply omap_app. Qed.

Lemma errorCalls_app a b : errorCalls (a ++ b) = errorCalls a ++ errorCalls b.
Proof. apply omap_app. Qed.

Lemma clientCalls_app a b :
  clientCalls (a ++ b) = clientCalls a ++ clientCalls b.
Proof. apply List.filter_app. Qed.

Lemma marker_ne (p : jsstring) : p ++ DOWNLOAD_STATE_SUFFIX <> p.
Proof.
  intros E. apply (f_equal length) in E. rewrite length_app in E.
  simpl in E. lia.
Qed.

Lemma sameFiles_refl w : sameFiles w w.
Proof. reflexivity. Qed.




(** *** States that differ by the directory of the output path *)


Lemma settled_ensured p w w1 :
  ensureDir (Path.dirname p) w = Ok w1 -> settled p w w1.
Proof. intros He. right. exists w1. split; [exact He|reflexivity]. Qed.







(** A directory that is there is reachable. *)
Lemma reachable_here p w :
  existsSync (Path.dirname p) w = true -> reachable p w.
Proof. intros He. exists w. unfold ensureDir. rewrite He. reflexivity. Qed.


Section WithRuntime.
Context `{Runtime}.
Variable config : DownloadConfig.
Variable events : DownloadEvents.

(** The engine with a connected client. *)
Local Abbreviation run := (executeDownload true config events).
Local Abbreviation run_go := (executeDownload_go true config events).

Lemma run_unfold attempts t w :
  run attempts t w = run_go (S (retriesLeft config t)) attempts 0%nat t w.
Proof. reflexivity. Qed.

(** With no client, [executeDownload] throws before it looks at the
    task. *)
Lemma executeDownload_no_client attempts t w :
  executeDownload false config events attempts t w
  = Some {| thrown := Some MSG_NO_CLIENT; task := t; world := w;
            trace := [] |}.
Proof. reflexivity. Qed.

(** The admission check. *)
Lemma run_not_downloadable attempts t w :
  downloadable (media t) <> DOWNLOADABLE ->
  let message := orElse (downloadableReason (media t)) MSG_NOT_DOWNLOADABLE in
  let t1 := setError message (setStatus FAILED t) in
  run attempts t w
  = Some {| thrown := None; task := t1; world := w;
            trace := emit (onError events) (CallOnError t1 message) |}.
Proof.
  intros Hd. rewrite run_unfold. simpl.
  rewrite bool_decide_eq_false_2 by exact Hd. reflexivity.
Qed.

(** The check for a file that is already there. *)
Lemma run_skip attempts t w :
  downloadable (media t) = DOWNLOADABLE ->
  skipExisting config = true ->
  fileExists (outputPath t) w = true ->
  let t1 := setProgress 100 (fileSize (media t)) (setStatus COMPLETED t) in
  run attempts t w
  = Some {| thrown := None; task := t1; world := w;
            trace := emit (onComplete events) (CallOnComplete t1) |}.
Proof.
  intros Hd Hs Hf. rewrite run_unfold. simpl.
  rewrite bool_decide_eq_true_2 by exact Hd. simpl.
  rewrite Hs, Hf. reflexivity.
Qed.

(** C7 (amended). Executing, with a connected client, a task whose
    record's verdict is not DOWNLOADABLE returns at once with status
    FAILED and the task's error equal to the record's downloadableReason
    when that is present and not empty, and to the fixed text
    "文件不可下载" otherwise; onError is called with that text (when a
    handler is registered) and nothing else happens: no call to the
    client, no wait, no retry, no change to the files or to retryCount.
    Without a client the execution throws at once and leaves the task as
    it was: neither FAILED nor given an error, and onError is not
    called. *)
Theorem not_downloadable_fails_at_admission connected attempts t w :
  downloadable (media t) <> DOWNLOADABLE ->
  exists o, executeDownload connected config events attempts t w = Some o
    /\ clientCalls (trace o) = [] /\ delays (trace o) = []
    /\ retryCount (task o) = retryCount t
    /\ world o = w
    /\ (connected = true ->
        thrown o = None
        /\ status (task o) = FAILED
        /\ error (task o)
           = Some (orElse (downloadableReason (media t))
                     MSG_NOT_DOWNLOADABLE)
        /\ (forall r, downloadableReason (media t) = Some r -> r <> [] ->
            error (task o) = Some r)
        /\ trace o
           = emit (onError events)
               (CallOnError (task o)
                  (orElse (downloadableReason (media t))
                     MSG_NOT_DOWNLOADABLE)))
    /\ (connected = false ->
        thrown o = Some MSG_NO_CLIENT /\ task o = t /\ trace o = []).
Proof.
  intros Hd. destruct connected.
  - eexists. split; [apply run_not_downloadable, Hd|]. simpl.
    refine (conj _ (conj _ (conj eq_refl (conj eq_refl (conj _ _))))).
    + destruct (onError events); reflexivity.
    + destruct (onError events); reflexivity.
    + intros _. refine (conj eq_refl (conj eq_refl (conj eq_refl
                          (conj _ eq_refl)))).
      intros r -> Hr. destruct r; [congruence|reflexivity].
    + discriminate.
  - eexists. split; [apply executeDownload_no_client|]. simpl.
    refine (conj eq_refl (conj eq_refl (conj eq_refl (conj eq_refl
              (conj _ _))))).
    + discriminate.
    + intros _. repeat split.
Qed.

(** C4 (amended). Executing, with a connected client, a task whose
    record's verdict is DOWNLOADABLE, with skipExisting set and a file
    present at the task's output path, makes no call to the client and
    ends with status COMPLETED and progress 100 (and downloadedBytes set
    to the record's size); only onComplete is called, and the files are
    left as they are.  Without a client the execution throws at once and
    leaves the task as it was. *)
Theorem skip_existing_completes connected attempts t w :
  downloadable (media t) = DOWNLOADABLE ->
  skipExisting config = true ->
  fileExists (outputPath t) w = true ->
  exists o, executeDownload connected config events attempts t w = Some o
    /\ clientCalls (trace o) = []
    /\ world o = w
    /\ (connected = true ->
        thrown o = None
        /\ status (task o) = COMPLETED
        /\ progress (task o) = 100
        /\ downloadedBytes (task o) = fileSize (media t)
        /\ trace o = emit (onComplete events) (CallOnComplete (task o)))
    /\ (connected = false ->
        thrown o = Some MSG_NO_CLIENT /\ task o = t /\ trace o = []).
Proof.
  intros Hd Hs Hf. destruct connected.
  - eexists. split; [apply run_skip; assumption|]. simpl.
    refine (conj _ (conj eq_refl (conj _ _))).
    + destruct (onComplete events); reflexivity.
    + intros _. repeat split.
    + discriminate.
  - eexists. split; [apply executeDownload_no_client|]. simpl.
    refine (conj eq_refl (conj eq_refl (conj _ _))).
    + discriminate.
    + intros _. repeat split.
Qed.

(** *** One pass through the [try] block *)

Lemma flag_after_pause i j w :
  bool_decide (i ∈ pausedTasks (pauseDownload j w))
  = bool_decide (i ∈ pausedTasks w) || JS.eqb j i.
Proof.
  unfold JS.eqb, pauseDownload; simpl.
  destruct (decide (j = i)) as [->|Hne].
  - rewrite (bool_decide_eq_true_2 (i = i)) by reflexivity.
    rewrite orb_true_r. apply bool_decide_eq_true_2.
    apply elem_of_union_l, elem_of_singleton. reflexivity.
  - rewrite (bool_decide_eq_false_2 (j = i)) by exact Hne.
    rewrite orb_false_r. apply bool_decide_ext.
    rewrite elem_of_union, elem_of_singleton. intuition congruence.
Qed.

Lemma flag_after_cancel i j w :
  bool_decide (i ∈ cancelledTasks (cancelDownload j w))
  = bool_decide (i ∈ cancelledTasks w) || JS.eqb j i.
Proof.
  unfold JS.eqb, cancelDownload; simpl.
  destruct (decide (j = i)) as [->|Hne].
  - rewrite (bool_decide_eq_true_2 (i = i)) by reflexivity.
    rewrite orb_true_r. apply bool_decide_eq_true_2.
    apply elem_of_union_l, elem_of_singleton. reflexivity.
  - rewrite (bool_decide_eq_false_2 (j = i)) by exact Hne.
    rewrite orb_false_r. apply bool_decide_ext.
    rewrite elem_of_union, elem_of_singleton. intuition congruence.
Qed.


Lemma updateProgress_sameJob t c downloaded total now :
  sameJob t (updateProgress t c downloaded total now).1
  /\ status (updateProgress t c downloaded total now).1 = status t.
Proof.
  unfold updateProgress. destruct (500 <? now - lastProgressTime c); simpl;
    repeat split.
Qed.

(** What the transfer leaves behind, whatever the callback finds: the
    job is the same, the files are untouched, nothing is waited for and
    [onError] is not called; and the status tells how the transfer
    ended. *)
Lemma runTransfer_signal steps : forall t w c,
  let i := taskId t in
  let o := runTransfer events steps t w c in
  sameJob t (task o)
  /\ files (world o) = files w
  /\ delays (trace o) = [] /\ errorCalls (trace o) = []
  /\ clientCalls (trace o) = []
  /\ match firstSignal i steps (bool_decide (i ∈ pausedTasks w))
             (bool_decide (i ∈ cancelledTasks w)) with
     | Some SigPause =>
         thrown o = Some MSG_PAUSED /\ status (task o) = PAUSED
     | Some SigCancel =>
         thrown o = Some MSG_CANCELLED /\ status (task o) = CANCELLED
     | None => thrown o = None /\ status (task o) = status t
     end.
Proof.
  induction steps as [|s rest IH]; intros t w c; cbn zeta.
  - simpl. repeat split.
  - destruct s as [downloaded total now | j | j].
    + cbn [runTransfer firstSignal]. unfold progressCallback.
      destruct (bool_decide (taskId t ∈ pausedTasks w)) eqn:Ep.
      { simpl. repeat split; destruct (onPause events); reflexivity. }
      destruct (bool_decide (taskId t ∈ cancelledTasks w)) eqn:Ec.
      { simpl. repeat split. }
      destruct (updateProgress t c downloaded total now) as [t1 c1] eqn:Eu.
      cbn [thrown task world trace].
      pose proof (updateProgress_sameJob t c downloaded total now) as [Hj Hs].
      rewrite Eu in Hj, Hs. simpl in Hj, Hs.
      specialize (IH t1 w c1). cbn zeta in IH.
      destruct IH as (I1 & I2 & I3 & I4 & I5 & I6).
      assert (Hid : taskId t1 = taskId t) by apply Hj.
      rewrite Hid, Ep, Ec in I6.
      refine (conj _ (conj _ (conj _ (conj _ (conj _ _))))).
      * eapply sameJob_trans; eassumption.
      * exact I2.
      * rewrite delays_app, I3. destruct (onProgress events); reflexivity.
      * rewrite errorCalls_app, I4. destruct (onProgress events); reflexivity.
      * rewrite clientCalls_app, I5. destruct (onProgress events); reflexivity.
      * destruct (firstSignal (taskId t) rest false false) as [[|]|];
          destruct I6 as [I6 I7]; split; congruence.
    + cbn [runTransfer firstSignal].
      specialize (IH t (pauseDownload j w) c). cbn zeta in IH.
      rewrite flag_after_pause in IH. exact IH.
    + cbn [runTransfer firstSignal].
      specialize (IH t (cancelDownload j w) c). cbn zeta in IH.
      rewrite flag_after_cancel in IH. exact IH.
Qed.

(** The transfer leaves the registry alone. *)
Lemma runTransfer_registry steps : forall t w c,
  downloadTasks (world (runTransfer events steps t w c)) = downloadTasks w.
Proof.
  induction steps as [|s rest IH]; intros t w c; [reflexivity|].
  destruct s as [downloaded total now | j | j]; cbn [runTransfer].
  - unfold progressCallback.
    destruct (bool_decide (taskId t ∈ pausedTasks w)); [reflexivity|].
    destruct (bool_decide (taskId t ∈ cancelledTasks w)); [reflexivity|].
    destruct (updateProgress t c downloaded total now) as [t1 c1].
    cbn [thrown task world trace]. apply IH.
  - rewrite IH. reflexivity.
  - rewrite IH. reflexivity.
Qed.



Lemma ensureDir_flags d w w1 :
  ensureDir d w = Ok w1 ->
  pausedTasks w1 = pausedTasks w /\ cancelledTasks w1 = cancelledTasks w.
Proof.
  intros He. apply ensureDir_Ok in He as ((_ & Hp & Hc & _) & _).
  split; assumption.
Qed.

(** A pass that finds the directory of the output path unusable: the
    error of [ensureDir] is thrown before the transfer is asked for. *)
Lemma tryBlock_blocked a es t w now steps fin m :
  fetch a = Transfer now steps fin ->
  ensureDir (Path.dirname (outputPath t)) w = Throw m ->
  tryBlock events a es t w
  = {| thrown := Some m; task := t; world := w;
       trace := [GetEntity (chatId (media t));
                 GetMessages (messageId (media t))] |}.
Proof. intros Hf He. unfold tryBlock. rewrite Hf, He. reflexivity. Qed.

(** A transfer, with what the callback finds during it. *)
Lemma tryBlock_transfer a es t w w1 now steps fin :
  fetch a = Transfer now steps fin ->
  ensureDir (Path.dirname (outputPath t)) w = Ok w1 ->
  let o := tryBlock events a es t w in
  let p := outputPath t in
  sameJob t (task o)
  /\ delays (trace o) = [] /\ errorCalls (trace o) = []
  /\ match firstSignal (taskId t) steps (isPaused t w) (isCancelled t w) with
     | Some SigPause =>
         thrown o = Some MSG_PAUSED /\ status (task o) = PAUSED
         /\ sameFiles w1 (world o)
     | Some SigCancel =>
         thrown o = Some MSG_CANCELLED /\ status (task o) = CANCELLED
         /\ sameFiles w1 (world o)
     | None =>
         match fin with
         | Buffer bytes =>
             match writeFileSync p (FileBytes bytes) w1 with
             | Throw m =>
                 thrown o = Some m /\ status (task o) = status t
                 /\ sameFiles w1 (world o)
             | Ok _ =>
                 thrown o = None /\ status (task o) = COMPLETED
                 /\ progress (task o) = 100
                 /\ downloadedBytes (task o) = fileSize (media t)
                 /\ endTime (task o) = Some (clockEnd a)
                 /\ holds p (world o) = Some (FileBytes bytes)
                 /\ (holds (p ++ DOWNLOAD_STATE_SUFFIX) w1 <> Some Directory ->
                     holds (p ++ DOWNLOAD_STATE_SUFFIX) (world o) = None)
                 /\ (forall q, q <> p -> q <> p ++ DOWNLOAD_STATE_SUFFIX ->
                       holds q (world o) = holds q w1)
             end
         | NoBuffer =>
             thrown o = Some MSG_EMPTY /\ status (task o) = status t
             /\ sameFiles w1 (world o)
         | TransferError m =>
             thrown o = Some m /\ status (task o) = status t
             /\ sameFiles w1 (world o)
         end
     end.
Proof.
  intros Hf He. cbn zeta. unfold tryBlock. rewrite Hf, He. cbn zeta.
  set (c := {| lastProgressTime := now; lastDownloadedBytes := _ |}).
  pose proof (runTransfer_signal steps t w1 c) as Hsig. cbn zeta in Hsig.
  destruct Hsig as (S1 & S2 & S3 & S4 & S5 & S6).
  destruct (ensureDir_flags _ _ _ He) as [Ep Ec].
  rewrite Ep, Ec in S6. unfold isPaused, isCancelled.
  set (o1 := runTransfer events steps t w1 c) in *.
  assert (Hsame : sameFiles w1 (world o1)) by exact S2.
  destruct (firstSignal (taskId t) steps _ _) as [[|]|].
  - destruct S6 as [S6 S7]. rewrite S6. simpl.
    exact (conj S1 (conj S3 (conj S4 (conj eq_refl (conj S7 Hsame))))).
  - destruct S6 as [S6 S7]. rewrite S6. simpl.
    exact (conj S1 (conj S3 (conj S4 (conj eq_refl (conj S7 Hsame))))).
  - destruct S6 as [S6 S7]. rewrite S6.
    destruct fin as [bytes| |m].
    + pose proof (writeFileSync_ext (outputPath t) (FileBytes bytes)
                    (FileBytes bytes) w1 (world o1) Hsame) as Hx.
      destruct (writeFileSync (outputPath t) (FileBytes bytes) w1)
        as [w2'|m1];
        destruct (writeFileSync (outputPath t) (FileBytes bytes) (world o1))
          as [w2|m2] eqn:Ew; try contradiction.
      * cbn [thrown task world trace].
        apply writeFileSync_Ok in Ew as (_ & _ & _ & Hw2).
        pose proof (removeDownloadState_spec (outputPath t) w2) as Hr.
        cbn zeta in Hr. destruct Hr as (_ & _ & _ & R1 & R2 & _).
        refine (conj S1 (conj _ (conj _ (conj eq_refl (conj eq_refl
                  (conj eq_refl (conj eq_refl (conj eq_refl
                  (conj _ (conj _ _)))))))))).
        -- rewrite !delays_app, S3. destruct (onComplete events); reflexivity.
        -- rewrite !errorCalls_app, S4.
           destruct (onComplete events); reflexivity.
        -- rewrite R1 by (intros E; symmetry in E; exact (marker_ne _ E)).
           rewrite Hw2. rewrite decide_True by reflexivity. reflexivity.
        -- intros Hnd. apply R2. rewrite Hw2.
           rewrite decide_False by apply marker_ne.
           rewrite (holds_ext _ _ _ Hsame). exact Hnd.
        -- intros q Hq1 Hq2. rewrite R1 by exact Hq2. rewrite Hw2.
           rewrite decide_False by exact Hq1. apply holds_ext, Hsame.
      * subst m2. simpl.
        exact (conj S1 (conj S3 (conj S4 (conj eq_refl (conj S7 Hsame))))).
    + simpl.
      exact (conj S1 (conj S3 (conj S4 (conj eq_refl (conj S7 Hsame))))).
    + simpl.
      exact (conj S1 (conj S3 (conj S4 (conj eq_refl (conj S7 Hsame))))).
Qed.




(** *** The retries *)





(** An outcome with earlier events put before its trace. *)
Definition after (pre : list Event) (o : Outcome) : Outcome :=
  {| thrown := thrown o; task := task o; world := world o;
     trace := pre ++ trace o |}.











(** The waits before the retries number [r + 1] to [r + n]. *)
Definition backoff (r : Z) (n : nat) : list Z :=
  List.map (fun k => retryDelay config * k) (seqZ (r + 1) (Z.of_nat n)).







(** *** Termination *)

Lemma tryBlock_sameJob a es t w : sameJob t (task (tryBlock events a es t w)).
Proof.
  destruct (fetch a) as [m|m| | |now steps fin] eqn:Ef;
    try (unfold tryBlock; rewrite Ef; apply sameJob_refl).
  destruct (ensureDir (Path.dirname (outputPath t)) w) as [w1|m] eqn:He.
  - exact (proj1 (tryBlock_transfer a es t w w1 now steps fin Ef He)).
  - rewrite (tryBlock_blocked a es t w now steps fin m Ef He).
    apply sameJob_refl.
Qed.

(** The fuel [executeDownload] starts with is enough: it returns, with
    or without a client. *)
Lemma executeDownload_go_returns connected fuel : forall attempts k t w,
  (retriesLeft config t < fuel)%nat ->
  exists o,
    executeDownload_go connected config events fuel attempts k t w = Some o.
Proof.
  induction fuel as [|fuel IH]; intros attempts k t w Hfuel; [lia|].
  cbn [executeDownload_go].
  destruct (negb connected); [eexists; reflexivity|].
  destruct (negb (bool_decide (downloadable (media t) = DOWNLOADABLE)));
    [eexists; reflexivity|].
  destruct (skipExisting config && fileExists (outputPath t) w);
    [eexists; reflexivity|].
  cbn zeta.
  set (a := attempts k).
  set (es := if resumeEnabled config then _ else _).
  set (t1 := setStartTime (clockStart a) (setStatus DOWNLOADING t)).
  pose proof (tryBlock_sameJob a es t1 w) as (_ & _ & _ & J4). simpl in J4.
  destruct (thrown (tryBlock events a es t1 w)) as [message|];
    [|eexists; reflexivity].
  unfold catchBlock.
  destruct (JS.eqb message MSG_PAUSED).
  { destruct (saveDownloadState _ _); eexists; reflexivity. }
  destruct (JS.eqb message MSG_CANCELLED); [eexists; reflexivity|].
  destruct (Z.ltb_spec (retryCount (task (tryBlock events a es t1 w)))
              (maxRetries config)) as [Hlt|Hge]; [|eexists; reflexivity].
  destruct (IH attempts (S k)
              (setRetryCount
                 (retryCount (task (tryBlock events a es t1 w)) + 1)
                 (task (tryBlock events a es t1 w)))
              (world (tryBlock events a es t1 w))) as [o' Eo'].
  { unfold retriesLeft in *. simpl. rewrite J4 in *. lia. }
  rewrite Eo'. eexists. reflexivity.
Qed.

Lemma executeDownload_returns connected attempts t w :
  exists o, executeDownload connected config events attempts t w = Some o.
Proof. apply executeDownload_go_returns. lia. Qed.

End WithRuntime.

End EngineFacts.

(** ** Executions of the engine on concrete tasks *)

Module Scenarios.
Import Downloader FsFacts EngineFacts.

Definition allEvents : DownloadEvents :=
  {| onStart := true; onProgress := true; onComplete := true;
     onError := true; onPause := true; onResume := true |}.

(** The default configuration: three retries, 2000 ms, skipExisting. *)
Definition config : DownloadConfig := NamingFacts.defaults.


(** The task [createDownloadTask] makes for a record, on an empty disk
    and with an empty registry, and the state it leaves.  The records
    below are records it makes a task for. *)
Definition newTask (i : jsstring) (m : MediaInfo) : DownloadTask * World :=
  match
    @createDownloadTask UtcRuntime.runtime i m config None
      SchedulerFacts.emptyWorld
  with
  | (Returns t, w) => (t, w)
  | (Raises _, w) =>
      ({| taskId := i; media := m; status := PENDING; progress := 0;
          downloadedBytes := 0; speed := 0%Q; speedFormatted := [];
          eta := None; outputPath := []; customFileName := None;
          error := None; retryCount := 0; startTime := None;
          endTime := None |}, w)
  end.

Definition executeIn (connected : bool) (cfg : DownloadConfig)
    (attempts : nat -> Attempt) (tw : DownloadTask * World)
  : option Outcome :=
  @executeDownload UtcRuntime.runtime connected cfg allEvents attempts
    tw.1 tw.2.

Definition execute := executeIn true config.

(** The state with something put at a path. *)
Definition put (p : jsstring) (c : Content) (w : World) : World :=
  setFiles (<[p := c]> (files w)) w.

(** The task made for the video [clip]. *)
Definition clipTask : DownloadTask * World :=
  Eval vm_compute in newTask (str "1700000000001-t1") NamingFacts.clip.

Example clipTask_made :
  @createDownloadTask UtcRuntime.runtime (str "1700000000001-t1")
    NamingFacts.clip config None SchedulerFacts.emptyWorld
  = (Returns clipTask.1, clipTask.2)
  /\ outputPath clipTask.1
     = str "/home/u/TG-Downloads/videos/My_Channel_2023-11-14_1700000000000-abc.mp4"
  /\ getTask (str "1700000000001-t1") clipTask.2 = Some clipTask.1.
Proof. vm_compute. repeat split. Qed.

(** A transfer that reports progress twice and then breaks. *)
Definition breaks : Attempt :=
  {| clockStart := 1000;
     fetch := Transfer 1000
                [Progress 1024 1048576 1200;
                 PauseRequest (str "1700000000002-t2");
                 Progress 524288 1048576 1900]
                (TransferError (str "ECONNRESET"));
     clockEnd := 2000 |}.

(** A transfer during which the task is cancelled. *)
Definition cancelledMidway : Attempt :=
  {| clockStart := 5000;
     fetch := Transfer 5000
                [Progress 1024 1048576 5200;
                 CancelRequest (str "1700000000001-t1");
                 Progress 524288 1048576 5900;
                 Progress 1048576 1048576 6500]
                (Buffer [1; 2; 3]%N);
     clockEnd := 7000 |}.

(** A transfer that goes through. *)
Definition succeeds : Attempt :=
  {| clockStart := 1000;
     fetch := Transfer 1000
                [Progress 524288 1048576 1900; Progress 1048576 1048576 2800]
                (Buffer [1; 2; 3]%N);
     clockEnd := 3000 |}.

Definition brokenThenCancelled (k : nat) : Attempt :=
  match k with
  | O => breaks
  | S _ => cancelledMidway
  end.

Definition fileAt (p : jsstring) (o : Outcome) : option Content :=
  holds p (world o).

Example clip_downloads :
  option_map
    (fun o => (status (task o), progress (task o), speedFormatted (task o),
               fileAt (outputPath clipTask.1) o, delays (trace o)))
    (execute (fun _ => succeeds) clipTask)
  = Some (COMPLETED, 100, str "568.89 KB/s", Some (FileBytes [1; 2; 3]%N),
          []).
Proof. vm_compute. reflexivity. Qed.

Example clip_breaks_four_times :
  option_map
    (fun o => (status (task o), error (task o), retryCount (task o),
               delays (trace o), errorCalls (trace o),
               length (clientCalls (trace o))))
    (execute (fun _ => breaks) clipTask)
  = Some (FAILED, Some (str "ECONNRESET"), 3, [2000; 4000; 6000],
          [str "ECONNRESET"], 12%nat).
Proof. vm_compute. reflexivity. Qed.

Example clip_cancelled_on_retry :
  option_map
    (fun o => (status (task o), retryCount (task o), delays (trace o),
               fileAt (outputPath clipTask.1) o,
               fileAt (outputPath clipTask.1 ++ DOWNLOAD_STATE_SUFFIX) o))
    (execute brokenThenCancelled clipTask)
  = Some (CANCELLED, 1, [2000], None, None).
Proof. vm_compute. reflexivity. Qed.

(** The state in which a file has taken the place of the directory of
    the videos: the buffer cannot be written, each time. *)
Definition clipBlocked : DownloadTask * World :=
  (clipTask.1,
   put (str "/home/u/TG-Downloads/videos") (FileBytes [0]%N) clipTask.2).

Example clip_blocked_fails :
  option_map
    (fun o => (status (task o), error (task o), retryCount (task o),
               delays (trace o), length (clientCalls (trace o))))
    (execute (fun _ => succeeds) clipBlocked)
  = Some (FAILED,
          Some (str "ENOTDIR: not a directory, open '/home/u/TG-Downloads/videos/My_Channel_2023-11-14_1700000000000-abc.mp4'"),
          3, [2000; 4000; 6000], 12%nat).
Proof. vm_compute. reflexivity. Qed.



Lemma clipTask_reachable : reachable (outputPath clipTask.1) clipTask.2.
Proof. apply reachable_here. vm_compute. reflexivity. Defined.








(** The state in which the file of [clipTask] is already there. *)
Definition clipPresent : DownloadTask * World :=
  (clipTask.1,
   put (outputPath clipTask.1) (FileBytes [9; 9]%N) clipTask.2).

Lemma skip_existing_completes_witness :
  exists o,
    execute (fun _ => succeeds) clipPresent = Some o
    /\ clientCalls (trace o) = []
    /\ world o = clipPresent.2
    /\ thrown o = None
    /\ status (task o) = COMPLETED
    /\ progress (task o) = 100
    /\ downloadedBytes (task o) = 1048576
    /\ trace o = [CallOnComplete (task o)].
Proof.
  destruct (@skip_existing_completes UtcRuntime.runtime config allEvents
              true (fun _ => succeeds) clipPresent.1 clipPresent.2
              eq_refl eq_refl)
    as (o & E & T1 & T2 & T3 & _).
  - vm_compute. reflexivity.
  - exists o. exact (conj E (conj T1 (conj T2 (T3 eq_refl)))).
Defined.

(** A record the classifier found too large, and one marked restricted
    by other means, which carries no reason. *)
Definition tooLarge : MediaInfo :=
  {| id := str "1700000000000-big"; messageId := 50; chatId := str "1001";
     chatTitle := str "My Channel"; type := VIDEO;
     mimeType := Some (str "video/mp4"); fileName := Some (str "film.mp4");
     fileSize := 3000000000; fileSizeFormatted := str "2.79 GB";
     downloadable := TOO_LARGE;
     downloadableReason :=
       Some (Aggregator.tooLargePrefix ++ str "2.79 GB)");
     date := 1700000000000; caption := None;
     duration := Some 7200; width := Some 1920; height := Some 1080 |}.

Definition restricted : MediaInfo :=
  {| id := str "1700000000000-res"; messageId := 51; chatId := str "1001";
     chatTitle := str "My Channel"; type := DOCUMENT;
     mimeType := Some (str "application/pdf");
     fileName := Some (str "report.pdf");
     fileSize := 2048; fileSizeFormatted := str "2.00 KB";
     downloadable := RESTRICTED; downloadableReason := None;
     date := 1700000000000; caption := None;
     duration := None; width := None; height := None |}.

Definition tooLargeTask : DownloadTask * World :=
  Eval vm_compute in newTask (str "1700000000003-t3") tooLarge.

Definition tooLargePresent : DownloadTask * World :=
  (tooLargeTask.1,
   put (outputPath tooLargeTask.1) (FileBytes [9; 9]%N) tooLargeTask.2).

Definition restrictedTask : DownloadTask * World :=
  Eval vm_compute in newTask (str "1700000000004-t4") restricted.

(** With skipExisting set and a file at the output path, the task of a
    record that is too large ends FAILED, not COMPLETED: the verdict is
    checked first.  And the task of the clip, whose file is there, stays
    PENDING when no client is connected: the execution throws. *)
Lemma skip_existing_after_admission :
  skipExisting config = true
  /\ fileExists (outputPath tooLargePresent.1) tooLargePresent.2 = true
  /\ option_map (fun o => (status (task o), progress (task o)))
       (execute (fun _ => succeeds) tooLargePresent)
     = Some (FAILED, 0)
  /\ fileExists (outputPath clipPresent.1) clipPresent.2 = true
  /\ option_map (fun o => (thrown o, status (task o), progress (task o)))
       (executeIn false config (fun _ => succeeds) clipPresent)
     = Some (Some MSG_NO_CLIENT, PENDING, 0).
Proof. vm_compute. repeat split. Qed.

Lemma not_downloadable_fails_at_admission_witness :
  exists o,
    execute (fun _ => succeeds) tooLargeTask = Some o
    /\ status (task o) = FAILED
    /\ error (task o) = downloadableReason tooLarge
    /\ trace o = [CallOnError (task o)
                    (Aggregator.tooLargePrefix ++ str "2.79 GB)")]
    /\ clientCalls (trace o) = [] /\ delays (trace o) = [].
Proof.
  destruct (@not_downloadable_fails_at_admission UtcRuntime.runtime config
              allEvents true (fun _ => succeeds) tooLargeTask.1
              tooLargeTask.2)
    as (o & E & T1 & T2 & _ & _ & T3 & _).
  - discriminate.
  - destruct (T3 eq_refl) as (_ & T4 & T5 & _ & T6).
    exists o. exact (conj E (conj T4 (conj T5 (conj T6 (conj T1 T2))))).
Defined.

(** The task of the restricted record ends FAILED with the fixed text as
    its error, though the record has no downloadableReason.  And the task
    of the record that is too large is not FAILED and has no error when
    no client is connected: the execution throws, and onError is not
    called. *)
Lemma error_without_reason :
  downloadable restricted <> DOWNLOADABLE
  /\ downloadableReason restricted = None
  /\ option_map (fun o => (status (task o), error (task o)))
       (execute (fun _ => succeeds) restrictedTask)
     = Some (FAILED, Some MSG_NOT_DOWNLOADABLE)
  /\ option_map (fun o => error (task o))
       (execute (fun _ => succeeds) restrictedTask)
     <> Some (downloadableReason restricted)
  /\ option_map
       (fun o => (thrown o, status (task o), error (task o), trace o))
       (executeIn false config (fun _ => succeeds) tooLargeTask)
     = Some (Some MSG_NO_CLIENT, PENDING, None, []).
Proof. vm_compute. repeat split; discriminate. Qed.

End Scenarios.

(** * More of the code *)

(** ** core/aggregator.ts: the scan, the statistics and the groups *)

Module Pipeline.
Import Aggregator.

(** [SearchFilter]: every field may be left out. *)
Record SearchFilter := {
  mediaTypes : option (list MediaType);
  minSize : option Z;
  maxSize : option Z;
  startDate : option Z;
  endDate : option Z;
  keyword : option jsstring;
  downloadableOnly : option bool;
}.

(** What [client.iterMessages] yields: a message, or something that is
    not an [Api.Message]. *)
Inductive Item :=
| ItemMessage (message : Message)
| ItemOther.

(** [l.includes(t)]. *)
Definition includesType (t : MediaType) (l : list MediaType) : bool :=
  existsb (fun u => bool_decide (u = t)) l.

(** A number used as a condition: [undefined] and 0 are falsy. *)
Definition truthyNumber (n : option Z) : option Z :=
  match n with
  | Some 0 => None
  | other => other
  end.

(** The tests under [if (filter)] in the loop of [aggregateMedia]:
    [true] when none of them runs into [continue]. *)
Definition retained (filter : SearchFilter) (mediaInfo : MediaInfo) : bool :=
  match mediaTypes filter with
  | Some l => includesType (type mediaInfo) l
  | None => true
  end
  && match truthyNumber (minSize filter) with
     | Some m => negb (fileSize mediaInfo <? m)
     | None => true
     end
  && match truthyNumber (maxSize filter) with
     | Some m => negb (m <? fileSize mediaInfo)
     | None => true
     end
  && match startDate filter with
     | Some d => negb (date mediaInfo <? d)
     | None => true
     end
  && match endDate filter with
     | Some d => negb (d <? date mediaInfo)
     | None => true
     end
  && match downloadableOnly filter with
     | Some true => bool_decide (downloadable mediaInfo = DOWNLOADABLE)
     | _ => true
     end.

(** The state of the loop: the records pushed so far (first one first),
    the counter [processed] and the calls of [progressCallback]. *)
Record Scan := {
  mediaList : list MediaInfo;
  processed : Z;
  progressCalls : list (Z * Z);
}.

Section WithRuntime.
Context `{Runtime}.

(** [ids k] is what [generateId()] returns in the turn of the loop in
    which [processed] becomes [k]. *)
Variable ids : Z -> jsstring.
Variable chatId chatTitle : jsstring.
Variable filter : option SearchFilter.
Variable limit : Z.
(** Whether a [progressCallback] was given. *)
Variable reports : bool.

(** One turn of the [for await] loop. *)
Definition scanStep (s : Scan) (item : Item) : Scan :=
  match item with
  | ItemOther => s
  | ItemMessage message =>
      let processed' := processed s + 1 in
      let calls :=
        if reports then progressCalls s ++ [(processed', limit)]
        else progressCalls s in
      match extractMediaInfo (ids processed') message chatId chatTitle with
      | None =>
          {| mediaList := mediaList s; processed := processed';
             progressCalls := calls |}
      | Some mediaInfo =>
          let keep :=
            match filter with
            | Some f => retained f mediaInfo
            | None => true
            end in
          {| mediaList :=
               if keep then mediaList s ++ [mediaInfo] else mediaList s;
             processed := processed'; progressCalls := calls |}
      end
  end.

(** The loop of [aggregateMedia] over what [iterMessages] yields. *)
Definition aggregateMedia (items : list Item) : Scan :=
  fold_left scanStep items
    {| mediaList := []; processed := 0; progressCalls := [] |}.

End WithRuntime.

(** [generateStats]. *)
Record TypeStat := {
  count : Z;
  size : Z;
}.

Record AggregationStats := {
  totalMessages : Z;
  totalMedia : Z;
  totalSize : Z;
  totalSizeFormatted : jsstring;
  byType : MediaType -> TypeStat;
  byDownloadable : DownloadableType -> Z;
  rangeStart : Z;
  rangeEnd : Z;
}.

(** One turn of the loop of [generateStats]. *)
Definition statsStep (stats : AggregationStats) (media : MediaInfo)
  : AggregationStats :=
  {| totalMessages := totalMessages stats;
     totalMedia := totalMedia stats;
     totalSize := totalSize stats + fileSize media;
     totalSizeFormatted := totalSizeFormatted stats;
     byType := fun t =>
       if bool_decide (t = type media) then
         {| count := count (byType stats t) + 1;
            size := size (byType stats t) + fileSize media |}
       else byType stats t;
     byDownloadable := fun d =>
       if bool_decide (d = downloadable media) then byDownloadable stats d + 1
       else byDownloadable stats d;
     rangeStart :=
       if date media <? rangeStart stats then date media
       else rangeStart stats;
     rangeEnd :=
       if rangeEnd stats <? date media then date media
       else rangeEnd stats |}.

Section Stats.
Context `{Runtime}.

(** [now] is the time [new Date()] gives. *)
Definition generateStats (now : Z) (mediaList : list MediaInfo)
  : AggregationStats :=
  let stats :=
    fold_left statsStep mediaList
      {| totalMessages := Z.of_nat (length mediaList);
         totalMedia := Z.of_nat (length mediaList);
         totalSize := 0;
         totalSizeFormatted := [];
         byType := fun _ => {| count := 0; size := 0 |};
         byDownloadable := fun _ => 0;
         rangeStart := now;
         rangeEnd := 0 |} in
  {| totalMessages := totalMessages stats;
     totalMedia := totalMedia stats;
     totalSize := totalSize stats;
     totalSizeFormatted := formatFileSize (inject_Z (totalSize stats));
     byType := byType stats;
     byDownloadable := byDownloadable stats;
     rangeStart := rangeStart stats;
     rangeEnd := rangeEnd stats |}.

End Stats.

(** A [Map] whose keys are compared with [===], in insertion order. *)
Section Groups.
Context {K : Type} `{EqDecision K}.
Variable key : MediaInfo -> K.

Fixpoint groupGet (k : K) (groups : list (K * list MediaInfo))
  : option (list MediaInfo) :=
  match groups with
  | [] => None
  | (k', g) :: rest => if decide (k' = k) then Some g else groupGet k rest
  end.

(** [groups.get(k).push(media)] on a key that is there. *)
Fixpoint groupPush (k : K) (media : MediaInfo)
    (groups : list (K * list MediaInfo)) : list (K * list MediaInfo) :=
  match groups with
  | [] => []
  | (k', g) :: rest =>
      if decide (k' = k) then (k', g ++ [media]) :: rest
      else (k', g) :: groupPush k media rest
  end.

(** One turn of the loop of [groupByType] and [groupByDownloadable]. *)
Definition groupStep (groups : list (K * list MediaInfo)) (media : MediaInfo)
  : list (K * list MediaInfo) :=
  let groups1 :=
    match groupGet (key media) groups with
    | None => groups ++ [(key media, [])]
    | Some _ => groups
    end in
  groupPush (key media) media groups1.

Definition groupBy (mediaList : list MediaInfo) : list (K * list MediaInfo) :=
  fold_left groupStep mediaList [].

End Groups.

Definition groupByType := groupBy type.
Definition groupByDownloadable := groupBy downloadable.

End Pipeline.

Module PipelineFacts.
Import Aggregator Pipeline.

Section WithRuntime.
Context `{Runtime}.
Variable ids : Z -> jsstring.
Variable chatId chatTitle : jsstring.

(** The records classified from the messages of the source, in source
    order; [n] messages were examined before. *)
Fixpoint classifiedFrom (n : Z) (items : list Item) : list MediaInfo :=
  match items with
  | [] => []
  | ItemOther :: rest => classifiedFrom n rest
  | ItemMessage message :: rest =>
      match extractMediaInfo (ids (n + 1)) message chatId chatTitle with
      | Some mediaInfo => mediaInfo :: classifiedFrom (n + 1) rest
      | None => classifiedFrom (n + 1) rest
      end
  end.

Definition isMessage (item : Item) : bool :=
  match item with ItemMessage _ => true | ItemOther => false end.

(** The number of messages among the items. *)
Definition messageCount (items : list Item) : Z :=
  Z.of_nat (length (List.filter isMessage items)).

(** The test of the loop for an optional filter. *)
Definition passes (filter : option SearchFilter) (mediaInfo : MediaInfo)
  : bool :=
  match filter with
  | Some f => retained f mediaInfo
  | None => true
  end.

Lemma scan_from filter limit reports items : forall s,
  let s' := fold_left (scanStep ids chatId chatTitle filter limit reports)
              items s in
  mediaList s'
  = mediaList s
      ++ List.filter (passes filter) (classifiedFrom (processed s) items)
  /\ processed s' = processed s + messageCount items
  /\ progressCalls s'
     = progressCalls s
         ++ (if reports then
               List.map (fun k => (k, limit))
                 (seqZ (processed s + 1) (messageCount items))
             else []).
Proof.
  induction items as [|item rest IH]; intros s; cbn zeta.
  - unfold messageCount. simpl. rewrite !app_nil_r, Z.add_0_r.
    destruct reports; simpl; rewrite ?app_nil_r; repeat split.
  - cbn [fold_left]. specialize (IH (scanStep ids chatId chatTitle filter
                                       limit reports s item)).
    cbn zeta in IH. destruct IH as (I1 & I2 & I3).
    rewrite I1, I2, I3. clear I1 I2 I3.
    destruct item as [message|]; cbn [scanStep classifiedFrom].
    + assert (Hc : messageCount (ItemMessage message :: rest)
                   = 1 + messageCount rest).
      { unfold messageCount. cbn [List.filter isMessage length]. lia. }
      rewrite Hc.
      assert (Hseq : seqZ (processed s + 1) (1 + messageCount rest)
                     = (processed s + 1)
                         :: seqZ (processed s + 1 + 1) (messageCount rest)).
      { rewrite seqZ_cons by (unfold messageCount; lia).
        f_equal. f_equal; lia. }
      rewrite Hseq.
      destruct (extractMediaInfo (ids (processed s + 1)) message chatId
                  chatTitle) as [mi|]; cbn [mediaList processed progressCalls].
      * change (match filter with
                | Some f => retained f mi
                | None => true
                end) with (passes filter mi).
        cbn [List.filter].
        destruct (passes filter mi); destruct reports; cbn [List.map];
          rewrite <- ?app_assoc; repeat split; lia.
      * destruct reports; cbn [List.map]; rewrite <- ?app_assoc;
          repeat split; lia.
    + assert (Hc : messageCount (ItemOther :: rest) = messageCount rest)
        by reflexivity.
      rewrite Hc. repeat split.
Qed.

(** The scan as a whole. *)
Lemma aggregateMedia_exact filter limit reports items :
  let s := aggregateMedia ids chatId chatTitle filter limit reports items in
  mediaList s = List.filter (passes filter) (classifiedFrom 0 items)
  /\ processed s = messageCount items
  /\ progressCalls s
     = (if reports then
          List.map (fun k => (k, limit)) (seqZ 1 (messageCount items))
        else []).
Proof.
  unfold aggregateMedia.
  destruct (scan_from filter limit reports items
              {| mediaList := []; processed := 0; progressCalls := [] |})
    as (I1 & I2 & I3).
  cbn zeta. rewrite I1, I2, I3. repeat split.
Qed.

Lemma filter_sublist {A} (f : A -> bool) (l : list A) :
  sublist (List.filter f l) l.
Proof.
  induction l as [|x l IH]; simpl; [constructor|].
  destruct (f x); constructor; exact IH.
Qed.

(** The records the scan returns are, in source order, exactly the
    classified records that pass the tests of the filter: none is added,
    reordered or repeated, and none that passes is left out; without a
    filter every classified record is returned. *)
Theorem aggregateMedia_order filter limit reports items :
  let found :=
    mediaList
      (aggregateMedia ids chatId chatTitle filter limit reports items) in
  sublist found (classifiedFrom 0 items)
  /\ (forall mediaInfo,
        In mediaInfo found <->
        In mediaInfo (classifiedFrom 0 items)
        /\ passes filter mediaInfo = true)
  /\ (filter = None -> found = classifiedFrom 0 items).
Proof.
  cbn zeta. rewrite (proj1 (aggregateMedia_exact filter limit reports items)).
  split; [apply filter_sublist|]. split.
  - intros mi. apply filter_In.
  - intros ->. simpl. induction (classifiedFrom 0 items) as [|x l IH];
      simpl; [reflexivity|]. f_equal. exact IH.
Qed.

Lemma includesType_In t l : includesType t l = true -> In t l.
Proof.
  unfold includesType. intros Hx. apply existsb_exists in Hx as [u [Hu Ht]].
  apply bool_decide_eq_true in Ht. subst u. exact Hu.
Qed.

(** Every record the scan returns under a filter meets each condition
    the filter sets: its type is in [mediaTypes]; its size is at least
    [minSize] and at most [maxSize], where these are not 0; its date is
    from [startDate] to [endDate]; and it is DOWNLOADABLE when
    [downloadableOnly] is set. *)
Theorem aggregateMedia_sound f limit reports items mediaInfo :
  In mediaInfo
    (mediaList
       (aggregateMedia ids chatId chatTitle (Some f) limit reports items)) ->
  (forall l, mediaTypes f = Some l -> In (type mediaInfo) l)
  /\ (forall m, minSize f = Some m -> m <> 0 -> m <= fileSize mediaInfo)
  /\ (forall m, maxSize f = Some m -> m <> 0 -> fileSize mediaInfo <= m)
  /\ (forall d, startDate f = Some d -> d <= date mediaInfo)
  /\ (forall d, endDate f = Some d -> date mediaInfo <= d)
  /\ (downloadableOnly f = Some true ->
      downloadable mediaInfo = DOWNLOADABLE).
Proof.
  rewrite (proj1 (aggregateMedia_exact (Some f) limit reports items)).
  intros Hin. apply filter_In in Hin as [_ Hp]. simpl in Hp.
  unfold retained in Hp.
  repeat (apply andb_prop in Hp as [Hp ?]).
  repeat split.
  - intros l El. rewrite El in Hp. apply includesType_In, Hp.
  - intros m Em Hm. rewrite Em in *. destruct m; [congruence| |];
      simpl in *; apply negb_true_iff, Z.ltb_ge in H4; exact H4.
  - intros m Em Hm. rewrite Em in *. destruct m; [congruence| |];
      simpl in *; apply negb_true_iff, Z.ltb_ge in H3; exact H3.
  - intros d Ed. rewrite Ed in *. apply negb_true_iff, Z.ltb_ge in H2.
    exact H2.
  - intros d Ed. rewrite Ed in *. apply negb_true_iff, Z.ltb_ge in H1.
    exact H1.
  - intros Ed. rewrite Ed in *. apply bool_decide_eq_true in H0. exact H0.
Qed.

Lemma classifiedFrom_length items : forall n,
  (length (classifiedFrom n items)
   <= length (List.filter isMessage items))%nat.
Proof.
  induction items as [|[m|] rest IH]; intros n; simpl; [lia| |apply IH].
  destruct (extractMediaInfo _ m chatId chatTitle); simpl;
    specialize (IH (n + 1)); lia.
Qed.

(** The progress callback is called once for every message examined,
    whether or not a record is kept for it, with the counts 1, 2, ... and
    the limit; items that are not messages are not counted. *)
Theorem aggregateMedia_progress filter limit items :
  let s := aggregateMedia ids chatId chatTitle filter limit true items in
  progressCalls s
  = List.map (fun k => (k, limit)) (seqZ 1 (messageCount items))
  /\ processed s = messageCount items
  /\ Z.of_nat (length (mediaList s)) <= messageCount items.
Proof.
  cbn zeta.
  destruct (aggregateMedia_exact filter limit true items) as (I1 & I2 & I3).
  cbn zeta in I1, I2, I3. rewrite I1, I2, I3.
  split; [reflexivity|]. split; [reflexivity|].
  pose proof (sublist_length _ _
                (filter_sublist (passes filter) (classifiedFrom 0 items))).
  pose proof (classifiedFrom_length items 0). unfold messageCount. lia.
Qed.

(** Two edges of the tests: an empty list of types keeps nothing, and a
    size bound of 0 is no bound. *)
Theorem aggregateMedia_filter_edges f limit reports items :
  (mediaTypes f = Some [] ->
   mediaList
     (aggregateMedia ids chatId chatTitle (Some f) limit reports items) = [])
  /\ mediaList
       (aggregateMedia ids chatId chatTitle (Some f) limit reports items)
     = mediaList
         (aggregateMedia ids chatId chatTitle
            (Some {| mediaTypes := mediaTypes f;
                     minSize := truthyNumber (minSize f);
                     maxSize := truthyNumber (maxSize f);
                     startDate := startDate f; endDate := endDate f;
                     keyword := keyword f;
                     downloadableOnly := downloadableOnly f |})
            limit reports items).
Proof.
  rewrite !(proj1 (aggregateMedia_exact _ limit reports items)). split.
  - intros Hm. induction (classifiedFrom 0 items) as [|x l IH];
      [reflexivity|].
    simpl. unfold retained. rewrite Hm. simpl. exact IH.
  - induction (classifiedFrom 0 items) as [|x l IH]; [reflexivity|].
    cbn [List.filter]. rewrite IH.
    replace (passes (Some f) x) with
      (passes (Some {| mediaTypes := mediaTypes f;
                       minSize := truthyNumber (minSize f);
                       maxSize := truthyNumber (maxSize f);
                       startDate := startDate f; endDate := endDate f;
                       keyword := keyword f;
                       downloadableOnly := downloadableOnly f |}) x);
      [reflexivity|].
    unfold passes, retained. simpl.
    destruct (minSize f) as [[| |]|], (maxSize f) as [[| |]|]; reflexivity.
Qed.

(** *** Statistics *)







Lemma range_fold l : forall s,
  let s' := fold_left statsStep l s in
  rangeStart s' <= rangeStart s
  /\ rangeEnd s <= rangeEnd s'
  /\ (forall m, In m l -> rangeStart s' <= date m <= rangeEnd s')
  /\ (rangeStart s' = rangeStart s
      \/ exists m, In m l /\ date m = rangeStart s')
  /\ (rangeEnd s' = rangeEnd s \/ exists m, In m l /\ date m = rangeEnd s').
Proof.
  induction l as [|m l IH]; intros s; cbn zeta.
  - simpl. repeat split; try lia; try tauto; left; reflexivity.
  - cbn [fold_left]. destruct (IH (statsStep s m)) as (I1 & I2 & I3 & I4 & I5).
    set (s' := fold_left statsStep l (statsStep s m)) in *.
    assert (Hs : rangeStart (statsStep s m) <= rangeStart s
                 /\ rangeStart (statsStep s m) <= date m
                 /\ (rangeStart (statsStep s m) = rangeStart s
                     \/ rangeStart (statsStep s m) = date m)).
    { simpl. destruct (Z.ltb_spec (date m) (rangeStart s)); lia. }
    assert (He : rangeEnd s <= rangeEnd (statsStep s m)
                 /\ date m <= rangeEnd (statsStep s m)
                 /\ (rangeEnd (statsStep s m) = rangeEnd s
                     \/ rangeEnd (statsStep s m) = date m)).
    { simpl. destruct (Z.ltb_spec (rangeEnd s) (date m)); lia. }
    refine (conj _ (conj _ (conj _ (conj _ _)))).
    + lia.
    + lia.
    + intros x [<-|Hx]; [lia|apply I3, Hx].
    + destruct I4 as [E|(x & Hx & Ex)].
      * destruct Hs as (_ & _ & [E'|E']).
        -- left. congruence.
        -- right. exists m. split; [left; reflexivity|congruence].
      * right. exists x. split; [right; exact Hx|exact Ex].
    + destruct I5 as [E|(x & Hx & Ex)].
      * destruct He as (_ & _ & [E'|E']).
        -- left. congruence.
        -- right. exists m. split; [left; reflexivity|congruence].
      * right. exists x. split; [right; exact Hx|exact Ex].
Qed.

(** The date range of the statistics: its start is the earliest of the
    time of the call and the dates of the records, its end the latest of
    the epoch and those dates; so every date lies in the range, each end
    is the date of a record or its initial value, and for an empty list
    the range runs from the time of the call back to the epoch. *)
Theorem generateStats_range now l :
  let s := generateStats now l in
  rangeStart s <= now
  /\ 0 <= rangeEnd s
  /\ (forall m, In m l -> rangeStart s <= date m <= rangeEnd s)
  /\ (rangeStart s = now \/ exists m, In m l /\ date m = rangeStart s)
  /\ (rangeEnd s = 0 \/ exists m, In m l /\ date m = rangeEnd s)
  /\ (l = [] -> rangeStart s = now /\ rangeEnd s = 0).
Proof.
  unfold generateStats. cbn zeta.
  cbn [rangeStart rangeEnd].
  destruct (range_fold l
              {| totalMessages := Z.of_nat (length l);
                 totalMedia := Z.of_nat (length l); totalSize := 0;
                 totalSizeFormatted := [];
                 byType := fun _ => {| count := 0; size := 0 |};
                 byDownloadable := fun _ => 0;
                 rangeStart := now; rangeEnd := 0 |})
    as (I1 & I2 & I3 & I4 & I5).
  refine (conj I1 (conj I2 (conj I3 (conj I4 (conj I5 _))))).
  intros ->. split; reflexivity.
Qed.

End WithRuntime.

End PipelineFacts.

Module GroupFacts.
Import Pipeline.

Section Groups.
Context {K : Type} `{EqDecision K}.
Variable key : MediaInfo -> K.

(** The records with a given key, in list order. *)
Definition withKey (k : K) (l : list MediaInfo) : list MediaInfo :=
  List.filter (fun m => bool_decide (key m = k)) l.

Lemma groupGet_push (k k' : K) m groups :
  groupGet k (groupPush k' m groups)
  = if decide (k' = k) then option_map (fun g => g ++ [m]) (groupGet k groups)
    else groupGet k groups.
Proof.
  induction groups as [|[k0 g] rest IH]; simpl.
  - destruct (decide (k' = k)); reflexivity.
  - destruct (decide (k0 = k')) as [->|Hne]; simpl.
    + destruct (decide (k' = k)); reflexivity.
    + destruct (decide (k0 = k)) as [->|Hne'].
      * destruct (decide (k' = k)); [congruence|reflexivity].
      * exact IH.
Qed.

Lemma groupGet_new (k k' : K) groups :
  groupGet k (groups ++ [(k', [])])
  = match groupGet k groups with
    | Some g => Some g
    | None => if decide (k' = k) then Some [] else None
    end.
Proof.
  induction groups as [|[k0 g] rest IH]; simpl; [reflexivity|].
  destruct (decide (k0 = k)); [reflexivity|exact IH].
Qed.

Lemma groupStep_get (k : K) groups m :
  groupGet k (groupStep key groups m)
  = if decide (key m = k)
    then Some (default [] (groupGet k groups) ++ [m])
    else groupGet k groups.
Proof.
  unfold groupStep. rewrite groupGet_push.
  destruct (decide (key m = k)) as [->|Hne].
  - destruct (groupGet k groups) as [g|] eqn:E.
    + rewrite E. reflexivity.
    + rewrite groupGet_new, E. rewrite decide_True by reflexivity.
      reflexivity.
  - destruct (groupGet (key m) groups); [reflexivity|].
    rewrite groupGet_new. destruct (groupGet k groups); [reflexivity|].
    rewrite decide_False by exact Hne. reflexivity.
Qed.

Lemma groupBy_fold (k : K) l : forall groups,
  groupGet k (fold_left (groupStep key) l groups)
  = match withKey k l with
    | [] => groupGet k groups
    | g => Some (default [] (groupGet k groups) ++ g)
    end.
Proof.
  induction l as [|m l IH]; intros groups; [reflexivity|].
  cbn [fold_left]. rewrite IH, groupStep_get. unfold withKey.
  cbn [List.filter].
  destruct (decide (key m = k)) as [E|Hne].
  - rewrite (bool_decide_eq_true_2 _ E). simpl.
    destruct (List.filter _ l); simpl; rewrite <- ?app_assoc; reflexivity.
  - rewrite (bool_decide_eq_false_2 _ Hne). reflexivity.
Qed.

Lemma groupPush_keys (k : K) m groups :
  List.map fst (groupPush k m groups) = List.map fst groups.
Proof.
  induction groups as [|[k0 g] rest IH]; simpl; [reflexivity|].
  destruct (decide (k0 = k)); simpl; [reflexivity|]. f_equal. exact IH.
Qed.

Lemma groupGet_None_keys (k : K) groups :
  groupGet k groups = None -> ~ In k (List.map fst groups).
Proof.
  induction groups as [|[k0 g] rest IH]; simpl; [tauto|].
  destruct (decide (k0 = k)); [discriminate|].
  intros Hn [E|Hi]; [congruence|]. exact (IH Hn Hi).
Qed.

Lemma groupBy_keys l : forall groups : list (K * list MediaInfo),
  List.NoDup (List.map fst groups) ->
  List.NoDup (List.map fst (fold_left (groupStep key) l groups)).
Proof.
  induction l as [|m l IH]; intros groups Hnd; [exact Hnd|].
  cbn [fold_left]. apply IH. unfold groupStep. rewrite groupPush_keys.
  destruct (groupGet (key m) groups) eqn:E; [exact Hnd|].
  rewrite map_app. simpl. apply NoDup_ListNoDup.
  apply NoDup_ListNoDup in Hnd.
  apply NoDup_app. split; [exact Hnd|]. split.
  - intros x Hx Hx'. apply list_elem_of_In in Hx.
    apply list_elem_of_singleton in Hx'. subst x.
    exact (groupGet_None_keys _ _ E Hx).
  - apply NoDup_singleton.
Qed.

(** Grouping splits the list: the group found under a key holds exactly
    the records with that key, in list order; a key no record has is
    absent (no group is empty); and no key occurs twice. *)
Theorem groupBy_partition l :
  (forall k,
     groupGet k (groupBy key l)
     = match withKey k l with
       | [] => None
       | g => Some g
       end)
  /\ List.NoDup (List.map fst (groupBy key l)).
Proof.
  split.
  - intros k. unfold groupBy. rewrite groupBy_fold. reflexivity.
  - apply groupBy_keys. constructor.
Qed.

End Groups.

End GroupFacts.

Module PipelineExamples.
Import Aggregator Pipeline PipelineFacts.

Definition source : list Item :=
  [ItemMessage AggregatorFacts.largeVideo; ItemOther;
   ItemMessage AggregatorFacts.smallPhoto;
   ItemMessage {| m_id := 44; m_date := 1700000100; m_message := [];
                  m_media := None |}].

Definition smallDownloadable : SearchFilter :=
  {| mediaTypes := Some [PHOTO; VIDEO]; minSize := Some 0;
     maxSize := Some 100000; startDate := None; endDate := None;
     keyword := None; downloadableOnly := Some true |}.

Definition scan (filter : option SearchFilter) : Scan :=
  @aggregateMedia UtcRuntime.runtime (fun k => str "id-" ++ numToString k)
    (str "1001") (str "My Channel") filter 500 true source.

Example scan_unfiltered :
  (List.map (fun m => (messageId m, type m, id m)) (mediaList (scan None)),
   progressCalls (scan None))
  = ([(42, VIDEO, str "id-1"); (43, PHOTO, str "id-2")],
     [(1, 500); (2, 500); (3, 500)]).
Proof. vm_compute. reflexivity. Qed.

Example scan_filtered :
  List.map messageId (mediaList (scan (Some smallDownloadable))) = [43].
Proof. vm_compute. reflexivity. Qed.

Lemma aggregateMedia_sound_witness :
  exists mediaInfo,
    In mediaInfo (mediaList (scan (Some smallDownloadable)))
    /\ In (type mediaInfo) [PHOTO; VIDEO]
    /\ fileSize mediaInfo <= 100000
    /\ downloadable mediaInfo = DOWNLOADABLE.
Proof.
  destruct (mediaList (scan (Some smallDownloadable))) as [|mi rest] eqn:E;
    [vm_compute in E; discriminate E|].
  assert (Hin : In mi (mediaList (scan (Some smallDownloadable)))).
  { rewrite E. left. reflexivity. }
  destruct (@aggregateMedia_sound UtcRuntime.runtime _ _ _ _ _ _ _ _ Hin)
    as (T1 & _ & T3 & _ & _ & T6).
  exists mi. split; [left; reflexivity|].
  split; [exact (T1 _ eq_refl)|].
  split; [apply (T3 _ eq_refl); discriminate | exact (T6 eq_refl)].
Defined.

Example stats_sample :
  let s := @generateStats UtcRuntime.runtime 1800000000000
             (mediaList (scan None)) in
  (totalMedia s, totalSize s, count (byType s VIDEO), size (byType s PHOTO),
   byDownloadable s TOO_LARGE, rangeStart s, rangeEnd s,
   totalSizeFormatted s)
  = (2, 3000004096, 1, 4096, 1, 1700000000000, 1700000000000,
     str "2.79 GB").
Proof. vm_compute. reflexivity. Qed.

Example groups_sample :
  List.map (fun g => (g.1, List.map messageId g.2))
    (groupByType (mediaList (scan None) ++ mediaList (scan None)))
  = [(VIDEO, [42; 42]); (PHOTO, [43; 43])].
Proof. vm_compute. reflexivity. Qed.

End PipelineExamples.

(** ** core/downloader.ts: what every execution keeps *)

Module EngineInvariants.
Import Downloader FsFacts EngineFacts.

(** What is left alone between the state [w] and the state [w'] of an
    execution of [t]: the registry, every flag that is set, and every path
    but the output path and its marker; the directories above the output
    path that were missing may have been made. *)
Definition framed (t : DownloadTask) (w w' : World) : Prop :=
  downloadTasks w' = downloadTasks w
  /\ pausedTasks w ⊆ pausedTasks w'
  /\ cancelledTasks w ⊆ cancelledTasks w'
  /\ forall q,
       q <> outputPath t -> q <> outputPath t ++ DOWNLOAD_STATE_SUFFIX ->
       holds q w' = holds q w
       \/ (q ∈ lineage (Path.dirname (outputPath t))
           /\ holds q w = None /\ holds q w' = Some Directory).

Lemma framed_refl t w : framed t w w.
Proof. repeat split; try reflexivity. intros q _ _. left. reflexivity. Qed.

Lemma framed_trans t t' w1 w2 w3 :
  outputPath t' = outputPath t ->
  framed t w1 w2 -> framed t' w2 w3 -> framed t w1 w3.
Proof.
  intros Ho (A1 & A2 & A3 & A4) (B1 & B2 & B3 & B4).
  refine (conj _ (conj _ (conj _ _))).
  - congruence.
  - etransitivity; eassumption.
  - etransitivity; eassumption.
  - intros q Hq1 Hq2. rewrite Ho in B4.
    destruct (A4 q Hq1 Hq2) as [Ea|(Ia & Na & Da)];
      destruct (B4 q Hq1 Hq2) as [Eb|(Ib & Nb & Db)].
    + left. congruence.
    + right. refine (conj Ib (conj _ Db)). congruence.
    + right. refine (conj Ia (conj Na _)). congruence.
    + congruence.
Qed.

(** A step that keeps the registry and the flags and changes nothing
    but the output path and its marker. *)
Lemma framed_own t w w' :
  downloadTasks w' = downloadTasks w ->
  pausedTasks w' = pausedTasks w ->
  cancelledTasks w' = cancelledTasks w ->
  (forall q, q <> outputPath t ->
     q <> outputPath t ++ DOWNLOAD_STATE_SUFFIX -> holds q w' = holds q w) ->
  framed t w w'.
Proof.
  intros Hr Hp Hc Hf. refine (conj Hr (conj _ (conj _ _))).
  - rewrite Hp. reflexivity.
  - rewrite Hc. reflexivity.
  - intros q Hq1 Hq2. left. apply Hf; assumption.
Qed.

Lemma framed_write t w w1 c :
  writeFileSync (outputPath t) c w = Ok w1 -> framed t w w1.
Proof.
  intros Hw. apply writeFileSync_Ok in Hw as (_ & _ & -> & Hq).
  apply framed_own; try reflexivity.
  intros q Hq1 _. rewrite Hq, decide_False by exact Hq1. reflexivity.
Qed.

Lemma framed_save t w w1 c :
  writeFileSync (outputPath t ++ DOWNLOAD_STATE_SUFFIX) c w = Ok w1 ->
  framed t w w1.
Proof.
  intros Hw. apply writeFileSync_Ok in Hw as (_ & _ & -> & Hq).
  apply framed_own; try reflexivity.
  intros q _ Hq2. rewrite Hq, decide_False by exact Hq2. reflexivity.
Qed.

Lemma framed_ensureDir t w w1 :
  ensureDir (Path.dirname (outputPath t)) w = Ok w1 -> framed t w w1.
Proof.
  intros He. apply ensureDir_Ok in He as ((Hr & Hp & Hc & Hg) & _).
  refine (conj Hr (conj _ (conj _ _))).
  - rewrite Hp. reflexivity.
  - rewrite Hc. reflexivity.
  - intros q _ _. exact (Hg q).
Qed.

Lemma framed_removeState t w :
  framed t w (removeDownloadState (outputPath t) w).
Proof.
  pose proof (removeDownloadState_spec (outputPath t) w) as Hs.
  cbn zeta in Hs. destruct Hs as (Hr & Hp & Hc & Hq & _).
  apply framed_own; try assumption.
  intros q _ Hq2. apply Hq, Hq2.
Qed.

Lemma framed_cleanup t w : framed t w (cleanup (outputPath t) w).
Proof.
  pose proof (cleanup_spec (outputPath t) w) as Hs.
  cbn zeta in Hs. destruct Hs as (Hr & Hp & Hc & Hq & _).
  apply framed_own; try assumption.
Qed.

Lemma framed_pause t w j : framed t w (pauseDownload j w).
Proof.
  refine (conj eq_refl (conj _ (conj _ _))).
  - simpl. apply union_subseteq_r.
  - reflexivity.
  - intros q _ _. left. reflexivity.
Qed.

Lemma framed_cancel t w j : framed t w (cancelDownload j w).
Proof.
  refine (conj eq_refl (conj _ (conj _ _))).
  - reflexivity.
  - simpl. apply union_subseteq_r.
  - intros q _ _. left. reflexivity.
Qed.

(** The statuses a pass that started DOWNLOADING can leave. *)
Definition afterPass (s : DownloadStatus) : Prop :=
  s = DOWNLOADING \/ s = PAUSED \/ s = CANCELLED \/ s = COMPLETED.

Section WithRuntime.
Context `{Runtime}.
Variable config : DownloadConfig.
Variable events : DownloadEvents.

Lemma runTransfer_framed steps : forall t w c,
  let o := runTransfer events steps t w c in
  framed t w (world o)
  /\ (status (task o) = status t \/ status (task o) = PAUSED
      \/ status (task o) = CANCELLED).
Proof.
  induction steps as [|s rest IH]; intros t w c; cbn zeta.
  - split; [apply framed_refl|left; reflexivity].
  - destruct s as [downloaded total now | j | j]; cbn [runTransfer].
    + unfold progressCallback.
      destruct (bool_decide (taskId t ∈ pausedTasks w)).
      { split; [apply framed_refl|right; left; reflexivity]. }
      destruct (bool_decide (taskId t ∈ cancelledTasks w)).
      { split; [apply framed_refl|right; right; reflexivity]. }
      destruct (updateProgress t c downloaded total now) as [t1 c1] eqn:Eu.
      cbn [thrown task world trace].
      pose proof (updateProgress_sameJob t c downloaded total now) as [Hj Hs].
      rewrite Eu in Hj, Hs. simpl in Hj, Hs.
      destruct (IH t1 w c1) as [I1 I2]. split.
      * destruct Hj as (_ & _ & Ho & _).
        eapply framed_trans; [exact Ho|apply framed_refl|exact I1].
      * rewrite Hs in I2. exact I2.
    + destruct (IH t (pauseDownload j w) c) as [I1 I2]. split; [|exact I2].
      eapply framed_trans; [reflexivity|apply framed_pause|exact I1].
    + destruct (IH t (cancelDownload j w) c) as [I1 I2]. split; [|exact I2].
      eapply framed_trans; [reflexivity|apply framed_cancel|exact I1].
Qed.

(** One pass through the [try] block. *)
Lemma tryBlock_framed a es t w :
  let o := tryBlock events a es t w in
  framed t w (world o)
  /\ delays (trace o) = []
  /\ errorCalls (trace o) = []
  /\ (status t = DOWNLOADING -> afterPass (status (task o))).
Proof.
  cbn zeta. unfold tryBlock.
  destruct (fetch a) as [m|m| | |now steps fin];
    try (refine (conj (framed_refl _ _) (conj eq_refl (conj eq_refl _)));
         intros Hd; left; exact Hd).
  destruct (ensureDir (Path.dirname (outputPath t)) w) as [w1|m] eqn:He.
  2:{ refine (conj (framed_refl _ _) (conj eq_refl (conj eq_refl _))).
      intros Hd; left; exact Hd. }
  cbn zeta.
  set (c := {| lastProgressTime := now; lastDownloadedBytes := _ |}).
  pose proof (runTransfer_signal events steps t w1 c) as Hsig.
  cbn zeta in Hsig. destruct Hsig as (S1 & S2 & S3 & S4 & S5 & S6).
  destruct (runTransfer_framed steps t w1 c) as [F1 F2].
  set (o1 := runTransfer events steps t w1 c) in *.
  assert (F : framed t w (world o1)).
  { eapply framed_trans; [reflexivity|exact (framed_ensureDir _ _ _ He)|].
    exact F1. }
  assert (Hst : status t = DOWNLOADING -> afterPass (status (task o1))).
  { intros Hd. unfold afterPass. rewrite Hd in F2. tauto. }
  destruct (thrown o1) as [m|].
  { exact (conj F (conj S3 (conj S4 Hst))). }
  destruct fin as [bytes| |m].
  - destruct (writeFileSync (outputPath t) (FileBytes bytes) (world o1))
      as [w2|m] eqn:Ew.
    + cbn [world task trace]. refine (conj _ (conj _ (conj _ _))).
      * eapply framed_trans; [reflexivity|exact F|].
        eapply framed_trans;
          [reflexivity|exact (framed_write _ _ _ _ Ew)|].
        apply framed_removeState.
      * rewrite !delays_app, S3. destruct (onComplete events); reflexivity.
      * rewrite !errorCalls_app, S4.
        destruct (onComplete events); reflexivity.
      * intros _. right. right. right. reflexivity.
    + exact (conj F (conj S3 (conj S4 Hst))).
  - exact (conj F (conj S3 (conj S4 Hst))).
  - exact (conj F (conj S3 (conj S4 Hst))).
Qed.

(** What an execution keeps, from its start to its return. *)
Definition kept (connected : bool) (t : DownloadTask) (w : World)
    (o : Outcome) : Prop :=
  taskId (task o) = taskId t
  /\ media (task o) = media t
  /\ outputPath (task o) = outputPath t
  /\ framed t w (world o)
  /\ retryCount t <= retryCount (task o)
  /\ retryCount (task o) <= Z.max (retryCount t) (maxRetries config)
  /\ Z.of_nat (length (delays (trace o))) = retryCount (task o) - retryCount t
  /\ (length (errorCalls (trace o)) <= 1)%nat
  /\ (connected = true -> status (task o) <> PENDING).

Lemma emit_delays b e :
  (forall ms, e <> Delay ms) -> delays (emit b e) = [].
Proof. intros He. destruct b; [|reflexivity]. destruct e; try reflexivity.
  exfalso. eapply He. reflexivity. Qed.

Lemma emit_errorCalls_le b e : (length (errorCalls (emit b e)) <= 1)%nat.
Proof. destruct b; [|simpl; lia]. destruct e; simpl; lia. Qed.

Lemma emit_errorCalls b e :
  (forall t m, e <> CallOnError t m) -> errorCalls (emit b e) = [].
Proof. intros He. destruct b; [|reflexivity]. destruct e; try reflexivity.
  exfalso. eapply He. reflexivity. Qed.

Lemma executeDownload_go_kept connected fuel : forall attempts k t w o,
  executeDownload_go connected config events fuel attempts k t w = Some o ->
  kept connected t w o.
Proof.
  induction fuel as [|fuel IH]; intros attempts k t w o; [discriminate|].
  cbn [executeDownload_go].
  destruct connected; cbn [negb].
  2:{ intros [= <-]. unfold kept; simpl.
      refine (conj eq_refl (conj eq_refl (conj eq_refl
                (conj (framed_refl _ _) _)))).
      repeat split; try lia; try discriminate. }
  destruct (negb (bool_decide (downloadable (media t) = DOWNLOADABLE))).
  { intros [= <-]. unfold kept; simpl.
    refine (conj eq_refl (conj eq_refl (conj eq_refl
              (conj (framed_refl _ _) _)))).
    repeat split; try lia; try discriminate;
      destruct (onError events); simpl; lia. }
  destruct (skipExisting config && fileExists (outputPath t) w).
  { intros [= <-]. unfold kept; simpl.
    refine (conj eq_refl (conj eq_refl (conj eq_refl
              (conj (framed_refl _ _) _)))).
    repeat split; try lia; try discriminate;
      destruct (onComplete events); simpl; lia. }
  cbn zeta.
  set (a := attempts k).
  set (es := if resumeEnabled config then _ else _).
  set (t1 := setStartTime (clockStart a) (setStatus DOWNLOADING t)).
  set (started := emit (onStart events) (CallOnStart t1)).
  assert (Hsd : delays started = []).
  { apply emit_delays. discriminate. }
  assert (Hse : errorCalls started = []).
  { apply emit_errorCalls. discriminate. }
  destruct (tryBlock_framed a es t1 w) as (F & Hd & He & Hst).
  pose proof (tryBlock_sameJob events a es t1 w) as Hj.
  specialize (Hst eq_refl).
  destruct Hj as (J1 & J2 & J3 & J4). simpl in J1, J2, J3, J4.
  assert (F' : framed t w (world (tryBlock events a es t1 w))) by exact F.
  set (o1 := tryBlock events a es t1 w) in *.
  assert (Hnp : status (task o1) <> PENDING).
  { destruct Hst as [E|[E|[E|E]]]; rewrite E; discriminate. }
  destruct (thrown o1) as [message|].
  2:{ intros [= <-]. unfold kept; simpl.
      refine (conj J1 (conj J2 (conj J3 (conj F' _)))).
      rewrite delays_app, errorCalls_app, Hsd, Hse, Hd, He, J4. simpl.
      repeat split; try lia; try (intros _; exact Hnp). }
  unfold catchBlock.
  destruct (JS.eqb message MSG_PAUSED).
  { unfold saveDownloadState. cbn [s_outputPath].
    destruct (writeFileSync _ _ (world o1)) as [w2|m] eqn:Ew;
      intros [= <-]; unfold kept; simpl;
      (refine (conj J1 (conj J2 (conj J3 (conj _ _))));
       [|rewrite delays_app, errorCalls_app, Hsd, Hse, Hd, He, J4; simpl;
         repeat split; try lia; try (intros _; exact Hnp)]).
    - eapply framed_trans; [reflexivity|exact F'|].
      rewrite J3 in Ew. exact (framed_save _ _ _ _ Ew).
    - exact F'. }
  destruct (JS.eqb message MSG_CANCELLED).
  { intros [= <-]. unfold kept; simpl.
    refine (conj J1 (conj J2 (conj J3 (conj _ _)))).
    - eapply framed_trans; [reflexivity|exact F'|].
      rewrite J3. apply framed_cleanup.
    - rewrite delays_app, errorCalls_app, Hsd, Hse, Hd, He, J4. simpl.
      repeat split; try lia; try (intros _; exact Hnp). }
  destruct (Z.ltb_spec (retryCount (task o1)) (maxRetries config))
    as [Hlt|Hge].
  - destruct (executeDownload_go true config events fuel attempts (S k)
                (setRetryCount (retryCount (task o1) + 1) (task o1))
                (world o1)) as [o'|] eqn:Eo'; [|discriminate].
    intros [= <-]. apply IH in Eo'.
    destruct Eo' as (K1 & K2 & K3 & K4 & K5 & K6 & K7 & K8 & K9).
    simpl in K1, K2, K3, K4, K5, K6, K7.
    unfold kept; cbn [task world trace thrown].
    refine (conj _ (conj _ (conj _ (conj _ _)))); try congruence.
    + eapply framed_trans; [|exact F'|exact K4]. simpl. exact J3.
    + rewrite !delays_app, !errorCalls_app, Hsd, Hse, Hd, He.
      cbn [app delays errorCalls omap]. simpl length.
      repeat split; try lia; try exact K9.
  - intros [= <-]. unfold kept; simpl.
    refine (conj J1 (conj J2 (conj J3 (conj F' _)))).
    rewrite !delays_app, !errorCalls_app, Hsd, He, Hse, Hd, J4.
    rewrite (emit_delays (onError events)) by discriminate.
    pose proof (emit_errorCalls_le (onError events)
                  (CallOnError
                     (setEndTime (clockEnd a)
                        (setError message (setStatus FAILED (task o1))))
                     message)).
    simpl. repeat split; try lia; try discriminate.
Qed.

End WithRuntime.

End EngineInvariants.

(** ** core/downloader.ts: how an execution ends *)

Module EngineOutcomes.
Import Downloader FsFacts EngineFacts EngineInvariants.



(** The marker can be written beside the output path once [ensureDir]
    has run for the directory of the output path: the marker path does
    not hold a directory, and what is there under the name of its
    directory is a directory. *)
Definition markable (p : jsstring) (w : World) : Prop :=
  holds (p ++ DOWNLOAD_STATE_SUFFIX) w <> Some Directory
  /\ exists w1, ensureDir (Path.dirname p) w = Ok w1
                /\ holds (Path.dirname (p ++ DOWNLOAD_STATE_SUFFIX)) w1
                   = Some Directory.



Lemma writable_reachable p w : writable p w -> reachable p w.
Proof. intros (_ & w1 & He & _). exists w1. exact He. Qed.

Lemma markable_reachable p w : markable p w -> reachable p w.
Proof. intros (_ & w1 & He & _). exists w1. exact He. Qed.

Section WithRuntime.
Context `{Runtime}.
Variable config : DownloadConfig.
Variable events : DownloadEvents.

Local Abbreviation run := (executeDownload true config events).
Local Abbreviation run_go := (executeDownload_go true config events).








(** Whatever the client does, an execution leaves alone what is not the
    task's: no entry is added to the registry or removed from it, no
    pause or cancel flag is cleared, and every path other than the output
    path and its marker holds what it held, but for the directories above
    the output path that were missing, which may have been made. *)
Theorem executeDownload_frame connected attempts t w :
  exists o,
    executeDownload connected config events attempts t w = Some o
    /\ dom (downloadTasks (world o)) = dom (downloadTasks w)
    /\ pausedTasks w ⊆ pausedTasks (world o)
    /\ cancelledTasks w ⊆ cancelledTasks (world o)
    /\ forall q,
         q <> outputPath t ->
         q <> outputPath t ++ DOWNLOAD_STATE_SUFFIX ->
         holds q (world o) = holds q w
         \/ (q ∈ lineage (Path.dirname (outputPath t))
             /\ holds q w = None /\ holds q (world o) = Some Directory).
Proof.
  destruct (executeDownload_returns config events connected attempts t w)
    as [o E].
  exists o. split; [exact E|].
  apply executeDownload_go_kept in E.
  destruct E as (_ & _ & _ & (F1 & F2 & F3 & F4) & _).
  exact (conj (f_equal dom F1) (conj F2 (conj F3 F4))).
Qed.

(** Whatever the client does, an execution returns, with the same task
    identity, media and output path; retryCount has grown by exactly the
    number of waits and does not exceed maxRetries unless it did at the
    start; [onError] was called at most once; and with a connected client
    the task is no longer PENDING. *)
Theorem executeDownload_accounting connected attempts t w :
  exists o,
    executeDownload connected config events attempts t w = Some o
    /\ taskId (task o) = taskId t
    /\ media (task o) = media t
    /\ outputPath (task o) = outputPath t
    /\ retryCount (task o) = retryCount t + Z.of_nat (length (delays (trace o)))
    /\ retryCount (task o) <= Z.max (retryCount t) (maxRetries config)
    /\ (length (errorCalls (trace o)) <= 1)%nat
    /\ (connected = true -> status (task o) <> PENDING).
Proof.
  destruct (executeDownload_returns config events connected attempts t w)
    as [o E].
  exists o. split; [exact E|].
  apply executeDownload_go_kept in E.
  destruct E as (K1 & K2 & K3 & _ & K5 & K6 & K7 & K8 & K9).
  refine (conj K1 (conj K2 (conj K3 (conj _ (conj K6 (conj K8 K9)))))).
  lia.
Qed.

End WithRuntime.

End EngineOutcomes.

Module OutcomeScenarios.
Import Downloader FsFacts EngineFacts EngineOutcomes Scenarios.

(** A transfer during which the task is paused. *)
Definition pausedMidway : Attempt :=
  {| clockStart := 1000;
     fetch := Transfer 1000
                [Progress 1024 1048576 1200;
                 PauseRequest (str "1700000000001-t1");
                 CancelRequest (str "1700000000001-t1");
                 Progress 524288 1048576 1900]
                (Buffer [1; 2; 3]%N);
     clockEnd := 2000 |}.








Example clip_paused :
  option_map
    (fun o => (status (task o), downloadedBytes (task o),
               option_map
                 (fun c => match c with
                           | FileState s => Some (s_downloadedBytes s)
                           | _ => None
                           end)
                 (fileAt (outputPath clipTask.1 ++ DOWNLOAD_STATE_SUFFIX) o),
               fileAt (outputPath clipTask.1) o))
    (execute (fun _ => pausedMidway) clipTask)
  = Some (PAUSED, 1024, Some (Some 1024), None).
Proof. vm_compute. reflexivity. Qed.

(** A pause whose marker cannot be written, a directory being in its
    place: the execution throws the error of the write, with the task
    PAUSED. *)
Example clip_paused_unmarked :
  option_map
    (fun o => (thrown o, status (task o)))
    (execute (fun _ => pausedMidway)
       (clipTask.1,
        put (outputPath clipTask.1 ++ DOWNLOAD_STATE_SUFFIX) Directory
          clipTask.2))
  = Some (Some (str "EISDIR: illegal operation on a directory, open '/home/u/TG-Downloads/videos/My_Channel_2023-11-14_1700000000000-abc.mp4.dlstate'"),
          PAUSED).
Proof. vm_compute. reflexivity. Qed.





End OutcomeScenarios.

(** ** utils/helpers.ts: [chunk] and [retry] *)

Module HelpersMore.

(** [array.slice(start, end)]: a negative index counts from the end. *)
Definition sliceJS {A} (start stop : Z) (array : list A) : list A :=
  let len := Z.of_nat (length array) in
  let clamp z := if z <? 0 then Z.max (len + z) 0 else Z.min z len in
  take (Z.to_nat (clamp stop - clamp start)) (drop (Z.to_nat (clamp start)) array).

(** The loop of [chunk] from index [i]; [None] when [fuel] turns of the
    loop do not end it. *)
Fixpoint chunk_go {A} (fuel : nat) (array : list A) (size i : Z)
  : option (list (list A)) :=
  match fuel with
  | O => None
  | S fuel' =>
      if i <? Z.of_nat (length array) then
        match chunk_go fuel' array size (i + size) with
        | Some chunks => Some (sliceJS i (i + size) array :: chunks)
        | None => None
        end
      else Some []
  end.

(** [chunk]: the loop ends within [length array] turns or never; [None]
    is a loop that does not end. *)
Definition chunk {A} (array : list A) (size : Z) : option (list (list A)) :=
  chunk_go (S (length array)) array size 0.

(** What a call of [fn] does. *)
Inductive Try (T : Type) :=
| Returns (value : T)
| Throws (error : jsstring).
Arguments Returns {T} value.
Arguments Throws {T} error.

(** How [retry] ends: with the value of [fn], or throwing [lastError],
    which is [undefined] when [fn] was never called; with the number of
    calls of [fn] and the waits in between. *)
Record RetryRun (T : Type) := {
  ended : T + option jsstring;
  calls : nat;
  waits : list Z;
}.
Arguments ended {T} r.
Arguments calls {T} r.
Arguments waits {T} r.

Section Retry.
Context {T : Type}.
(** [fn k] is what the call of [fn] after [k] earlier calls does. *)
Variable fn : nat -> Try T.
Variable maxRetries delayMs : Z.
Variable backoff : bool.

(** The turns of the loop of [retry] from [i], [n] of them being left. *)
Fixpoint retry_go (n : nat) (i : Z) (k : nat) (lastError : option jsstring)
  : RetryRun T :=
  match n with
  | O => {| ended := inr lastError; calls := k; waits := [] |}
  | S n' =>
      match fn k with
      | Returns v => {| ended := inl v; calls := S k; waits := [] |}
      | Throws e =>
          let wait :=
            if i <? maxRetries then
              [if backoff then delayMs * 2 ^ i else delayMs]
            else [] in
          let r := retry_go n' (i + 1) (S k) (Some e) in
          {| ended := ended r; calls := calls r; waits := wait ++ waits r |}
      end
  end.

(** [retry]: the loop [for (i = 0; i <= maxRetries; i++)]. *)
Definition retry : RetryRun T :=
  retry_go (Z.to_nat (maxRetries + 1)) 0 0%nat None.

End Retry.

End HelpersMore.

Module HelpersMoreFacts.
Import HelpersMore.

Lemma sliceJS_inside {A} (a : list A) (i size : Z) :
  0 <= i -> 0 <= size ->
  sliceJS i (i + size) a
  = take (Z.to_nat size) (drop (Z.to_nat i) a).
Proof.
  intros Hi Hs. unfold sliceJS.
  rewrite (proj2 (Z.ltb_ge _ _)) by lia.
  rewrite (proj2 (Z.ltb_ge i 0)) by lia.
  set (len := Z.of_nat (length a)).
  destruct (Z.le_gt_cases len i) as [Hge|Hlt].
  - rewrite drop_ge by lia. rewrite drop_ge by lia.
    rewrite !take_nil. reflexivity.
  - rewrite (Z.min_l i len) by lia.
    destruct (Z.le_gt_cases (i + size) len) as [Hin|Hout].
    + rewrite Z.min_l by lia. f_equal. lia.
    + rewrite Z.min_r by lia.
      rewrite take_ge by (rewrite length_drop; lia).
      rewrite take_ge by (rewrite length_drop; lia). reflexivity.
Qed.

Lemma chunk_go_spec {A} (a : list A) (size : Z) : 1 <= size ->
  forall fuel i,
    0 <= i ->
    (Z.to_nat (Z.of_nat (length a) - i) < fuel)%nat ->
    exists chunks,
      chunk_go fuel a size i = Some chunks
      /\ concat chunks = drop (Z.to_nat i) a
      /\ Forall (fun c => (1 <= length c)%nat /\ Z.of_nat (length c) <= size)
           chunks
      /\ Forall (fun c => Z.of_nat (length c) = size) (removelast chunks).
Proof.
  intros Hsize. induction fuel as [|fuel IH]; intros i Hi Hfuel; [lia|].
  cbn [chunk_go]. destruct (Z.ltb_spec i (Z.of_nat (length a))) as [Hlt|Hge].
  - destruct (IH (i + size)) as (cs & E & Hc & Hf & Hr); [lia|lia|].
    rewrite E. eexists. split; [reflexivity|].
    rewrite sliceJS_inside by lia. cbn [concat]. rewrite Hc.
    replace (Z.to_nat (i + size)) with (Z.to_nat i + Z.to_nat size)%nat
      by lia.
    rewrite <- drop_drop, take_drop. split; [reflexivity|].
    assert (Hlen : length (take (Z.to_nat size) (drop (Z.to_nat i) a))
                   = Nat.min (Z.to_nat size) (length a - Z.to_nat i)).
    { rewrite length_take, length_drop. reflexivity. }
    split.
    + constructor; [|exact Hf]. rewrite Hlen. lia.
    + destruct cs as [|c cs']; [constructor|].
      cbn [removelast]. constructor; [|exact Hr].
      rewrite Hlen.
      (* the next chunk exists, so this one is full *)
      assert (Hnext : i + size < Z.of_nat (length a)).
      { destruct fuel as [|fuel']; [discriminate E|].
        cbn [chunk_go] in E.
        destruct (Z.ltb_spec (i + size) (Z.of_nat (length a)));
          [assumption|discriminate E]. }
      lia.
  - exists []. split; [reflexivity|]. rewrite drop_ge by lia.
    repeat split; constructor.
Qed.

(** For a size of at least 1, [chunk] returns, and its chunks put
    together are the array: each chunk has from 1 to [size] elements and
    every chunk but the last has exactly [size]. *)
Theorem chunk_partition {A} (a : list A) (size : Z) :
  1 <= size ->
  exists chunks,
    chunk a size = Some chunks
    /\ concat chunks = a
    /\ Forall (fun c => (1 <= length c)%nat /\ Z.of_nat (length c) <= size)
         chunks
    /\ Forall (fun c => Z.of_nat (length c) = size) (removelast chunks).
Proof.
  intros Hsize. unfold chunk.
  destruct (chunk_go_spec a size Hsize (S (length a)) 0) as (cs & E & Hc & Hf);
    [lia|lia|].
  exists cs. split; [exact E|]. split; [exact Hc|exact Hf].
Qed.

Lemma chunk_go_stuck {A} (a : list A) (size : Z) :
  size <= 0 -> a <> [] ->
  forall fuel i, i <= 0 -> chunk_go fuel a size i = None.
Proof.
  intros Hsize Ha. induction fuel as [|fuel IH]; intros i Hi; [reflexivity|].
  cbn [chunk_go].
  assert (Hlen : 0 < Z.of_nat (length a)).
  { destruct a; [congruence|simpl; lia]. }
  rewrite (proj2 (Z.ltb_lt _ _)) by lia.
  rewrite IH by lia. reflexivity.
Qed.

(** With a size of 0 or less the loop of [chunk] does not end on an
    array that is not empty, however many turns it is given: the index
    never passes the length.  An empty array gives no chunk whatever the
    size. *)
Theorem chunk_no_progress {A} (a : list A) (size : Z) :
  (size <= 0 -> a <> [] ->
   (forall fuel, chunk_go fuel a size 0 = None) /\ chunk a size = None)
  /\ chunk ([] : list A) size = Some [].
Proof.
  split; [|reflexivity].
  intros Hsize Ha. split; [intros fuel|];
    (apply chunk_go_stuck; [exact Hsize|exact Ha|lia]).
Qed.

Section Retry.
Context {T : Type}.
Variable fn : nat -> Try T.
Variable maxRetries delayMs : Z.
Variable backoff : bool.

(** The wait after the failure of turn [i]. *)
Definition waitAfter (i : Z) : Z :=
  if backoff then delayMs * 2 ^ i else delayMs.

Lemma retry_go_fails n : forall i k last,
  0 <= i ->
  Z.of_nat n = maxRetries + 1 - i ->
  (forall j, (j < n)%nat -> exists e, fn (k + j)%nat = Throws e) ->
  let r := retry_go fn maxRetries delayMs backoff n i k last in
  calls r = (k + n)%nat
  /\ waits r = List.map waitAfter (seqZ i (Z.of_nat n - 1))
  /\ ended r
     = inr (match n with
            | O => last
            | S n' => match fn (k + n')%nat with
                      | Throws e => Some e
                      | Returns _ => None
                      end
            end).
Proof.
  induction n as [|n IH]; intros i k last Hi Hn Hf; cbn zeta.
  - simpl. rewrite Nat.add_0_r. repeat split.
  - cbn [retry_go]. destruct (Hf 0%nat ltac:(lia)) as [e He].
    rewrite Nat.add_0_r in He. rewrite He.
    destruct (IH (i + 1) (S k) (Some e)) as (I1 & I2 & I3); [lia|lia| |].
    { intros j Hj. replace (S k + j)%nat with (k + S j)%nat by lia.
      apply Hf. lia. }
    cbn [calls waits ended]. rewrite I1, I2, I3.
    split; [lia|]. split.
    + destruct (Z.ltb_spec i maxRetries) as [Hlt|Hge].
      * replace (Z.of_nat (S n) - 1) with (Z.succ (Z.of_nat n - 1)) by lia.
        rewrite (seqZ_cons i) by lia.
        replace (Z.pred (Z.succ (Z.of_nat n - 1))) with (Z.of_nat n - 1)
          by lia.
        reflexivity.
      * assert (n = 0%nat) by lia. subst n. reflexivity.
    + f_equal. destruct n as [|n'].
      * rewrite Nat.add_0_r, He. reflexivity.
      * replace (S k + n')%nat with (k + S n')%nat by lia. reflexivity.
Qed.

(** When every call of [fn] fails, [retry] calls it [maxRetries + 1]
    times, waits after each failure but the last ([delayMs] times 2 to the
    number of the turn with [backoff], [delayMs] without) and throws the
    error of the last call. *)
Theorem retry_exhausts :
  0 <= maxRetries ->
  (forall j, (j <= Z.to_nat maxRetries)%nat -> exists e, fn j = Throws e) ->
  let r := retry fn maxRetries delayMs backoff in
  calls r = S (Z.to_nat maxRetries)
  /\ waits r = List.map waitAfter (seqZ 0 maxRetries)
  /\ exists e, fn (Z.to_nat maxRetries) = Throws e /\ ended r = inr (Some e).
Proof.
  intros Hmax Hf. unfold retry. cbn zeta.
  destruct (retry_go_fails (Z.to_nat (maxRetries + 1)) 0 0%nat None)
    as (I1 & I2 & I3); [lia|lia| |].
  { intros j Hj. apply Hf. lia. }
  rewrite I1, I2, I3.
  replace (Z.to_nat (maxRetries + 1)) with (S (Z.to_nat maxRetries)) by lia.
  split; [reflexivity|]. split; [f_equal; f_equal; lia|].
  destruct (Hf (Z.to_nat maxRetries) ltac:(lia)) as [e He].
  exists e. split; [exact He|]. cbn [Nat.add]. rewrite He. reflexivity.
Qed.

Lemma retry_go_succeeds m : forall n i k last v,
  0 <= i ->
  Z.of_nat n = maxRetries + 1 - i ->
  (m < n)%nat ->
  (forall j, (j < m)%nat -> exists e, fn (k + j)%nat = Throws e) ->
  fn (k + m)%nat = Returns v ->
  let r := retry_go fn maxRetries delayMs backoff n i k last in
  ended r = inl v
  /\ calls r = S (k + m)
  /\ waits r = List.map waitAfter (seqZ i (Z.of_nat m)).
Proof.
  induction m as [|m IH]; intros n i k last v Hi Hn Hm Hf Hv; cbn zeta.
  - destruct n as [|n]; [lia|]. cbn [retry_go].
    rewrite Nat.add_0_r in Hv. rewrite Hv. simpl.
    rewrite Nat.add_0_r. repeat split.
  - destruct n as [|n]; [lia|]. cbn [retry_go].
    destruct (Hf 0%nat ltac:(lia)) as [e He].
    rewrite Nat.add_0_r in He. rewrite He.
    destruct (IH n (i + 1) (S k) (Some e) v) as (I1 & I2 & I3);
      [lia|lia|lia| | |].
    { intros j Hj. replace (S k + j)%nat with (k + S j)%nat by lia.
      apply Hf. lia. }
    { replace (S k + m)%nat with (k + S m)%nat by lia. exact Hv. }
    cbn [calls waits ended]. rewrite I1, I2, I3.
    split; [reflexivity|]. split; [lia|].
    rewrite (proj2 (Z.ltb_lt i maxRetries)) by lia.
    rewrite (seqZ_cons i (Z.of_nat (S m))) by lia.
    replace (Z.pred (Z.of_nat (S m))) with (Z.of_nat m) by lia.
    reflexivity.
Qed.

(** When [fn] fails [m] times and then returns, with [m] at most
    [maxRetries], [retry] returns that value after [m + 1] calls and the
    [m] waits that follow the failures. *)
Theorem retry_succeeds (m : nat) (v : T) :
  Z.of_nat m <= maxRetries ->
  (forall j, (j < m)%nat -> exists e, fn j = Throws e) ->
  fn m = Returns v ->
  let r := retry fn maxRetries delayMs backoff in
  ended r = inl v
  /\ calls r = S m
  /\ waits r = List.map waitAfter (seqZ 0 (Z.of_nat m)).
Proof.
  intros Hm Hf Hv. unfold retry.
  apply (retry_go_succeeds m (Z.to_nat (maxRetries + 1)) 0 0%nat None v);
    try lia; assumption.
Qed.

(** With a negative [maxRetries] the loop has no turn: [fn] is not
    called and what [retry] throws is [undefined]. *)
Theorem retry_negative :
  maxRetries < 0 ->
  retry fn maxRetries delayMs backoff
  = {| ended := inr None; calls := 0; waits := [] |}.
Proof.
  intros Hneg. unfold retry.
  replace (Z.to_nat (maxRetries + 1)) with 0%nat by lia. reflexivity.
Qed.

End Retry.

End HelpersMoreFacts.

Module HelpersExamples.
Import HelpersMore HelpersMoreFacts.

Lemma chunk_partition_witness :
  exists chunks,
    chunk [1; 2; 3; 4; 5; 6; 7] 3 = Some chunks
    /\ concat chunks = [1; 2; 3; 4; 5; 6; 7]
    /\ Forall (fun c => (1 <= length c)%nat /\ Z.of_nat (length c) <= 3)
         chunks
    /\ Forall (fun c => Z.of_nat (length c) = 3) (removelast chunks).
Proof. apply (chunk_partition [1; 2; 3; 4; 5; 6; 7] 3). lia. Defined.

Lemma chunk_no_progress_witness :
  chunk_go 1000 [1; 2; 3] 0 0 = None
  /\ chunk [1; 2; 3] 0 = None /\ chunk ([] : list Z) 0 = Some [].
Proof.
  destruct (chunk_no_progress [1; 2; 3] 0) as [Hstuck Hempty].
  destruct Hstuck as [Hall Hnone]; [lia|discriminate|].
  exact (conj (Hall 1000%nat) (conj Hnone Hempty)).
Defined.

(** A call that fails twice with a timeout and then returns 7. *)
Definition flaky (k : nat) : Try Z :=
  match k with
  | 0%nat | 1%nat => Throws (str "TIMEOUT")
  | _ => Returns 7
  end.

(** A call that always fails, with the number of the call as its error. *)
Definition broken (k : nat) : Try Z :=
  Throws (str "E" ++ [N.of_nat k]).

Lemma retry_succeeds_witness :
  let r := retry flaky 3 1000 true in
  ended r = inl 7
  /\ calls r = 3%nat
  /\ waits r = List.map (waitAfter 1000 true) (seqZ 0 2).
Proof.
  apply (retry_succeeds flaky 3 1000 true 2 7).
  - lia.
  - intros j Hj. exists (str "TIMEOUT").
    destruct j as [|[|j]]; [reflexivity|reflexivity|lia].
  - reflexivity.
Defined.

Lemma retry_exhausts_witness :
  let r := retry broken 2 500 true in
  calls r = 3%nat
  /\ waits r = List.map (waitAfter 500 true) (seqZ 0 2)
  /\ exists e, broken 2 = Throws e /\ ended r = inr (Some e).
Proof.
  apply (retry_exhausts broken 2 500 true).
  - lia.
  - intros j _. eexists. reflexivity.
Defined.

Lemma retry_negative_witness :
  retry flaky (-1) 1000 true
  = {| ended := inr None; calls := 0; waits := [] |}.
Proof. apply (retry_negative flaky (-1) 1000 true). lia. Defined.

End HelpersExamples.

(** ** utils/helpers.ts: more of [sanitizeFileName] *)

Module SanitizeMore.
Import Helpers SanitizeFacts.

(** A character that [sanitizeFileName] turns into ['_'], or that is one. *)
Definition junk (c : N) : Prop :=
  illegalChar c = true \/ whiteSpace c = true \/ c = UNDERSCORE.

Lemma replaceClass_id P s :
  Forall (fun c => P c = false) s -> replaceClass P s = s.
Proof.
  unfold replaceClass. induction 1 as [|c s Hc Hs IH]; simpl.
  - reflexivity.
  - rewrite Hc, IH. reflexivity.
Qed.

Lemma replaceRuns_id P b s :
  Forall (fun c => P c = false) s -> replaceRuns P b s = s.
Proof.
  intros Hs. revert b. induction Hs as [|c s Hc Hs IH]; intros b; simpl.
  - reflexivity.
  - rewrite Hc, IH. reflexivity.
Qed.

Lemma collapse_id s : forall b,
  noDoubleUnderscore s ->
  (b = true -> head s <> Some UNDERSCORE) ->
  replaceRuns isUnderscore b s = s.
Proof.
  induction s as [|c s IH]; intros b Hn Hb; simpl.
  - reflexivity.
  - destruct Hn as [Hc Hs]. destruct (isUnderscore c) eqn:E.
    + apply isUnderscore_true in E. subst c. destruct b.
      * exfalso. apply Hb; reflexivity.
      * f_equal. apply IH; [exact Hs|]. intros _. apply Hc. reflexivity.
    + f_equal. apply IH; [exact Hs|discriminate].
Qed.

Lemma dropTrailing_id s :
  last s <> Some UNDERSCORE -> dropTrailingUnderscore s = s.
Proof.
  induction s as [|c s IH]; [reflexivity|].
  destruct s as [|d s].
  - simpl. intros Hl. destruct (isUnderscore c) eqn:E; [|reflexivity].
    apply isUnderscore_true in E. congruence.
  - intros Hl. rewrite dropTrailing_cons. f_equal. apply IH. exact Hl.
Qed.

Lemma trimUnderscores_id s :
  head s <> Some UNDERSCORE -> last s <> Some UNDERSCORE ->
  trimUnderscores s = s.
Proof.
  intros Hh Hl. unfold trimUnderscores. destruct s as [|c s].
  - reflexivity.
  - destruct (isUnderscore c) eqn:E.
    + apply isUnderscore_true in E. subst c. exfalso. apply Hh. reflexivity.
    + apply dropTrailing_id. exact Hl.
Qed.

(** A sanitized name that does not end with ['_'] is left as it is by
    [sanitizeFileName]: cleaning a clean name changes nothing. *)
Theorem sanitizeFileName_stable name :
  last (sanitizeFileName name) <> Some UNDERSCORE ->
  sanitizeFileName (sanitizeFileName name) = sanitizeFileName name.
Proof.
  intros Hl.
  destruct (sanitizeFileName_spec name) as (Hc & Hn & Hh & Hlen & _).
  set (r := sanitizeFileName name) in *.
  unfold sanitizeFileName at 1.
  rewrite (replaceClass_id illegalChar)
    by (eapply Forall_impl; [exact Hc|]; intros c [H _]; exact H).
  rewrite (replaceRuns_id whiteSpace)
    by (eapply Forall_impl; [exact Hc|]; intros c [_ H]; exact H).
  rewrite collapse_id by (try exact Hn; discriminate).
  rewrite trimUnderscores_id by assumption.
  unfold slice0. apply take_ge. exact Hlen.
Qed.

Lemma collapse_underscores s :
  Forall (fun c => c = UNDERSCORE) s ->
  replaceRuns isUnderscore true s = []
  /\ (replaceRuns isUnderscore false s = []
      \/ replaceRuns isUnderscore false s = [UNDERSCORE]).
Proof.
  induction 1 as [|c s Hc Hs [IH1 IH2]]; simpl.
  - split; [reflexivity|left; reflexivity].
  - subst c. change (isUnderscore UNDERSCORE) with true. cbn iota.
    rewrite IH1. split; [reflexivity|right; reflexivity].
Qed.

Lemma replaceRuns_in P b s c :
  c ∈ s -> P c = false -> c ∈ replaceRuns P b s.
Proof.
  intros Hin Hc. revert b. induction s as [|d s IH]; intros b.
  - inversion Hin.
  - simpl. apply elem_of_cons in Hin as [->|Hin].
    + rewrite Hc. apply elem_of_cons. left. reflexivity.
    + destruct (P d); [destruct b|]; try (apply elem_of_cons; right);
        apply IH, Hin.
Qed.

Lemma dropTrailing_in s c :
  c ∈ s -> c <> UNDERSCORE -> c ∈ dropTrailingUnderscore s.
Proof.
  intros Hin Hc. induction s as [|d s IH]; [inversion Hin|].
  destruct s as [|e s].
  - apply list_elem_of_singleton in Hin. subst d. simpl.
    destruct (isUnderscore c) eqn:E.
    + apply isUnderscore_true in E. contradiction.
    + apply list_elem_of_singleton. reflexivity.
  - rewrite dropTrailing_cons. apply elem_of_cons in Hin as [->|Hin].
    + apply elem_of_cons. left. reflexivity.
    + apply elem_of_cons. right. apply IH, Hin.
Qed.

Lemma trimUnderscores_in s c :
  c ∈ s -> c <> UNDERSCORE -> c ∈ trimUnderscores s.
Proof.
  intros Hin Hc. unfold trimUnderscores. apply dropTrailing_in; [|exact Hc].
  destruct s as [|d s]; [exact Hin|].
  destruct (isUnderscore d) eqn:E; [|exact Hin].
  apply isUnderscore_true in E. subst d.
  apply elem_of_cons in Hin as [->|Hin]; [contradiction|exact Hin].
Qed.

(** [sanitizeFileName] returns the empty name exactly when every
    character of the name is an illegal character, white space or
    ['_']: any other character is kept, and the empty name is not
    replaced by a default. *)
Theorem sanitizeFileName_empty name :
  sanitizeFileName name = [] <-> Forall junk name.
Proof.
  unfold sanitizeFileName, slice0. split.
  - intros E. apply Forall_forall. intros c Hin.
    destruct (illegalChar c) eqn:Ei; [left; exact Ei|].
    destruct (whiteSpace c) eqn:Ew; [right; left; exact Ew|].
    destruct (N.eq_dec c UNDERSCORE) as [Hu|Hu]; [right; right; exact Hu|].
    exfalso.
    assert (H4 : c ∈ trimUnderscores
                   (replaceRuns isUnderscore false
                      (replaceRuns whiteSpace false
                         (replaceClass illegalChar name)))).
    { apply trimUnderscores_in; [|exact Hu].
      apply replaceRuns_in; [|apply isUnderscore_false, Hu].
      apply replaceRuns_in; [|exact Ew].
      unfold replaceClass. apply list_elem_of_fmap.
      exists c. rewrite Ei. split; [reflexivity|exact Hin]. }
    destruct (trimUnderscores _) as [|d s4]; [inversion H4|].
    discriminate E.
  - intros Hj.
    assert (H2 : Forall (fun c => c = UNDERSCORE)
                   (replaceRuns whiteSpace false
                      (replaceClass illegalChar name))).
    { generalize false. induction Hj as [|c s Hc Hs IH]; intros b; simpl.
      - constructor.
      - destruct (illegalChar c) eqn:Ei.
        + change (whiteSpace UNDERSCORE) with false. cbn iota.
          constructor; [reflexivity|apply IH].
        + destruct (whiteSpace c) eqn:Ew.
          * destruct b; [apply IH|constructor; [reflexivity|apply IH]].
          * destruct Hc as [Hc|[Hc|Hc]]; try congruence.
            constructor; [exact Hc|apply IH]. }
    destruct (collapse_underscores _ H2) as [_ [E|E]]; rewrite E; reflexivity.
Qed.

Lemma sanitizeFileName_stable_witness :
  sanitizeFileName (sanitizeFileName (str "my file?.txt"))
  = sanitizeFileName (str "my file?.txt").
Proof.
  apply (sanitizeFileName_stable (str "my file?.txt")).
  vm_compute. discriminate.
Defined.

End SanitizeMore.

(** ** core/aggregator.ts: what [extractMediaInfo] reads off a document *)

Module ExtractFacts.
Import Aggregator.

(** The media type an attribute of a document stands for. *)
Definition attributeType (attr : DocumentAttribute) : option MediaType :=
  match attr with
  | DocumentAttributeVideo round _ _ _ =>
      Some (if round then VIDEO_NOTE else VIDEO)
  | DocumentAttributeAudio voice _ => Some (if voice then VOICE else AUDIO)
  | DocumentAttributeAnimated => Some ANIMATION
  | DocumentAttributeSticker => Some STICKER
  | DocumentAttributeFilename _ | DocumentAttributeOther => None
  end.

(** The file name an attribute of a document carries. *)
Definition attributeName (attr : DocumentAttribute) : option jsstring :=
  match attr with
  | DocumentAttributeFilename f => Some f
  | _ => None
  end.

Lemma attributeType_known attr k : attributeType attr = Some k -> k <> UNKNOWN.
Proof.
  destruct attr as [f|[] d w h|[] d| | |]; simpl; intros E;
    inversion E; discriminate.
Qed.

Lemma omap_snoc {A B} (f : A -> option B) l a :
  omap f (l ++ [a])
  = omap f l ++ match f a with Some b => [b] | None => [] end.
Proof. rewrite omap_app. simpl. destruct (f a); reflexivity. Qed.

(** The loop over the attributes: the last attribute that stands for a
    type gives the type, the last file name attribute the name; size and
    MIME type are not touched. *)
Lemma attributes_fold attrs l0 :
  let l1 := fold_left attributeStep attrs l0 in
  l_type l1 = default (l_type l0) (last (omap attributeType attrs))
  /\ l_fileName l1
     = match last (omap attributeName attrs) with
       | Some f => Some f
       | None => l_fileName l0
       end
  /\ l_fileSize l1 = l_fileSize l0
  /\ l_mimeType l1 = l_mimeType l0.
Proof.
  induction attrs as [|a attrs IH] using rev_ind; cbn zeta.
  - repeat split.
  - rewrite fold_left_app. cbn [fold_left].
    destruct IH as (I1 & I2 & I3 & I4).
    rewrite !omap_snoc.
    destruct a as [f|round d w h|voice d| | |]; cbn [attributeStep
      attributeType attributeName l_type l_fileName l_fileSize l_mimeType];
      rewrite ?app_nil_r, ?last_snoc; cbn [default];
      repeat split; assumption.
Qed.

Section WithRuntime.
Context `{Runtime}.

Lemma document_record newId message chatId chatTitle size mime attrs :
  m_media message = Some (MessageMediaDocument (Document size mime attrs)) ->
  exists mi,
    extractMediaInfo newId message chatId chatTitle = Some mi
    /\ type mi <> UNKNOWN
    /\ type mi = default DOCUMENT (last (omap attributeType attrs))
    /\ fileName mi
       = Some (match last (omap attributeName attrs) with
               | Some (c :: f) => c :: f
               | _ => str "file_" ++ numToString (m_id message)
                        ++ toText (Helpers.getExtension [] (Some mime))
               end)
    /\ truthy (fileName mi) = true
    /\ mimeType mi = Some mime
    /\ fileSize mi = toNumber size
    /\ (Z.abs size < 2 ^ 53 -> fileSize mi = size).
Proof.
  intros Hm. unfold extractMediaInfo. rewrite Hm. cbn [inspectMedia].
  set (l0 := {| l_type := UNKNOWN; l_mimeType := Some mime;
                l_fileName := None; l_fileSize := toNumber size;
                l_duration := None; l_width := None; l_height := None |}).
  destruct (attributes_fold attrs l0) as (F1 & F2 & F3 & F4).
  cbn zeta in F1, F2, F3, F4.
  eexists. split; [reflexivity|].
  cbn [type fileName mimeType fileSize l_type l_fileName l_mimeType
       l_fileSize].
  rewrite F1, F2, F3, F4. cbn [l0 l_type l_fileName l_fileSize l_mimeType].
  assert (Hknown : forall k,
            last (omap attributeType attrs) = Some k -> k <> UNKNOWN).
  { intros k El. apply last_Some_elem_of, list_elem_of_omap in El.
    destruct El as (a & _ & Ha). eapply attributeType_known, Ha. }
  revert Hknown. generalize (last (omap attributeType attrs)).
  intros ty Hknown. unfold jsstring.
  match goal with
  | |- context [@last (list N) ?l] => generalize (@last (list N) l)
  end.
  intros name.
  assert (Hty : (if decide (default UNKNOWN ty = UNKNOWN) then DOCUMENT
                 else default UNKNOWN ty) = default DOCUMENT ty
                /\ default DOCUMENT ty <> UNKNOWN).
  { destruct ty as [k|]; simpl.
    - specialize (Hknown k eq_refl).
      destruct (decide (k = UNKNOWN)); [contradiction|].
      split; [reflexivity|assumption].
    - split; [reflexivity|discriminate]. }
  destruct Hty as [Hty Hne]. rewrite Hty.
  refine (conj Hne (conj eq_refl _)).
  assert (Hsize : Z.abs size < 2 ^ 53 -> toNumber size = size).
  { intros Hs. unfold toNumber.
    rewrite (proj2 (Z.ltb_lt _ _) Hs). reflexivity. }
  destruct name as [[|c f]|];
    refine (conj eq_refl (conj eq_refl (conj eq_refl (conj eq_refl Hsize)))).
Qed.

(** For a document, the type of the record is the one of the last
    attribute that stands for a type, DOCUMENT when there is none; its
    file name is the one of the last file name attribute, and when that
    is missing or empty the name made of the message id and what
    [getExtension] gives for the MIME type, put into the string; the MIME
    type is the document's and the size is the document's as a double,
    which is the document's size itself below 2^53. *)
Theorem extractMediaInfo_document newId message chatId chatTitle
    size mime attrs :
  m_media message = Some (MessageMediaDocument (Document size mime attrs)) ->
  exists mi,
    extractMediaInfo newId message chatId chatTitle = Some mi
    /\ type mi = default DOCUMENT (last (omap attributeType attrs))
    /\ fileName mi
       = Some (match last (omap attributeName attrs) with
               | Some (c :: f) => c :: f
               | _ => str "file_" ++ numToString (m_id message)
                        ++ toText (Helpers.getExtension [] (Some mime))
               end)
    /\ truthy (fileName mi) = true
    /\ mimeType mi = Some mime
    /\ fileSize mi = toNumber size
    /\ (Z.abs size < 2 ^ 53 -> fileSize mi = size).
Proof.
  intros Hm.
  destruct (document_record newId message chatId chatTitle size mime attrs Hm)
    as (mi & E & _ & Hrest).
  exists mi. split; [exact E|exact Hrest].
Qed.

(** A record has the type UNKNOWN exactly when the media is a document
    media whose document is not a [Document]; such a record has no file
    name and the size 0, and counts as DOWNLOADABLE. *)
Theorem extractMediaInfo_unknown newId message chatId chatTitle mi :
  extractMediaInfo newId message chatId chatTitle = Some mi ->
  (type mi = UNKNOWN
   <-> m_media message = Some (MessageMediaDocument DocumentOther))
  /\ (type mi = UNKNOWN ->
      fileName mi = None /\ fileSize mi = 0
      /\ downloadable mi = DOWNLOADABLE).
Proof.
  unfold extractMediaInfo.
  destruct (m_media message) as [[photo|[size mime attrs|]|]|] eqn:Hm;
    try discriminate.
  - (* a photo *)
    cbn [inspectMedia]. intros E. inversion E; subst mi; clear E.
    cbn [type l_type].
    assert (Hp : forall l : Locals, l_type l = PHOTO ->
                 l_type l = UNKNOWN -> False) by (intros l -> ; discriminate).
    assert (Ht : l_type match photo with
                        | Photo sizes =>
                            match last sizes with
                            | Some (PhotoSize size w h) =>
                                {| l_type := PHOTO; l_mimeType := None;
                                   l_fileName := None; l_fileSize := size;
                                   l_duration := None; l_width := Some w;
                                   l_height := Some h |}
                            | _ =>
                                {| l_type := PHOTO; l_mimeType := None;
                                   l_fileName := None; l_fileSize := 0;
                                   l_duration := None; l_width := None;
                                   l_height := None |}
                            end
                        | PhotoOther =>
                            {| l_type := PHOTO; l_mimeType := None;
                               l_fileName := None; l_fileSize := 0;
                               l_duration := None; l_width := None;
                               l_height := None |}
                        end = PHOTO).
    { destruct photo as [sizes|]; [|reflexivity].
      destruct (last sizes) as [[]|]; reflexivity. }
    rewrite Ht. split; [split|]; discriminate.
  - (* a document *)
    intros E.
    destruct (document_record newId message chatId chatTitle
                size mime attrs Hm) as (mi' & E' & Hty & _).
    unfold extractMediaInfo in E'. rewrite Hm in E'.
    rewrite E in E'. inversion E'; subst mi'; clear E'.
    split; [split|]; intros Hu; try discriminate Hu; contradiction.
  - (* a document media without a document *)
    cbn [inspectMedia]. intros E. inversion E; subst mi; clear E.
    cbn. split; [split; reflexivity|]. intros _.
    repeat split.
Qed.

End WithRuntime.

End ExtractFacts.

Module ExtractExamples.
Import Aggregator ExtractFacts.

(** A clip sent as an animation: a video attribute, a file name and the
    mark of an animation. *)
Definition animation : Message :=
  {| m_id := 77; m_date := 1700000200; m_message := [];
     m_media :=
       Some (MessageMediaDocument
               (Document 2048 (str "video/mp4")
                  [DocumentAttributeVideo false 10 640 480;
                   DocumentAttributeFilename (str "cat.mp4");
                   DocumentAttributeAnimated])) |}.

(** A document media whose document is not there any more. *)
Definition emptyDocument : Message :=
  {| m_id := 78; m_date := 1700000300; m_message := [];
     m_media := Some (MessageMediaDocument DocumentOther) |}.

Lemma extractMediaInfo_document_witness :
  exists mi,
    @extractMediaInfo UtcRuntime.runtime (str "id-1") animation
      (str "1001") (str "My Channel") = Some mi
    /\ type mi = ANIMATION
    /\ fileName mi = Some (str "cat.mp4")
    /\ truthy (fileName mi) = true
    /\ mimeType mi = Some (str "video/mp4")
    /\ fileSize mi = 2048.
Proof.
  destruct (@extractMediaInfo_document UtcRuntime.runtime (str "id-1")
              animation (str "1001") (str "My Channel") 2048
              (str "video/mp4") _ eq_refl)
    as (mi & E & T1 & T2 & T3 & T4 & T5 & _).
  exists mi. exact (conj E (conj T1 (conj T2 (conj T3 (conj T4 T5))))).
Defined.

(** A document without a file name whose MIME type is the name of a
    member of [Object.prototype], and whose size is the odd number after
    2^53: the name is made with the text of the function, and the size is
    rounded. *)
Definition oddDocument : Message :=
  {| m_id := 79; m_date := 1700000400; m_message := [];
     m_media :=
       Some (MessageMediaDocument
               (Document 9007199254740993 (str "constructor") [])) |}.

Example odd_document :
  option_map (fun mi => (type mi, fileName mi, fileSize mi, downloadable mi))
    (@extractMediaInfo UtcRuntime.runtime (str "id-3") oddDocument
       (str "1001") (str "My Channel"))
  = Some (DOCUMENT,
          Some (str "file_79function Object() { [native code] }"),
          9007199254740992, TOO_LARGE).
Proof. vm_compute. reflexivity. Qed.

Lemma extractMediaInfo_unknown_witness :
  exists mi,
    @extractMediaInfo UtcRuntime.runtime (str "id-2") emptyDocument
      (str "1001") (str "My Channel") = Some mi
    /\ type mi = UNKNOWN
    /\ fileName mi = None /\ fileSize mi = 0
    /\ downloadable mi = DOWNLOADABLE.
Proof.
  destruct (@extractMediaInfo UtcRuntime.runtime (str "id-2") emptyDocument
              (str "1001") (str "My Channel")) as [mi|] eqn:E;
    [|vm_compute in E; discriminate E].
  destruct (@extractMediaInfo_unknown UtcRuntime.runtime _ _ _ _ _ E)
    as [Hiff Hthen].
  exists mi. split; [reflexivity|].
  assert (Hu : type mi = UNKNOWN) by (apply Hiff; reflexivity).
  split; [exact Hu|exact (Hthen Hu)].
Defined.

End ExtractExamples.

(** ** core/downloader.ts: the tasks of a batch and the statistics *)

Module Registry.
Import Downloader.

(** The object [getDownloadStats] returns. *)
Record DownloadStats := {
  total : Z;
  pending : Z;
  downloading : Z;
  completed : Z;
  failed : Z;
  paused : Z;
  totalBytes : Z;
  downloadedBytesSum : Z;
}.

(** One turn of the loop of [getDownloadStats]: the two sums, then the
    [switch], which has no case for CANCELLED. *)
Definition countTask (task : DownloadTask) (stats : DownloadStats)
  : DownloadStats :=
  let bump (s : DownloadStatus) (n : Z) :=
    if bool_decide (status task = s) then n + 1 else n in
  {| total := total stats;
     pending := bump PENDING (pending stats);
     downloading := bump DOWNLOADING (downloading stats);
     completed := bump COMPLETED (completed stats);
     failed := bump FAILED (failed stats);
     paused := bump PAUSED (paused stats);
     totalBytes := totalBytes stats + fileSize (media task);
     downloadedBytesSum := downloadedBytesSum stats + downloadedBytes task |}.

(** [getDownloadStats]. *)
Definition getDownloadStats (w : World) : DownloadStats :=
  map_fold (fun _ task stats => countTask task stats)
    {| total := Z.of_nat (size (downloadTasks w)); pending := 0;
       downloading := 0; completed := 0; failed := 0; paused := 0;
       totalBytes := 0; downloadedBytesSum := 0 |}
    (downloadTasks w).

End Registry.

Module BatchFacts.
Import Downloader FsFacts.






Section WithRuntime.
Context `{Runtime}.
Variable downloadConfig : DownloadConfig.












End WithRuntime.

End BatchFacts.

Module StatsFacts.
Import Downloader Registry.

(** The number of the tasks of a registry that have the status [s]. *)
Definition countStatus (s : DownloadStatus)
    (m : gmap jsstring DownloadTask) : Z :=
  Z.of_nat (size (filter (fun kv => status kv.2 = s) m)).

(** The sum of [g] over the tasks of a registry. *)
Definition sumOver (g : DownloadTask -> Z)
    (m : gmap jsstring DownloadTask) : Z :=
  foldr Z.add 0 (g <$> (map_to_list m).*2).

Lemma countStatus_empty s : countStatus s ∅ = 0.
Proof. unfold countStatus. rewrite map_filter_empty, map_size_empty.
  reflexivity. Qed.

Lemma countStatus_insert s m i x :
  m !! i = None ->
  countStatus s (<[i := x]> m)
  = countStatus s m + (if bool_decide (status x = s) then 1 else 0).
Proof.
  intros Hfresh. unfold countStatus.
  destruct (bool_decide (status x = s)) eqn:E.
  - apply bool_decide_eq_true in E.
    rewrite map_filter_insert_True by exact E.
    rewrite map_size_insert_None; [lia|].
    apply map_lookup_filter_None. left. exact Hfresh.
  - apply bool_decide_eq_false in E.
    rewrite map_filter_insert_False by exact E.
    rewrite delete_id by exact Hfresh. lia.
Qed.

Lemma foldr_add_perm (l l' : list Z) :
  l ≡ₚ l' -> foldr Z.add 0 l = foldr Z.add 0 l'.
Proof. induction 1; simpl; lia. Qed.

Lemma sumOver_insert g m i x :
  m !! i = None -> sumOver g (<[i := x]> m) = sumOver g m + g x.
Proof.
  intros Hfresh. unfold sumOver.
  rewrite (foldr_add_perm _ (g <$> ((i, x) :: map_to_list m).*2)).
  - rewrite !fmap_cons. cbn [foldr snd]. lia.
  - apply fmap_Permutation, fmap_Permutation, map_to_list_insert, Hfresh.
Qed.

(** What the loop of [getDownloadStats] has counted after the tasks of
    [m], from the counters at 0. *)
Definition counted (stats : DownloadStats)
    (m : gmap jsstring DownloadTask) : Prop :=
  pending stats = countStatus PENDING m
  /\ downloading stats = countStatus DOWNLOADING m
  /\ completed stats = countStatus COMPLETED m
  /\ failed stats = countStatus FAILED m
  /\ paused stats = countStatus PAUSED m
  /\ totalBytes stats = sumOver (fun t => fileSize (media t)) m
  /\ downloadedBytesSum stats = sumOver downloadedBytes m
  /\ countStatus PENDING m + countStatus DOWNLOADING m
     + countStatus COMPLETED m + countStatus FAILED m
     + countStatus PAUSED m + countStatus CANCELLED m
     = Z.of_nat (size m).

Lemma getDownloadStats_counted w :
  counted (getDownloadStats w) (downloadTasks w)
  /\ total (getDownloadStats w) = Z.of_nat (size (downloadTasks w)).
Proof.
  unfold getDownloadStats.
  generalize (Z.of_nat (size (downloadTasks w))). intros n.
  apply (map_fold_weak_ind (fun r m => counted r m /\ total r = n)).
  - unfold counted. simpl. rewrite !countStatus_empty.
    unfold sumOver. rewrite map_to_list_empty, map_size_empty. simpl.
    repeat split.
  - intros i x m r Hfresh [(C1 & C2 & C3 & C4 & C5 & C6 & C7 & C8) Ht].
    split; [|exact Ht]. unfold counted, countTask. simpl.
    rewrite !countStatus_insert by exact Hfresh.
    rewrite !sumOver_insert by exact Hfresh.
    rewrite map_size_insert_None by exact Hfresh.
    rewrite C1, C2, C3, C4, C5, C6, C7.
    destruct (status x); simpl; repeat split; lia.
Qed.


End StatsFacts.

Module CleanupStats.
Import Downloader Registry RegistryFacts StatsFacts.

Lemma cleared_lookup w i x :
  downloadTasks (clearCompletedTasks w) !! i = Some x
  <-> downloadTasks w !! i = Some x /\ finished x = false.
Proof. rewrite clearCompletedTasks_filter. apply map_lookup_filter_Some. Qed.

Lemma countStatus_cleared w s :
  countStatus s (downloadTasks (clearCompletedTasks w))
  = if bool_decide (s = COMPLETED) || bool_decide (s = CANCELLED) then 0
    else countStatus s (downloadTasks w).
Proof.
  unfold countStatus.
  destruct (bool_decide (s = COMPLETED) || bool_decide (s = CANCELLED))
    eqn:Es.
  - rewrite map_empty_filter_2; [rewrite map_size_empty; reflexivity|].
    intros i x Hx. apply cleared_lookup in Hx as [_ Hf]. simpl.
    intros Hs. unfold finished in Hf. rewrite Hs in Hf. congruence.
  - f_equal. f_equal. apply map_filter_strong_ext. intros i x. split.
    + intros (Hs & Hx). apply cleared_lookup in Hx as [Hx _].
      split; assumption.
    + intros (Hs & Hx). split; [exact Hs|].
      apply cleared_lookup. split; [exact Hx|].
      unfold finished. simpl in Hs. rewrite Hs. exact Es.
Qed.

(** After [clearCompletedTasks] the statistics count no completed task,
    every task left is in one of the four other counters, and those four
    are what they were before the cleanup. *)
Theorem stats_after_cleanup w :
  let before := getDownloadStats w in
  let after := getDownloadStats (clearCompletedTasks w) in
  completed after = 0
  /\ pending after + downloading after + failed after + paused after
     = total after
  /\ pending after = pending before
  /\ downloading after = downloading before
  /\ failed after = failed before
  /\ paused after = paused before.
Proof.
  cbn zeta.
  destruct (getDownloadStats_counted w)
    as [(B1 & B2 & B3 & B4 & B5 & _ & _ & _) _].
  destruct (getDownloadStats_counted (clearCompletedTasks w))
    as [(A1 & A2 & A3 & A4 & A5 & _ & _ & A8) At].
  set (m' := downloadTasks (clearCompletedTasks w)) in *.
  assert (K1 : countStatus PENDING m' = countStatus PENDING (downloadTasks w))
    by apply (countStatus_cleared w PENDING).
  assert (K2 : countStatus DOWNLOADING m'
               = countStatus DOWNLOADING (downloadTasks w))
    by apply (countStatus_cleared w DOWNLOADING).
  assert (K3 : countStatus COMPLETED m' = 0)
    by apply (countStatus_cleared w COMPLETED).
  assert (K4 : countStatus FAILED m' = countStatus FAILED (downloadTasks w))
    by apply (countStatus_cleared w FAILED).
  assert (K5 : countStatus PAUSED m' = countStatus PAUSED (downloadTasks w))
    by apply (countStatus_cleared w PAUSED).
  assert (K6 : countStatus CANCELLED m' = 0)
    by apply (countStatus_cleared w CANCELLED).
  rewrite At, A1, A2, A3, A4, A5, B1, B2, B4, B5.
  repeat split; lia.
Qed.

End CleanupStats.

Module BatchExamples.
Import Downloader BatchFacts.

(** The clip, and the same clip as a record that is too large. *)
Definition tooLarge : MediaInfo :=
  {| id := str "1700000000001-big"; messageId := 43;
     chatId := chatId NamingFacts.clip;
     chatTitle := chatTitle NamingFacts.clip; type := VIDEO;
     mimeType := Some (str "video/mp4"); fileName := None;
     fileSize := 3000000000; fileSizeFormatted := str "2.79 GB";
     downloadable := TOO_LARGE; downloadableReason := None;
     date := 1700000000000; caption := None;
     duration := None; width := None; height := None |}.


(** A batch with a record for which [generateOutputPath] throws: the
    loop throws after it made the task of the clip, which stays in the
    registry. *)
Example batch_aborted :
  let r :=
    @createAll UtcRuntime.runtime [str "t1"; str "t2"; str "t3"]
      [NamingFacts.clip; NamingFacts.oddMime; NamingFacts.clip]
      NamingFacts.defaults SchedulerFacts.emptyWorld in
  r.1 = Raises TypeError
  /\ option_map media (getTask (str "t1") r.2) = Some NamingFacts.clip
  /\ getTask (str "t2") r.2 = None
  /\ getTask (str "t3") r.2 = None.
Proof. vm_compute. repeat split. Qed.


End BatchExamples.

(** ** utils/config.ts: the two sections of the configuration file *)

Module ConfigMore.
Import Config.

Section WithHome.
Variable homedir : jsstring.

(** [getTelegramConfig]: an object is truthy whatever its fields. *)
Definition getTelegramConfig (store : Store) : option TelegramConfig :=
  match loadConfig store with
  | Some config => Some (telegram config)
  | None => None
  end.

Definition saveTelegramConfig (telegramConfig : TelegramConfig)
    (store : Store) : Store :=
  match loadConfig store with
  | Some config =>
      Some {| telegram := telegramConfig; download := download config |}
  | None =>
      Some {| telegram := telegramConfig;
              download := DEFAULT_DOWNLOAD_CONFIG homedir |}
  end.

(** [isConfigured]: 0 and the empty string are falsy. *)
Definition isConfigured (store : Store) : bool :=
  match loadConfig store with
  | Some config =>
      negb (apiId (telegram config) =? 0)
      && match apiHash (telegram config) with
         | [] => false
         | _ :: _ => true
         end
  | None => false
  end.

End WithHome.

End ConfigMore.

Module ConfigFacts.
Import Config ConfigMore.

Section WithHome.
Variable homedir : jsstring.

(** The two sections of the configuration file are independent: what
    is saved in one is read back, and the other reads as before.  An
    update of the download settings changes the fields it gives and no
    other, and does not make the program configured: on a missing file
    it writes the credentials 0 and the empty string, which
    [getTelegramConfig] then returns in place of null. *)
Theorem config_sections (store : Store) (telegramConfig : TelegramConfig)
    (updates : PartialDownloadConfig) :
  getTelegramConfig (saveTelegramConfig homedir telegramConfig store)
    = Some telegramConfig
  /\ getDownloadConfig homedir
       (saveTelegramConfig homedir telegramConfig store)
     = getDownloadConfig homedir store
  /\ getDownloadConfig homedir (updateDownloadConfig homedir updates store)
     = spread (getDownloadConfig homedir store) updates
  /\ getTelegramConfig (updateDownloadConfig homedir updates store)
     = Some (default {| apiId := 0; apiHash := [] |}
               (getTelegramConfig store))
  /\ isConfigured (updateDownloadConfig homedir updates store)
     = isConfigured store
  /\ updateDownloadConfig homedir noUpdates
       (updateDownloadConfig homedir updates store)
     = updateDownloadConfig homedir updates store.
Proof.
  unfold getTelegramConfig, saveTelegramConfig, getDownloadConfig,
    updateDownloadConfig, saveDownloadConfig, getDownloadConfig, isConfigured,
    loadConfig.
  destruct store as [[tc dc]|]; simpl; repeat split.
Qed.

End WithHome.

End ConfigFacts.
